(** * gis_maps backend: zoom policy, cache tiers and fence lifecycle

    A shallow embedding of the parts of [backend/config.py],
    [backend/zoom_strategy_config.py], [backend/services.py] and
    [backend/fence_services.py] that decide the zoom policy of a layer,
    manage the two cache tiers and orchestrate fence mutations.

    Python [int] is [Z]; a [dict] used as a map is a [gmap]; an exception is
    a value of [exn] carried in a sum. *)

From Stdlib Require Import ZArith QArith Qabs List String Ascii DecimalString.
From stdpp Require Import gmap strings list fin_maps.

Local Open Scope string_scope.
Local Open Scope Z_scope.

(** ** Python values shared by all modules *)

(** The exception classes the modelled code raises or catches.  Everything
    is a subclass of [Exception], which is what every handler catches. *)
Inductive exn : Type :=
| ValueError (msg : string)
| KeyError (msg : string)
| Exception (msg : string).

(** [str(e)]. *)
Definition exn_str (e : exn) : string :=
  match e with
  | ValueError m => m
  | KeyError m => m
  | Exception m => m
  end.

(** [f"{n}"] for an [int]. *)
Definition str_of_int (n : Z) : string := NilZero.string_of_int (Z.to_int n).

(** [max(xs)] and [min(xs)]: a [ValueError] on the empty sequence. *)
Definition py_max (xs : list Z) : exn + Z :=
  match xs with
  | [] => inl (ValueError "max() arg is an empty sequence")
  | x :: rest => inr (fold_left Z.max rest x)
  end.

Definition py_min (xs : list Z) : exn + Z :=
  match xs with
  | [] => inl (ValueError "min() arg is an empty sequence")
  | x :: rest => inr (fold_left Z.min rest x)
  end.

(** [sorted(xs)] on integers. *)
Fixpoint insert_sorted (x : Z) (xs : list Z) : list Z :=
  match xs with
  | [] => [x]
  | y :: ys => if x <=? y then x :: y :: ys else y :: insert_sorted x ys
  end.

Definition sorted (xs : list Z) : list Z := fold_right insert_sorted [] xs.

(** ** zoom_strategy_config.py and the resolver of config.py *)

Module Zoom.

(** One entry of [LAYER_ZOOM_STRATEGIES].  [always_load] is an optional key,
    read with [strategy.get('always_load')]; [limits] is the literal
    [{threshold: limit}] in the order it is written. *)
Record layer_strategy : Type := {
  min_zoom : Z;
  max_zoom : Z;
  always_load : option bool;
  limits : list (Z * Z);
  description : string
}.

Definition mk_layer (lo hi : Z) (al : option bool) (lim : list (Z * Z)) : layer_strategy :=
  {| min_zoom := lo; max_zoom := hi; always_load := al; limits := lim; description := "" |}.

Definition LAYER_ZOOM_STRATEGIES : gmap string layer_strategy :=
  list_to_map [
    ("fences",        mk_layer 1 20 (Some true) [(1, 1000); (10, 3000); (15, 5000)]);
    ("buildings",     mk_layer 6 20 None [(6, 5000); (10, 15000); (12, 30000); (15, 50000)]);
    ("land_polygons", mk_layer 4 20 None [(4, 2000); (8, 5000); (10, 8000); (12, 6000); (14, 3000)]);
    ("roads",         mk_layer 7 20 None [(7, 3000); (9, 5000); (11, 10000); (13, 20000); (15, 30000)]);
    ("pois",          mk_layer 9 20 None [(9, 3000); (12, 5000); (16, 8000)]);
    ("water",         mk_layer 8 20 None [(8, 5000); (12, 8000); (16, 10000)]);
    ("railways",      mk_layer 10 20 None [(10, 3000); (14, 5000); (16, 8000)]);
    ("traffic",       mk_layer 13 20 None [(13, 3000); (16, 6000)]);
    ("worship",       mk_layer 12 20 None [(12, 5000); (16, 8000)]);
    ("landuse",       mk_layer 10 20 None [(10, 8000); (14, 15000); (16, 20000)]);
    ("transport",     mk_layer 9 20 None [(9, 1000); (12, 2000); (16, 3000)]);
    ("places",        mk_layer 6 20 None [(6, 500); (8, 1000); (12, 2000); (16, 3000)]);
    ("natural",       mk_layer 8 20 None [(8, 2000); (10, 3000); (14, 5000); (16, 8000)])
  ].

(** [HIGH_ZOOM_STRATEGY['zoom_threshold']]. *)
Definition HIGH_ZOOM_THRESHOLD : Z := 16.

(** The dictionary the resolver returns.  The keys [max_features],
    [simplify_tolerance] and [cache_ttl] are absent from the two-key
    dictionaries of the refusing branches.  The tolerances of the source
    are the integral literals 0, 100.0, 20.0, 5.0 and 1.0. *)
Record policy : Type := {
  load_data : bool;
  reason : string;
  max_features : option Z;
  simplify_tolerance : option Z;
  cache_ttl : option Z
}.

Definition refuse (why : string) : policy :=
  {| load_data := false; reason := why; max_features := None;
     simplify_tolerance := None; cache_ttl := None |}.

Definition calc_simplify_tolerance (zoom : Z) : Z :=
  if zoom <? 10 then 100
  else if zoom <? 12 then 20
  else if zoom <? 15 then 5
  else 1.

Definition calc_cache_ttl (zoom : Z) : Z :=
  let base_ttl := 600 in
  Z.max 300 (base_ttl - zoom * 15).

(** [limits[k]]. *)
Fixpoint limits_get (lim : list (Z * Z)) (k : Z) : exn + Z :=
  match lim with
  | [] => inl (KeyError (str_of_int k))
  | (t, v) :: rest => if decide (t = k) then inr v else limits_get rest k
  end.

Definition keys (lim : list (Z * Z)) : list Z := map fst lim.
Definition values (lim : list (Z * Z)) : list Z := map snd lim.

(** Truthiness of [strategy.get('always_load')]. *)
Definition truthy (o : option bool) : bool :=
  match o with Some b => b | None => false end.

(** [get_layer_zoom_strategy], over the table it reads. *)
Definition get_layer_zoom_strategy_on (table : gmap string layer_strategy)
    (layer_name : string) (zoom : Z) : exn + policy :=
  match table !! layer_name with
  | None => inr (refuse "layer_not_configured")
  | Some strategy =>
    let limits := limits strategy in
    if truthy (always_load strategy) then
      let available_zooms := filter (λ z, z ≤ zoom) (keys limits) in
      match (match available_zooms with
             | [] => py_min (keys limits)
             | _ => py_max available_zooms
             end) with
      | inl e => inl e
      | inr target_zoom =>
        match limits_get limits target_zoom with
        | inl e => inl e
        | inr limit =>
          inr {| load_data := true; reason := "always_load";
                 max_features := Some limit;
                 simplify_tolerance := Some 0;
                 cache_ttl := Some (calc_cache_ttl zoom) |}
        end
      end
    else if zoom <? min_zoom strategy then
      inr (refuse "zoom_too_low")
    else if HIGH_ZOOM_THRESHOLD <=? zoom then
      match (match limits with
             | [] => inr 5000
             | _ => py_max (values limits)
             end) with
      | inl e => inl e
      | inr m =>
        inr {| load_data := true; reason := "high_zoom_all_layers";
               max_features := Some m;
               simplify_tolerance := Some 0;
               cache_ttl := Some (calc_cache_ttl zoom) |}
      end
    else
      let zoom_levels := sorted (filter (λ z, z ≤ zoom) (keys limits)) in
      match zoom_levels with
      | [] => inr (refuse "no_suitable_zoom")
      | _ =>
        match py_max zoom_levels with
        | inl e => inl e
        | inr target_zoom =>
          match limits_get limits target_zoom with
          | inl e => inl e
          | inr limit =>
            inr {| load_data := true;
                   reason := ("zoom_" ++ str_of_int target_zoom ++ "_strategy")%string;
                   max_features := Some limit;
                   simplify_tolerance := Some (calc_simplify_tolerance zoom);
                   cache_ttl := Some (calc_cache_ttl zoom) |}
          end
        end
      end
  end.

Definition get_layer_zoom_strategy : string -> Z -> exn + policy :=
  get_layer_zoom_strategy_on LAYER_ZOOM_STRATEGIES.

End Zoom.

(** ** The process state and the monad of effects *)

(** Python floats are abstracted by rationals; SQL column values. *)
Inductive sqlval : Type :=
| SNull
| SInt (n : Z)
| SText (s : string)
| SNum (q : Q)
| STime (t : Z).

#[global] Instance Q_eq_dec : EqDecision Q.
Proof. solve_decision. Defined.

#[global] Instance sqlval_eq_dec : EqDecision sqlval.
Proof. solve_decision. Defined.

(** A row of [electronic_fences], column name to value. *)
Abbreviation fence_row := (gmap string sqlval).

(** A row of [fence_overlaps], with the columns the source writes. *)
Module OverlapRow.
Record t : Type := {
  fence_id_1 : Z;
  fence_id_2 : Z;
  overlap_area : Q;
  overlap_percentage_1 : Q;
  overlap_percentage_2 : Q;
  overlap_type : string;
  detected_at : Z
}.
End OverlapRow.

Abbreviation overlap_row := OverlapRow.t.

Record database : Type := {
  electronic_fences : list fence_row;
  fence_overlaps : list overlap_row;
  next_fence_id : Z
}.

Record cache_stats_t : Type := {
  hits : Z;
  misses : Z;
  redis_hits : Z;
  redis_misses : Z
}.

(** The server behind [redis_client]: a key holds its expiry instant and
    its serialized value. *)
Record redis_server : Type := {
  reachable : bool;
  keyspace : gmap string (Z * string)
}.

(** The module globals of [services.py], the store they connect to, the
    clock read by [time.time()] and the lines written to the loggers.
    A payload of the local tier is a Python value, held here as a text that
    stands for it; the shared tier holds JSON text. *)
Record world : Type := {
  now : Z;
  db_pool : bool;
  read_pools : nat;
  db : database;
  redis_client : option redis_server;
  memory_cache : gmap string (Z * string);
  cache_stats : cache_stats_t;
  log : list string
}.

Definition set_db (d : database) (w : world) : world :=
  {| now := now w; db_pool := db_pool w; read_pools := read_pools w; db := d;
     redis_client := redis_client w; memory_cache := memory_cache w;
     cache_stats := cache_stats w; log := log w |}.

Definition set_redis_client (r : option redis_server) (w : world) : world :=
  {| now := now w; db_pool := db_pool w; read_pools := read_pools w; db := db w;
     redis_client := r; memory_cache := memory_cache w;
     cache_stats := cache_stats w; log := log w |}.

Definition set_memory_cache (m : gmap string (Z * string)) (w : world) : world :=
  {| now := now w; db_pool := db_pool w; read_pools := read_pools w; db := db w;
     redis_client := redis_client w; memory_cache := m;
     cache_stats := cache_stats w; log := log w |}.

Definition set_cache_stats (c : cache_stats_t) (w : world) : world :=
  {| now := now w; db_pool := db_pool w; read_pools := read_pools w; db := db w;
     redis_client := redis_client w; memory_cache := memory_cache w;
     cache_stats := c; log := log w |}.

Definition set_log (l : list string) (w : world) : world :=
  {| now := now w; db_pool := db_pool w; read_pools := read_pools w; db := db w;
     redis_client := redis_client w; memory_cache := memory_cache w;
     cache_stats := cache_stats w; log := l |}.

(** A computation reads and writes the world and either returns or raises;
    what it wrote before raising stays written. *)
Definition M (A : Type) : Type := world -> (exn + A) * world.

Definition ret {A} (a : A) : M A := fun w => (inr a, w).

Definition raise {A} (e : exn) : M A := fun w => (inl e, w).

Definition bind {A B} (m : M A) (k : A -> M B) : M B :=
  fun w => match m w with
           | (inl e, w') => (inl e, w')
           | (inr a, w') => k a w'
           end.

(** [try: m except Exception as e: h e]. *)
Definition try_except {A} (m : M A) (h : exn -> M A) : M A :=
  fun w => match m w with
           | (inl e, w') => h e w'
           | (inr a, w') => (inr a, w')
           end.

Definition gets {A} (f : world -> A) : M A := fun w => (inr (f w), w).

Definition modify (f : world -> world) : M unit := fun w => (inr tt, f w).

(** Lift a call that may raise but touches no state. *)
Definition lift {A} (r : exn + A) : M A := fun w => (r, w).

Notation "x <- m ;; k" := (bind m (fun x => k))
  (at level 100, m at next level, right associativity).
Notation "m ;;; k" := (bind m (fun _ => k))
  (at level 100, right associativity).

(** [for x in xs: body x]. *)
Fixpoint for_each {A} (xs : list A) (body : A -> M unit) : M unit :=
  match xs with
  | [] => ret tt
  | x :: rest => body x ;;; for_each rest body
  end.

Definition logger (line : string) : M unit :=
  modify (fun w => set_log (log w ++ [line]) w).

(** Two worlds that differ at most by lines appended to the log. *)
Definition logged (w w' : world) : Prop :=
  ∃ lines, w' = set_log (log w ++ lines) w.

(** ** services.py: connection pools and the two cache tiers *)

Module Services.

(** [CACHE_CONFIG]. *)
Definition MEMORY_CACHE_MAX_SIZE : Z := 1000.
Definition MEMORY_CACHE_TTL : Z := 300.
Definition MAX_GEOJSON_SIZE : Z := 10 * 1024 * 1024.

(** [CACHE_CONFIG['redis_cache'].get(f'{cache_type}_ttl', 3600)]. *)
Definition redis_ttl (cache_type : string) : Z :=
  if decide (cache_type = "buildings") then 3600
  else if decide (cache_type = "land_polygons") then 7200
  else if decide (cache_type = "roads") then 1800
  else if decide (cache_type = "pois") then 1800
  else 3600.

Inductive pool : Type := WritePool | ReadPool (index : nat).

(** [get_db_connection]: the pools are created at start-up, never here. *)
Definition get_db_connection (read_only : bool) : M pool :=
  ready <- gets db_pool ;;
  if negb ready then raise (Exception "数据库连接池未初始化，请确保在应用启动时调用 init_db_pool()")
  else
    n <- gets read_pools ;;
    t <- gets now ;;
    if read_only && negb (Nat.eqb n 0) then ret (ReadPool (Z.to_nat (t mod Z.of_nat n)))
    else ret WritePool.

(** The commands sent to the shared tier; an unreachable server raises. *)
Definition redis_get (r : redis_server) (key : string) : M (option string) :=
  if reachable r then
    t <- gets now ;;
    match keyspace r !! key with
    | Some (expiry, v) => if t <? expiry then ret (Some v) else ret None
    | None => ret None
    end
  else raise (Exception "redis: connection error").

Definition redis_setex (r : redis_server) (key : string) (ttl : Z) (v : string) : M unit :=
  if reachable r then
    t <- gets now ;;
    modify (set_redis_client
      (Some {| reachable := true; keyspace := <[key := (t + ttl, v)]> (keyspace r) |}))
  else raise (Exception "redis: connection error").

Definition redis_flushdb (r : redis_server) : M unit :=
  if reachable r then
    modify (set_redis_client (Some {| reachable := true; keyspace := ∅ |}))
  else raise (Exception "redis: connection error").

Definition bump_hits (c : cache_stats_t) : cache_stats_t :=
  {| hits := hits c + 1; misses := misses c; redis_hits := redis_hits c;
     redis_misses := redis_misses c |}.
Definition bump_misses (c : cache_stats_t) : cache_stats_t :=
  {| hits := hits c; misses := misses c + 1; redis_hits := redis_hits c;
     redis_misses := redis_misses c |}.
Definition bump_redis_hits (c : cache_stats_t) : cache_stats_t :=
  {| hits := hits c; misses := misses c; redis_hits := redis_hits c + 1;
     redis_misses := redis_misses c |}.
Definition bump_redis_misses (c : cache_stats_t) : cache_stats_t :=
  {| hits := hits c; misses := misses c; redis_hits := redis_hits c;
     redis_misses := redis_misses c + 1 |}.

Definition count (f : cache_stats_t -> cache_stats_t) : M unit :=
  modify (fun w => set_cache_stats (f (cache_stats w)) w).

(** The write to the local tier, admitted only under the size ceiling. *)
Definition memory_store (key : string) (value : string) : M unit :=
  mc <- gets memory_cache ;;
  t <- gets now ;;
  if Z.of_nat (size mc) <? MEMORY_CACHE_MAX_SIZE
  then modify (set_memory_cache (<[key := (t, value)]> mc))
  else ret tt.

(** [json.dumps] and [json.loads], between a cached value and its JSON
    text; either may raise. *)
Record codec : Type := {
  to_json : string -> exn + string;
  of_json : string -> exn + string
}.

Section WithCodec.

Context (J : codec).

(** The second half of [get_cache_value]: the shared tier, then the miss. *)
Definition get_cache_value_redis (key : string) : M (option string) :=
  client <- gets redis_client ;;
  found <-
    match client with
    | Some r =>
      try_except
        (redis_value <- redis_get r key ;;
         match redis_value with
         | Some text =>
           if negb (String.eqb text "") then
             count bump_redis_hits ;;;
             value <- lift (of_json J text) ;;
             memory_store key value ;;;
             ret (Some value)
           else count bump_redis_misses ;;; ret None
         | None => count bump_redis_misses ;;; ret None
         end)
        (fun e => logger ("Redis获取失败: " ++ exn_str e)%string ;;; ret None)
    | None => ret None
    end ;;
  match found with
  | Some v => ret (Some v)
  | None => count bump_misses ;;; ret None
  end.

Definition get_cache_value (key : string) (cache_type : string) : M (option string) :=
  mc <- gets memory_cache ;;
  t <- gets now ;;
  match mc !! key with
  | Some (timestamp, value) =>
    if t - timestamp <? MEMORY_CACHE_TTL then
      count bump_hits ;;; ret (Some value)
    else
      modify (set_memory_cache (delete key mc)) ;;;
      get_cache_value_redis key
  | None => get_cache_value_redis key
  end.

Definition set_cache_value (key : string) (value : string) (cache_type : string) : M unit :=
  try_except
    (memory_store key value ;;;
     client <- gets redis_client ;;
     match client with
     | Some r =>
       let ttl := redis_ttl cache_type in
       json_str <- lift (to_json J value) ;;
       if Z.of_nat (String.length json_str) <=? MAX_GEOJSON_SIZE
       then redis_setex r key ttl json_str
       else logger ("缓存值过大，跳过Redis缓存: "
                    ++ str_of_int (Z.of_nat (String.length json_str)) ++ " bytes")%string
     | None => ret tt
     end)
    (fun e => logger ("设置缓存失败: " ++ exn_str e)%string).

End WithCodec.

(** [clear_cache]: the flush of the shared tier is handed to the event loop
    as a task; it is run here at once. *)
Definition clear_cache : M unit :=
  modify (set_memory_cache ∅) ;;;
  client <- gets redis_client ;;
  match client with
  | Some r =>
    try_except (redis_flushdb r)
      (fun e => logger ("清理Redis缓存失败: " ++ exn_str e)%string)
  | None => ret tt
  end ;;;
  modify (set_cache_stats {| hits := 0; misses := 0; redis_hits := 0; redis_misses := 0 |}) ;;;
  logger "缓存已清理".

End Services.

(** ** fence_services.py *)

Module Fence.

Import Services.

(** A coordinate pair [[lon, lat]]. *)
Definition point : Type := (Q * Q)%type.

(** A GeoJSON geometry object: the [type] and [coordinates] keys, either of
    which may be missing. *)
Record geojson : Type := {
  g_type : option string;
  g_coordinates : option (list (list point))
}.

(** The [Union[str, dict]] the geometry functions receive; [GeomOther] is
    any Python value that is neither. *)
Inductive geometry_data : Type :=
| GeomWkt (text : string)
| GeomDict (g : geojson)
| GeomOther.

(** The [Union[str, dict]] of a cutting line. *)
Inductive split_line_data : Type :=
| LineWkt (text : string)
| LineDict (l_type : option string) (l_coordinates : option (list point)).

(** A row returned by the stored function [detect_fence_overlaps]. *)
Record detected : Type := {
  overlapping_fence_id : Z;
  overlap_area : Q;
  overlap_percentage : Q;
  overlap_type : string;
  overlap_fence_info : option fence_row
}.

(** What the module calls and does not define: shapely and pyproj, the
    formatting of floats and of JSON, PostGIS and the stored procedures of
    the store. *)
Record collaborators : Type := {
  geom : Type;
  wkt_loads : string -> exn + geom;
  Polygon : list point -> option (list (list point)) -> exn + geom;
  is_valid : geom -> bool;
  make_valid : geom -> exn + geom;
  area : geom -> Q;
  bounds : geom -> Q * Q * Q * Q;
  transform_to_3857 : geom -> exn + geom;
  float_str : Q -> string;
  json_dumps : list (string * string) -> string;
  ST_GeomFromText : string -> exn + unit;
  sql_detect_fence_overlaps : database -> Z -> exn + list detected;
  sql_merge_fences :
    database -> list Z -> string -> option Z -> (exn + option Z) * database;
  sql_split_fence :
    database -> Z -> string -> option Z -> (exn + option (list Z)) * database
}.

(** The dictionaries the operations return. *)
#[warnings="-register-all"]
Inductive result : Type :=
| Failure (error : string) (message : string)
| Created (fence_id : Z) (fence_name : string) (fence_area : Q)
    (overlaps_detected : bool) (overlaps_count : nat) (message : string)
| Updated (fence_id : Z) (fence_name : sqlval) (fence_area : sqlval)
    (overlaps_detected : bool) (overlaps_count : nat) (message : string)
| Deleted (fence_id : Z) (fence_name : sqlval) (message : string)
| Merged (new_fence_id : Z) (merged_fence_ids : list Z)
    (overlaps_detected : bool) (overlaps_count : nat) (message : string)
| Split (original_fence_id : Z) (new_fence_ids : list Z) (parts_count : nat)
    (overlaps_detected : bool) (overlaps_count : nat) (message : string)
| Imported (imported_count skipped_count error_count total_features : nat)
    (results : list result) (message : string).

(** [result.get('success')]. *)
Definition success (r : result) : bool :=
  match r with
  | Failure _ _ => false
  | _ => true
  end.

Section WithCollaborators.

Context (E : collaborators).

(** [geom.area > 0.00000001]: the bound is the double that the literal
    denotes, 3022314549036573 / 2^78, a little above 10^-8. *)
Definition MIN_DEGREE_AREA : Q := 3022314549036573 # 302231454903657293676544.

(** The geometry [validate_geometry] builds; [None] is one of its early
    [return False]. *)
Definition load_geometry (geometry_data : geometry_data) : exn + option (geom E) :=
  match geometry_data with
  | GeomWkt text =>
    match wkt_loads E text with
    | inl e => inl e
    | inr g => inr (Some g)
    end
  | GeomDict d =>
    if decide (g_type d = Some "Polygon") then
      match default [] (g_coordinates d) with
      | [] => inr None
      | exterior :: holes =>
        match Polygon E exterior (match holes with [] => None | _ => Some holes end) with
        | inl e => inl e
        | inr g => inr (Some g)
        end
      end
    else inr None
  | GeomOther => inr None
  end.

Definition validate_geometry (geometry_data : geometry_data) : M bool :=
  try_except
    (loaded <- lift (load_geometry geometry_data) ;;
     match loaded with
     | None => ret false
     | Some g =>
       g' <- (if is_valid E g then ret g else lift (make_valid E g)) ;;
       ret (negb (Qle_bool (area E g') MIN_DEGREE_AREA))
     end)
    (fun e => logger ("几何验证失败: " ++ exn_str e)%string ;;; ret false).

Definition ring_wkt (ring : list point) : string :=
  String.concat "," (map (fun '(lon, lat) => (float_str E lon ++ " " ++ float_str E lat)%string) ring).

Definition convert_geojson_to_wkt (geojson_geometry : geojson) : M string :=
  try_except
    (if decide (g_type geojson_geometry = Some "Polygon") then
       match default [] (g_coordinates geojson_geometry) with
       | [] => raise (ValueError "多边形坐标为空")
       | exterior :: holes =>
         let exterior_wkt := ring_wkt exterior in
         let holes_wkt := map (fun hole => ("(" ++ ring_wkt hole ++ ")")%string) holes in
         match holes_wkt with
         | [] => ret ("POLYGON((" ++ exterior_wkt ++ "))")%string
         | _ => ret ("POLYGON((" ++ exterior_wkt ++ ")," ++ String.concat "," holes_wkt ++ ")")%string
         end
       end
     else raise (ValueError ("不支持的几何类型: " ++ default "None" (g_type geojson_geometry))%string))
    (fun e => logger ("GeoJSON转WKT失败: " ++ exn_str e)%string ;;; raise e).

Definition calculate_fence_bounds (wkt_geometry : string) : M (Q * Q * Q * Q) :=
  try_except
    (g <- lift (wkt_loads E wkt_geometry) ;; ret (bounds E g))
    (fun e => logger ("计算边界框失败: " ++ exn_str e)%string ;;; ret (0%Q, 0%Q, 0%Q, 0%Q)).

Definition calculate_fence_area (wkt_geometry : string) : M Q :=
  try_except
    (g <- lift (wkt_loads E wkt_geometry) ;;
     projected_geom <- lift (transform_to_3857 E g) ;;
     ret (area E projected_geom))
    (fun e => logger ("计算面积失败: " ++ exn_str e)%string ;;; ret 0%Q).


(** *** The statements sent to the store *)

Definition opt_text (o : option string) : sqlval :=
  match o with Some v => SText v | None => SNull end.

Definition opt_int (o : option Z) : sqlval :=
  match o with Some v => SInt v | None => SNull end.

Definition column (c : string) (row : fence_row) : sqlval := default SNull (row !! c).

Definition has_id (fence_id : Z) (row : fence_row) : bool :=
  bool_decide (column "id" row = SInt fence_id).

(** [fence_status = s] and [fence_status != s]; neither holds of NULL. *)
Definition status_eq (s : string) (row : fence_row) : bool :=
  bool_decide (column "fence_status" row = SText s).

Definition status_ne (s : string) (row : fence_row) : bool :=
  match column "fence_status" row with
  | SText t => negb (bool_decide (t = s))
  | _ => false
  end.

Definition apply_set (assignments : list (string * sqlval)) (row : fence_row) : fence_row :=
  fold_left (fun r cv => <[cv.1 := cv.2]> r) assignments row.

Definition set_fences (rows : list fence_row) (d : database) : database :=
  {| electronic_fences := rows; fence_overlaps := fence_overlaps d;
     next_fence_id := next_fence_id d |}.

Definition set_overlaps (rows : list overlap_row) (d : database) : database :=
  {| electronic_fences := electronic_fences d; fence_overlaps := rows;
     next_fence_id := next_fence_id d |}.

(** [UPDATE electronic_fences SET ... WHERE ... RETURNING ...] read with
    [fetchrow]: every matching row is rewritten, the first one is returned. *)
Definition sql_update_fences (where_ : fence_row -> bool)
    (assignments : list (string * sqlval)) : M (option fence_row) :=
  d <- gets db ;;
  let rows := electronic_fences d in
  modify (set_db (set_fences
    (map (fun r => if where_ r then apply_set assignments r else r) rows) d)) ;;;
  ret (head (map (apply_set assignments) (List.filter where_ rows))).

(** Modelled from the spec: the schema of [electronic_fences] is not part
    of the sources; a fence enters the [active] state when it is created and
    its identity is the next value of the key sequence. *)
Definition sql_insert_fence (columns : list (string * sqlval)) : M Z :=
  d <- gets db ;;
  let fence_id := next_fence_id d in
  let row := apply_set columns (<["id" := SInt fence_id]> {["fence_status" := SText "active"]}) in
  modify (set_db {| electronic_fences := electronic_fences d ++ [row];
                    fence_overlaps := fence_overlaps d;
                    next_fence_id := fence_id + 1 |}) ;;;
  ret fence_id.

(** [SELECT fence_name, ... FROM electronic_fences WHERE id = $1]. *)
Definition select_columns (cols : list string) (row : fence_row) : fence_row :=
  list_to_map (omap (fun c => (fun v => (c, v)) <$> row !! c) cols).

Definition sql_select_fence_info (fence_id : Z) : M (option fence_row) :=
  d <- gets db ;;
  ret (select_columns ["fence_name"; "fence_type"; "fence_purpose"; "fence_color"]
         <$> head (List.filter (has_id fence_id) (electronic_fences d))).

(** The conflict target [(fence_id_1, fence_id_2)] of the upsert. *)
Definition same_key (a b : overlap_row) : bool :=
  bool_decide (OverlapRow.fence_id_1 a = OverlapRow.fence_id_1 b)
  && bool_decide (OverlapRow.fence_id_2 a = OverlapRow.fence_id_2 b).

(** [INSERT INTO fence_overlaps ... ON CONFLICT (fence_id_1, fence_id_2)
    DO UPDATE SET ...]: the conflicting row takes every written column and
    the current time. *)
Definition upsert_overlap (new : overlap_row) (rows : list overlap_row) : list overlap_row :=
  if existsb (same_key new) rows
  then map (fun r => if same_key new r then new else r) rows
  else rows ++ [new].

Definition sql_upsert_overlap (fence_id_1 fence_id_2 : Z) (overlap_area p1 p2 : Q)
    (overlap_type : string) : M unit :=
  d <- gets db ;;
  t <- gets now ;;
  modify (set_db (set_overlaps
    (upsert_overlap
       {| OverlapRow.fence_id_1 := fence_id_1; OverlapRow.fence_id_2 := fence_id_2;
          OverlapRow.overlap_area := overlap_area;
          OverlapRow.overlap_percentage_1 := p1; OverlapRow.overlap_percentage_2 := p2;
          OverlapRow.overlap_type := overlap_type; OverlapRow.detected_at := t |}
       (fence_overlaps d)) d)).

(** A fence row after the assignments of the soft delete at instant [t]. *)
Definition soft_deleted (t : Z) (r : fence_row) : fence_row :=
  <["deleted_at" := STime t]> (<["fence_status" := SText "deleted"]> r).

(** The pair of identities of an overlap row, in the order stored. *)
Definition stored_pair (r : overlap_row) : Z * Z :=
  (OverlapRow.fence_id_1 r, OverlapRow.fence_id_2 r).

(** [DELETE FROM fence_overlaps WHERE fence_id_1 = $1 OR fence_id_2 = $1]. *)
Definition mentions (fence_id : Z) (r : overlap_row) : bool :=
  bool_decide (OverlapRow.fence_id_1 r = fence_id)
  || bool_decide (OverlapRow.fence_id_2 r = fence_id).

Definition sql_delete_overlaps_of (fence_id : Z) : M unit :=
  d <- gets db ;;
  modify (set_db (set_overlaps
    (List.filter (fun r => negb (mentions fence_id r)) (fence_overlaps d)) d)).

(** *** Overlap detection and the cache hook *)

Definition with_info (info : option fence_row) (o : detected) : detected :=
  match info with
  | Some i =>
    {| overlapping_fence_id := overlapping_fence_id o; overlap_area := overlap_area o;
       overlap_percentage := overlap_percentage o; overlap_type := overlap_type o;
       overlap_fence_info := Some i |}
  | None => o
  end.

(** The first loop of [detect_fence_overlaps]. *)
Fixpoint collect_overlaps (overlaps : list detected) : M (list detected) :=
  match overlaps with
  | [] => ret []
  | overlap :: rest =>
    overlap_fence <- sql_select_fence_info (overlapping_fence_id overlap) ;;
    tail <- collect_overlaps rest ;;
    ret (with_info overlap_fence overlap :: tail)
  end.

Definition detect_fence_overlaps (fence_id : Z) : M (list detected) :=
  try_except
    (_ <- get_db_connection true ;;
     d <- gets db ;;
     overlaps <- lift (sql_detect_fence_overlaps E d fence_id) ;;
     overlaps_list <- collect_overlaps overlaps ;;
     for_each overlaps_list (fun overlap =>
       sql_upsert_overlap fence_id (overlapping_fence_id overlap) (overlap_area overlap)
         (overlap_percentage overlap) 0%Q (overlap_type overlap)) ;;;
     ret overlaps_list)
    (fun e => logger ("检测围栏重叠失败: " ++ exn_str e)%string ;;; ret []).

Definition clear_fence_cache : M unit :=
  try_except
    (logger "围栏缓存已清理")
    (fun e => logger ("清理围栏缓存失败: " ++ exn_str e)%string).

(** *** Create, update, delete *)

(** [json.dumps(d) if d else None]. *)
Definition dumps_if_any (d : option (list (string * string))) : sqlval :=
  match d with
  | Some (kv :: rest) => SText (json_dumps E (kv :: rest))
  | _ => SNull
  end.

Definition create_fence (fence_name : string) (fence_geometry : geometry_data)
    (fence_type : string) (fence_purpose fence_description : option string)
    (fence_color : string) (fence_opacity : Q) (group_id owner_id creator_id : option Z)
    (fence_tags fence_config : option (list (string * string))) : M result :=
  try_except
    (valid <- validate_geometry fence_geometry ;;
     if negb valid then raise (ValueError "无效的几何数据")
     else
       wkt_geometry <-
         match fence_geometry with
         | GeomDict g => convert_geojson_to_wkt g
         | GeomWkt text => ret text
         | GeomOther => raise (Exception "geometry is neither str nor dict")
         end ;;
       area <- calculate_fence_area wkt_geometry ;;
       _ <- calculate_fence_bounds wkt_geometry ;;
       _ <- get_db_connection false ;;
       lift (ST_GeomFromText E wkt_geometry) ;;;
       fence_id <- sql_insert_fence
         [("fence_name", SText fence_name); ("fence_type", SText fence_type);
          ("fence_geometry", SText wkt_geometry);
          ("fence_purpose", opt_text fence_purpose);
          ("fence_description", opt_text fence_description);
          ("fence_color", SText fence_color); ("fence_opacity", SNum fence_opacity);
          ("group_id", opt_int group_id); ("owner_id", opt_int owner_id);
          ("creator_id", opt_int creator_id);
          ("fence_tags", dumps_if_any fence_tags);
          ("fence_config", dumps_if_any fence_config)] ;;
       overlaps <- detect_fence_overlaps fence_id ;;
       clear_fence_cache ;;;
       ret (Created fence_id fence_name area (negb (Nat.eqb (length overlaps) 0))
              (length overlaps) "围栏创建成功"))
    (fun e => logger ("创建围栏失败: " ++ exn_str e)%string ;;;
              ret (Failure (exn_str e) "围栏创建失败")).

(** One [update_fields.append(...); params.append(...)] step. *)
Definition supplied {A} (o : option A) (c : string) (v : A -> sqlval)
    (update_fields : list (string * sqlval)) : list (string * sqlval) :=
  match o with
  | Some a => update_fields ++ [(c, v a)]
  | None => update_fields
  end.

Definition update_fence (fence_id : Z) (fence_name : option string)
    (fence_geometry : option geometry_data)
    (fence_purpose fence_description fence_color : option string)
    (fence_opacity : option Q)
    (fence_tags fence_config : option (list (string * string)))
    (operator_id : option Z) : M result :=
  try_except
    (_ <- get_db_connection false ;;
     let update_fields := supplied fence_name "fence_name" SText [] in
     wkt_geometry <-
       match fence_geometry with
       | Some g =>
         valid <- validate_geometry g ;;
         if negb valid then raise (ValueError "无效的几何数据")
         else
           match g with
           | GeomDict d => w <- convert_geojson_to_wkt d ;; ret (Some w)
           | GeomWkt text => ret (Some text)
           | GeomOther => raise (Exception "geometry is neither str nor dict")
           end
       | None => ret None
       end ;;
     let update_fields := supplied wkt_geometry "fence_geometry" SText update_fields in
     let update_fields := supplied fence_purpose "fence_purpose" SText update_fields in
     let update_fields := supplied fence_description "fence_description" SText update_fields in
     let update_fields := supplied fence_color "fence_color" SText update_fields in
     let update_fields := supplied fence_opacity "fence_opacity" SNum update_fields in
     let update_fields :=
       supplied fence_tags "fence_tags" (fun d => SText (json_dumps E d)) update_fields in
     let update_fields :=
       supplied fence_config "fence_config" (fun d => SText (json_dumps E d)) update_fields in
     match update_fields with
     | [] => raise (ValueError "没有提供要更新的字段")
     | _ =>
       t <- gets now ;;
       let update_fields := (update_fields ++ [("updated_at", STime t)])%list in
       match wkt_geometry with
       | Some w => lift (ST_GeomFromText E w)
       | None => ret tt
       end ;;;
       updated <- sql_update_fences
         (fun r => has_id fence_id r && status_eq "active" r) update_fields ;;
       match updated with
       | None => raise (ValueError "围栏不存在或已被删除")
       | Some row =>
         overlaps <-
           match fence_geometry with
           | Some _ => detect_fence_overlaps fence_id
           | None => ret []
           end ;;
         clear_fence_cache ;;;
         ret (Updated fence_id (column "fence_name" row) (column "fence_area" row)
                (negb (Nat.eqb (length overlaps) 0)) (length overlaps) "围栏更新成功")
       end
     end)
    (fun e => logger ("更新围栏失败: " ++ exn_str e)%string ;;;
              ret (Failure (exn_str e) "围栏更新失败")).

Definition delete_fence (fence_id : Z) (operator_id : option Z) : M result :=
  try_except
    (_ <- get_db_connection false ;;
     t <- gets now ;;
     deleted <- sql_update_fences
       (fun r => has_id fence_id r && status_ne "deleted" r)
       [("fence_status", SText "deleted"); ("deleted_at", STime t)] ;;
     match deleted with
     | None => raise (ValueError "围栏不存在或已被删除")
     | Some row =>
       sql_delete_overlaps_of fence_id ;;;
       clear_fence_cache ;;;
       ret (Deleted fence_id (column "fence_name" row) "围栏删除成功")
     end)
    (fun e => logger ("删除围栏失败: " ++ exn_str e)%string ;;;
              ret (Failure (exn_str e) "围栏删除失败")).

(** *** Merge and split *)

(** The stored procedures run inside the store and may rewrite it. *)
Definition call_store {A} (f : database -> (exn + A) * database) : M A :=
  fun w => let '(r, d) := f (db w) in (r, set_db d w).

Definition merge_fences (fence_ids : list Z) (new_fence_name : string)
    (operator_id : option Z) : M result :=
  try_except
    (if Nat.ltb (length fence_ids) 2 then raise (ValueError "至少需要2个围栏进行合并")
     else
       _ <- get_db_connection false ;;
       new_fence_id <- call_store (fun d => sql_merge_fences E d fence_ids new_fence_name operator_id) ;;
       match new_fence_id with
       | Some new_id =>
         if bool_decide (new_id = 0) then raise (ValueError "围栏合并失败")
         else
           overlaps <- detect_fence_overlaps new_id ;;
           clear_fence_cache ;;;
           ret (Merged new_id fence_ids (negb (Nat.eqb (length overlaps) 0))
                  (length overlaps) "围栏合并成功")
       | None => raise (ValueError "围栏合并失败")
       end)
    (fun e => logger ("合并围栏失败: " ++ exn_str e)%string ;;;
              ret (Failure (exn_str e) "围栏合并失败")).

(** The loop of [split_fence] over the new identities. *)
Fixpoint detect_each (new_fence_ids : list Z) (overlaps_total : nat) : M nat :=
  match new_fence_ids with
  | [] => ret overlaps_total
  | new_fence_id :: rest =>
    overlaps <- detect_fence_overlaps new_fence_id ;;
    detect_each rest (overlaps_total + length overlaps)%nat
  end.

Definition split_fence (fence_id : Z) (split_line : split_line_data)
    (operator_id : option Z) : M result :=
  try_except
    (split_line_wkt <-
       match split_line with
       | LineDict l_type l_coordinates =>
         if negb (bool_decide (l_type = Some "LineString"))
         then raise (ValueError "分割线必须是LineString类型")
         else
           let coords := default [] l_coordinates in
           if Nat.ltb (length coords) 2 then raise (ValueError "分割线坐标点不足")
           else ret ("LINESTRING(" ++ ring_wkt coords ++ ")")%string
       | LineWkt text => ret text
       end ;;
     _ <- get_db_connection false ;;
     lift (ST_GeomFromText E split_line_wkt) ;;;
     new_fence_ids <- call_store (fun d => sql_split_fence E d fence_id split_line_wkt operator_id) ;;
     match new_fence_ids with
     | Some (first :: others) =>
       let ids := first :: others in
       overlaps_total <- detect_each ids 0%nat ;;
       clear_fence_cache ;;;
       ret (Split fence_id ids (length ids) (negb (Nat.eqb overlaps_total 0))
              overlaps_total "围栏切割成功")
     | _ => raise (ValueError "围栏切割失败")
     end)
    (fun e => logger ("切割围栏失败: " ++ exn_str e)%string ;;;
              ret (Failure (exn_str e) "围栏切割失败")).

(** *** Import of a FeatureCollection *)

(** The [properties] member of a feature: missing, [null], or an object
    with the keys the import reads. *)
Record properties : Type := {
  p_fence_name : option string;
  p_fence_type : option string;
  p_fence_purpose : option string;
  p_fence_description : option string;
  p_fence_color : option string;
  p_fence_opacity : option Q;
  p_fence_tags : option (list (string * string));
  p_fence_config : option (list (string * string))
}.

Inductive properties_member : Type :=
| PropsMissing
| PropsNull
| Props (p : properties).

(** An element of [features]: a JSON object, or any other JSON value. *)
Inductive feature : Type :=
| FeatureObject (f_type : option string) (geometry : option geometry_data)
    (props : properties_member)
| FeatureOther.

Record feature_collection : Type := {
  fc_type : option string;
  features : option (list feature)
}.

(** [not geometry] for a geometry that is present. *)
Definition falsy (g : geometry_data) : bool :=
  match g with
  | GeomWkt text => bool_decide (text = "")
  | GeomDict d => bool_decide (g_type d = None) && bool_decide (g_coordinates d = None)
  | GeomOther => false
  end.

Definition no_properties : properties :=
  {| p_fence_name := None; p_fence_type := None; p_fence_purpose := None;
     p_fence_description := None; p_fence_color := None; p_fence_opacity := None;
     p_fence_tags := None; p_fence_config := None |}.

(** The counters and the result list of the import loop. *)
Record tally : Type := {
  imported_count : nat;
  skipped_count : nat;
  error_count : nat;
  results : list result
}.

Definition skipped (c : tally) : tally :=
  {| imported_count := imported_count c; skipped_count := S (skipped_count c);
     error_count := error_count c; results := results c |}.

Definition errored (c : tally) : tally :=
  {| imported_count := imported_count c; skipped_count := skipped_count c;
     error_count := S (error_count c); results := results c |}.

Definition recorded (r : result) (c : tally) : tally :=
  {| imported_count := if success r then S (imported_count c) else imported_count c;
     skipped_count := skipped_count c;
     error_count := if success r then error_count c else S (error_count c);
     results := results c ++ [r] |}.

(** The body of the loop for one feature, with its own handler. *)
Definition import_feature (operator_id : option Z) (c : tally) (f : feature) : M tally :=
  try_except
    (match f with
     | FeatureOther => raise (Exception "AttributeError: object has no attribute 'get'")
     | FeatureObject f_type geometry props =>
       if negb (bool_decide (f_type = Some "Feature")) then ret (skipped c)
       else
         match geometry with
         | Some g =>
           valid <- (if falsy g then ret false else validate_geometry g) ;;
           if negb valid then ret (errored c)
           else
             match (match props with
                    | PropsMissing => Some no_properties
                    | Props p => Some p
                    | PropsNull => None
                    end) with
             | None => raise (Exception "AttributeError: 'NoneType' object has no attribute 'get'")
             | Some p =>
               result <- create_fence
                 (default ("导入围栏_" ++ str_of_int (Z.of_nat (imported_count c) + 1))%string
                    (p_fence_name p))
                 g
                 (default "polygon" (p_fence_type p))
                 (p_fence_purpose p) (p_fence_description p)
                 (default "#FF0000" (p_fence_color p))
                 (default (3 # 10)%Q (p_fence_opacity p))
                 None None operator_id
                 (p_fence_tags p) (p_fence_config p) ;;
               ret (recorded result c)
             end
         | None => ret (errored c)
         end
     end)
    (fun e => logger ("导入围栏特征失败: " ++ exn_str e)%string ;;; ret (errored c)).

Fixpoint import_loop (operator_id : option Z) (fs : list feature) (c : tally) : M tally :=
  match fs with
  | [] => ret c
  | f :: rest =>
    c' <- import_feature operator_id c f ;;
    import_loop operator_id rest c'
  end.

Definition import_fences_geojson (geojson_data : feature_collection)
    (operator_id : option Z) : M result :=
  try_except
    (if negb (bool_decide (fc_type geojson_data = Some "FeatureCollection"))
     then raise (ValueError "不是有效的GeoJSON FeatureCollection")
     else
       match default [] (features geojson_data) with
       | [] => raise (ValueError "没有找到要导入的围栏特征")
       | f :: rest =>
         let fs := f :: rest in
         c <- import_loop operator_id fs
                {| imported_count := 0; skipped_count := 0; error_count := 0; results := [] |} ;;
         ret (Imported (imported_count c) (skipped_count c) (error_count c) (length fs)
                (results c)
                ("导入完成：成功" ++ str_of_int (Z.of_nat (imported_count c))
                 ++ "个，跳过" ++ str_of_int (Z.of_nat (skipped_count c))
                 ++ "个，错误" ++ str_of_int (Z.of_nat (error_count c)) ++ "个")%string)
       end)
    (fun e => logger ("导入围栏失败: " ++ exn_str e)%string ;;;
              ret (Failure (exn_str e) "围栏导入失败")).

End WithCollaborators.

(** The same collaborators with another detection procedure in the store. *)
Definition with_detect (E : collaborators)
    (detect : database -> Z -> exn + list detected) : collaborators :=
  {| geom := geom E;
     wkt_loads := wkt_loads E;
     Polygon := Polygon E;
     is_valid := is_valid E;
     make_valid := make_valid E;
     area := area E;
     bounds := bounds E;
     transform_to_3857 := transform_to_3857 E;
     float_str := float_str E;
     json_dumps := json_dumps E;
     ST_GeomFromText := ST_GeomFromText E;
     sql_detect_fence_overlaps := detect;
     sql_merge_fences := sql_merge_fences E;
     sql_split_fence := sql_split_fence E |}.

End Fence.

(** ** The zoom policy as the specification words it *)

Module ZoomSpec.

Import Zoom.

(** "The greatest configured threshold not exceeding zoom", with its limit. *)
Definition greatest_threshold_le (limits : list (Z * Z)) (zoom t limit : Z) : Prop :=
  (t, limit) ∈ limits ∧ t ≤ zoom ∧
  ∀ t' l', (t', l') ∈ limits → t' ≤ zoom → t' ≤ t.

(** "The smallest threshold", with its limit. *)
Definition smallest_threshold (limits : list (Z * Z)) (t limit : Z) : Prop :=
  (t, limit) ∈ limits ∧ ∀ t' l', (t', l') ∈ limits → t ≤ t'.

(** "The maximum configured limit for that layer". *)
Definition maximum_limit (limits : list (Z * Z)) (m : Z) : Prop :=
  (∃ t, (t, m) ∈ limits) ∧ ∀ t l, (t, l) ∈ limits → l ≤ m.

(** "100m below z10, 20m below z12, 5m below z15, else 1m". *)
Definition step_tolerance (zoom : Z) : Z :=
  if decide (zoom < 10) then 100
  else if decide (zoom < 12) then 20
  else if decide (zoom < 15) then 5
  else 1.

(** "max(300, 600 - 15*zoom) seconds". *)
Definition ttl (zoom : Z) : Z := Z.max 300 (600 - 15 * zoom).

(** Steps 1 to 5 of [resolve(layer, zoom)]. *)
Inductive prescribed (layer : string) (zoom : Z) (p : policy) : Prop :=
| step_not_configured :
    LAYER_ZOOM_STRATEGIES !! layer = None →
    p = refuse "layer_not_configured" →
    prescribed layer zoom p
| step_always_load s t limit :
    LAYER_ZOOM_STRATEGIES !! layer = Some s →
    truthy (always_load s) = true →
    (greatest_threshold_le (limits s) zoom t limit ∨
     ((∀ t' l', (t', l') ∈ limits s → zoom < t') ∧ smallest_threshold (limits s) t limit)) →
    load_data p = true →
    max_features p = Some limit →
    simplify_tolerance p = Some 0 →
    cache_ttl p = Some (ttl zoom) →
    prescribed layer zoom p
| step_zoom_too_low s :
    LAYER_ZOOM_STRATEGIES !! layer = Some s →
    truthy (always_load s) = false →
    zoom < min_zoom s →
    p = refuse "zoom_too_low" →
    prescribed layer zoom p
| step_high_zoom s m :
    LAYER_ZOOM_STRATEGIES !! layer = Some s →
    truthy (always_load s) = false →
    min_zoom s ≤ zoom →
    16 ≤ zoom →
    maximum_limit (limits s) m →
    load_data p = true →
    max_features p = Some m →
    simplify_tolerance p = Some 0 →
    prescribed layer zoom p
| step_threshold s t limit :
    LAYER_ZOOM_STRATEGIES !! layer = Some s →
    truthy (always_load s) = false →
    min_zoom s ≤ zoom →
    zoom < 16 →
    greatest_threshold_le (limits s) zoom t limit →
    load_data p = true →
    max_features p = Some limit →
    simplify_tolerance p = Some (step_tolerance zoom) →
    cache_ttl p = Some (ttl zoom) →
    prescribed layer zoom p.

(** The feature limit of the policy resolved for a layer at a zoom. *)
Definition limit_at (layer : string) (zoom : Z) : option Z :=
  match get_layer_zoom_strategy layer zoom with
  | inr p => max_features p
  | inl _ => None
  end.

(** Zoom monotonicity of one layer, as the specification states it. *)
Definition zoom_monotone (layer : string) : Prop :=
  ∀ s zoom1 zoom2 l1 l2,
    LAYER_ZOOM_STRATEGIES !! layer = Some s →
    truthy (always_load s) = false →
    min_zoom s ≤ zoom1 → zoom1 < zoom2 →
    limit_at layer zoom1 = Some l1 →
    limit_at layer zoom2 = Some l2 →
    l1 ≤ l2.

(** What the configured table must satisfy for the resolver never to raise
    and never to answer [no_suitable_zoom] at or above [min_zoom]. *)
Definition well_formed (s : layer_strategy) : bool :=
  negb (bool_decide (limits s = []))
  && (truthy (always_load s)
      || existsb (fun t => t <=? min_zoom s) (keys (limits s))).

(** Limits that do not decrease with the threshold, among the thresholds
    up to [bound]. *)
Definition monotone_upto (bound : Z) (lim : list (Z * Z)) : bool :=
  forallb (fun a => forallb (fun b =>
    implb ((a.1 <=? b.1) && (b.1 <=? bound)) (a.2 <=? b.2)) lim) lim.

(** The pairs of zooms between which the table lowers the limit of
    [land_polygons]: from 8000 at zooms 10 and 11 to 6000 at zooms 12 and 13,
    and from 5000, 8000 or 6000 at zooms 8 to 13 to 3000 at zooms 14 and 15. *)
Definition land_polygons_lowers (zoom1 zoom2 : Z) : Prop :=
  (10 ≤ zoom1 ≤ 11 ∧ 12 ≤ zoom2 ≤ 13) ∨ (8 ≤ zoom1 ≤ 13 ∧ 14 ≤ zoom2 ≤ 15).

End ZoomSpec.

(** ** zoom_strategy_config.py: the helpers around the table *)

Module ZoomConfig.

Import Zoom.

(** [get_layer_info]: the entry, or the empty dictionary. *)
Definition get_layer_info (layer_name : string) : option layer_strategy :=
  LAYER_ZOOM_STRATEGIES !! layer_name.

Definition validate_zoom_strategy (layer_name : string) (zoom : Z) : bool :=
  match LAYER_ZOOM_STRATEGIES !! layer_name with
  | None => false
  | Some strategy => (min_zoom strategy <=? zoom) && (zoom <=? max_zoom strategy)
  end.

Definition get_recommended_zoom_for_layer (layer_name : string) : Z :=
  match LAYER_ZOOM_STRATEGIES !! layer_name with
  | None => 10
  | Some strategy => min_zoom strategy
  end.

(** [get_all_layers_zoom_strategy] of config.py: one entry per configured
    layer; an exception of the resolver would escape. *)
Definition get_all_layers_zoom_strategy (zoom : Z) : exn + gmap string policy :=
  foldr (λ entry acc,
           match acc with
           | inl e => inl e
           | inr result =>
             match get_layer_zoom_strategy entry.1 zoom with
             | inl e => inl e
             | inr p => inr (<[entry.1 := p]> result)
             end
           end)
        (inr ∅) (map_to_list LAYER_ZOOM_STRATEGIES).

End ZoomConfig.

(** ** services.py: the three hard-coded zoom strategies *)

Module Legacy.

(** The dictionary the three functions return; [attributes] and
    [road_filter] are keys of one function each. *)
Record strategy : Type := {
  load_data : bool;
  reason : string;
  max_features : Z;
  simplify_tolerance : Z;
  cache_ttl : Z;
  attributes : option (list string);
  road_filter : option string
}.

Definition overview_attributes : list string :=
  ["id"; "osm_id"; "name"; "fclass"; "type"; "geometry_type"; "source_table"].

Definition detailed_attributes : list string :=
  ["id"; "osm_id"; "name"; "fclass"; "type"; "code"; "geometry_type"; "source_table"].

(** [zoom is None or zoom < k]. *)
Definition none_or_below (zoom : option Z) (k : Z) : bool :=
  match zoom with
  | None => true
  | Some z => z <? k
  end.

(** The comparisons after the first test, where [zoom] is a number. *)
Definition below (zoom : option Z) (k : Z) : bool :=
  match zoom with
  | None => false
  | Some z => z <? k
  end.

Definition get_zoom_strategy (zoom : option Z) : strategy :=
  if none_or_below zoom 6 then
    {| load_data := false; reason := "zoom_too_low"; max_features := 0;
       simplify_tolerance := 0; cache_ttl := 7200; attributes := Some [];
       road_filter := None |}
  else if below zoom 10 then
    {| load_data := true; reason := "overview_data"; max_features := 5000;
       simplify_tolerance := 100; cache_ttl := 3600;
       attributes := Some overview_attributes; road_filter := None |}
  else if below zoom 12 then
    {| load_data := true; reason := "simplified_data"; max_features := 15000;
       simplify_tolerance := 20; cache_ttl := 1800;
       attributes := Some overview_attributes; road_filter := None |}
  else if below zoom 15 then
    {| load_data := true; reason := "detailed_data"; max_features := 30000;
       simplify_tolerance := 5; cache_ttl := 900;
       attributes := Some detailed_attributes; road_filter := None |}
  else
    {| load_data := true; reason := "full_precision"; max_features := 50000;
       simplify_tolerance := 1; cache_ttl := 300;
       attributes := Some detailed_attributes; road_filter := None |}.

Definition get_land_polygon_zoom_strategy (zoom : option Z) : strategy :=
  if none_or_below zoom 4 then
    {| load_data := false; reason := "zoom_too_low"; max_features := 0;
       simplify_tolerance := 0; cache_ttl := 7200; attributes := None;
       road_filter := None |}
  else if below zoom 8 then
    {| load_data := true; reason := "extremely_simplified"; max_features := 2000;
       simplify_tolerance := 2000; cache_ttl := 7200; attributes := None;
       road_filter := None |}
  else if below zoom 10 then
    {| load_data := true; reason := "highly_simplified"; max_features := 5000;
       simplify_tolerance := 1000; cache_ttl := 3600; attributes := None;
       road_filter := None |}
  else if below zoom 12 then
    {| load_data := true; reason := "moderately_simplified"; max_features := 8000;
       simplify_tolerance := 200; cache_ttl := 1800; attributes := None;
       road_filter := None |}
  else if below zoom 14 then
    {| load_data := true; reason := "lightly_simplified"; max_features := 6000;
       simplify_tolerance := 50; cache_ttl := 900; attributes := None;
       road_filter := None |}
  else
    {| load_data := true; reason := "high_precision"; max_features := 3000;
       simplify_tolerance := 10; cache_ttl := 300; attributes := None;
       road_filter := None |}.

Definition get_roads_zoom_strategy (zoom : option Z) : strategy :=
  if none_or_below zoom 9 then
    {| load_data := false; reason := "zoom_too_low"; max_features := 0;
       simplify_tolerance := 0; cache_ttl := 7200; attributes := None;
       road_filter := None |}
  else if below zoom 11 then
    {| load_data := true; reason := "major_roads_only"; max_features := 5000;
       simplify_tolerance := 100; cache_ttl := 3600; attributes := None;
       road_filter := Some "fclass IN ('primary', 'trunk', 'motorway', 'motorway_link', 'trunk_link', 'primary_link')" |}
  else if below zoom 13 then
    {| load_data := true; reason := "major_and_secondary_roads"; max_features := 10000;
       simplify_tolerance := 50; cache_ttl := 1800; attributes := None;
       road_filter := Some "fclass IN ('primary', 'trunk', 'motorway', 'motorway_link', 'trunk_link', 'primary_link', 'secondary', 'secondary_link')" |}
  else if below zoom 15 then
    {| load_data := true; reason := "all_major_roads"; max_features := 20000;
       simplify_tolerance := 20; cache_ttl := 900; attributes := None;
       road_filter := Some "fclass NOT IN ('track', 'path', 'footway', 'cycleway', 'bridleway', 'steps')" |}
  else
    {| load_data := true; reason := "all_roads"; max_features := 30000;
       simplify_tolerance := 10; cache_ttl := 300; attributes := None;
       road_filter := Some "1=1" |}.

End Legacy.

(** ** config.py: the sizes of the connection pools *)

Module PoolSizes.

(** The settings read from the environment when the module is loaded:
    [MAX_TOTAL_CONNECTIONS], [CONNECTION_SAFETY_MARGIN], [ASYNC_DB_MAX_SIZE],
    [READ_DB_MAX_SIZE] and the text of [DB_READ_REPLICAS]. *)
Record settings : Type := {
  MAX_TOTAL_CONNECTIONS : Z;
  CONNECTION_SAFETY_MARGIN : Z;
  ASYNC_DB_MAX_SIZE : Z;
  READ_DB_MAX_SIZE : Z;
  DB_READ_REPLICAS : string
}.

(** The settings when no variable is set. *)
Definition defaults : settings :=
  {| MAX_TOTAL_CONNECTIONS := 50; CONNECTION_SAFETY_MARGIN := 10;
     ASYNC_DB_MAX_SIZE := 10; READ_DB_MAX_SIZE := 8;
     DB_READ_REPLICAS := "localhost:5432" |}.

(** [len(text.split(','))]. *)
Fixpoint split_count (text : string) : Z :=
  match text with
  | EmptyString => 1
  | String c rest =>
    if Ascii.eqb c "," then 1 + split_count rest else split_count rest
  end.

Record sizes : Type := {
  write_pool_size : Z;
  read_pool_size : Z;
  min_pool_size : Z
}.

Definition replica_count (env : settings) : Z :=
  if bool_decide (DB_READ_REPLICAS env = "") then 1
  else split_count (DB_READ_REPLICAS env).

Definition calculate_connection_pool_sizes (env : settings) : sizes :=
  let available_connections := MAX_TOTAL_CONNECTIONS env - CONNECTION_SAFETY_MARGIN env in
  let write_pool_size := Z.min (ASYNC_DB_MAX_SIZE env) (available_connections / 2) in
  let replica_count := replica_count env in
  let read_pool_size :=
    Z.min (READ_DB_MAX_SIZE env)
          ((available_connections - write_pool_size) / Z.max 1 replica_count) in
  {| write_pool_size := Z.max 2 write_pool_size;
     read_pool_size := Z.max 2 read_pool_size;
     min_pool_size := 2 |}.

End PoolSizes.

(** ** fence_services.py: export *)

Module FenceExport.

Import Services Fence.

(** What the export calls and does not define: [json.loads], the PostGIS
    function [ST_AsGeoJSON] and [datetime.isoformat]. *)
Record readers : Type := {
  json : Type;
  json_loads : string -> exn + json;
  ST_AsGeoJSON : string -> string;
  isoformat : Z -> string
}.

(** Truthiness of a column value read into Python. *)
Definition truthy (v : sqlval) : bool :=
  match v with
  | SNull => false
  | SInt n => negb (n =? 0)
  | SText s => negb (String.eqb s "")
  | SNum q => negb (Qeq_bool q 0)
  | STime _ => true
  end.

Section WithReaders.

Context (R : readers).

(** A value of the [properties] dictionary of a feature. *)
Inductive value : Type :=
| Column (v : sqlval)
| Text (s : string)
| PyNone
| Parsed (j : json R).

Record exported_feature : Type := {
  f_properties : list (string * value);
  f_geometry : json R
}.

(** The dictionaries [export_fences_geojson] returns; the two counts are the
    [fence_count] of the metadata and of the result. *)
Inductive export_result : Type :=
| ExportFailure (error : string) (message : string)
| Exported (features : list exported_feature) (generated_at : string)
    (metadata_fence_count fence_count : nat) (message : string).

(** [id = ANY($1)]. *)
Definition any_of (fence_ids : list Z) (row : fence_row) : bool :=
  existsb (fun fence_id => has_id fence_id row) fence_ids.

(** The condition of the query: [fence_status = 'active'], and
    [id = ANY($1)] when [fence_ids] is a list that is not empty. *)
Definition exported (fence_ids : option (list Z)) (row : fence_row) : bool :=
  status_eq "active" row
  && match fence_ids with
     | Some (fence_id :: rest) => any_of (fence_id :: rest) row
     | _ => true
     end.

(** [ORDER BY id]; [id] is the integer key of the table. *)
Definition id_key (row : fence_row) : Z :=
  match column "id" row with
  | SInt n => n
  | _ => 0
  end.

Fixpoint insert_by_id (row : fence_row) (rows : list fence_row) : list fence_row :=
  match rows with
  | [] => [row]
  | r :: rest =>
    if id_key row <=? id_key r then row :: r :: rest else r :: insert_by_id row rest
  end.

Definition order_by_id (rows : list fence_row) : list fence_row :=
  fold_right insert_by_id [] rows.

Definition sql_select_for_export (fence_ids : option (list Z)) : M (list fence_row) :=
  d <- gets db ;;
  ret (order_by_id (List.filter (exported fence_ids) (electronic_fences d))).

(** [ST_AsGeoJSON(fence_geometry) as geometry]: NULL of NULL. *)
Definition geometry_column (row : fence_row) : sqlval :=
  match column "fence_geometry" row with
  | SText g => SText (ST_AsGeoJSON R g)
  | _ => SNull
  end.

(** [type(v).__name__] of a column value read into Python. *)
Definition class_name (v : sqlval) : string :=
  match v with
  | SNull => "NoneType"
  | SInt _ => "int"
  | SText _ => "str"
  | SNum _ => "float"
  | STime _ => "datetime"
  end.

(** [json.loads(v)] of a column value; a [TypeError] on what is not text. *)
Definition loads (v : sqlval) : exn + json R :=
  match v with
  | SText s => json_loads R s
  | _ => inl (Exception ("the JSON object must be str, bytes or bytearray, not "
                         ++ class_name v))
  end.

(** [v.isoformat() if v else None]; an [AttributeError] on what is no
    datetime. *)
Definition timestamp (v : sqlval) : exn + value :=
  if truthy v then
    match v with
    | STime t => inr (Text (isoformat R t))
    | _ => inl (Exception ("'" ++ class_name v
                           ++ "' object has no attribute 'isoformat'"))
    end
  else inr PyNone.

(** [if fence[c]: properties[c] = json.loads(fence[c])]. *)
Definition parsed_if_any (c : string) (fence : fence_row)
    (properties : list (string * value)) : exn + list (string * value) :=
  if truthy (column c fence) then
    match loads (column c fence) with
    | inl e => inl e
    | inr j => inr (properties ++ [(c, Parsed j)])%list
    end
  else inr properties.

(** The body of the loop over the fetched rows. *)
Definition export_feature (include_properties : bool) (fence : fence_row)
    : exn + exported_feature :=
  let properties :=
    [("id", Column (column "id" fence));
     ("fence_name", Column (column "fence_name" fence));
     ("fence_type", Column (column "fence_type" fence));
     ("fence_status", Column (column "fence_status" fence))] in
  match
    (if include_properties then
       match timestamp (column "created_at" fence) with
       | inl e => inl e
       | inr created_at =>
         match timestamp (column "updated_at" fence) with
         | inl e => inl e
         | inr updated_at =>
           let properties :=
             (properties ++
             [("fence_purpose", Column (column "fence_purpose" fence));
              ("fence_level", Column (column "fence_level" fence));
              ("fence_color", Column (column "fence_color" fence));
              ("fence_opacity", Column (column "fence_opacity" fence));
              ("fence_description", Column (column "fence_description" fence));
              ("fence_area", Column (column "fence_area" fence));
              ("fence_perimeter", Column (column "fence_perimeter" fence));
              ("group_id", Column (column "group_id" fence));
              ("owner_id", Column (column "owner_id" fence));
              ("creator_id", Column (column "creator_id" fence));
              ("created_at", created_at);
              ("updated_at", updated_at)])%list in
           match parsed_if_any "fence_tags" fence properties with
           | inl e => inl e
           | inr properties => parsed_if_any "fence_config" fence properties
           end
         end
       end
     else inr properties)
  with
  | inl e => inl e
  | inr properties =>
    match loads (geometry_column fence) with
    | inl e => inl e
    | inr geometry => inr {| f_properties := properties; f_geometry := geometry |}
    end
  end.

Fixpoint export_features (include_properties : bool) (fences : list fence_row)
    : exn + list exported_feature :=
  match fences with
  | [] => inr []
  | fence :: rest =>
    match export_feature include_properties fence with
    | inl e => inl e
    | inr feature =>
      match export_features include_properties rest with
      | inl e => inl e
      | inr features => inr (feature :: features)
      end
    end
  end.

Definition export_fences_geojson (fence_ids : option (list Z))
    (include_properties : bool) : M export_result :=
  try_except
    (_ <- get_db_connection true ;;
     fences <- sql_select_for_export fence_ids ;;
     features <- lift (export_features include_properties fences) ;;
     t <- gets now ;;
     ret (Exported features (isoformat R t) (length features) (length features)
            "围栏导出成功"))
    (fun e => logger ("导出围栏失败: " ++ exn_str e)%string ;;;
              ret (ExportFailure (exn_str e) "围栏导出失败")).

(** [feature['properties']['id']]. *)
Definition feature_id (f : exported_feature) : option value :=
  snd <$> head (List.filter (fun kv => String.eqb kv.1 "id") (f_properties f)).

End WithReaders.

End FenceExport.

(** ** fence_services.py: the list of fences *)

Module FenceList.

Import Services Fence FenceExport.

(** What the listing calls and does not define, besides the readers of the
    export: [float] on a string, and the PostGIS test
    [geometry && ST_MakeEnvelope(west, south, east, north, 4326)]. *)
Record locators : Type := {
  pyfloat : Type;
  float_of : string -> exn + pyfloat;
  intersects_envelope : string -> pyfloat -> pyfloat -> pyfloat -> pyfloat -> bool
}.

(** [text.split(sep)] for a separator of one character. *)
Fixpoint split_on (sep : ascii) (text : string) : list string :=
  match text with
  | EmptyString => [EmptyString]
  | String c rest =>
    if Ascii.eqb c sep then EmptyString :: split_on sep rest
    else
      match split_on sep rest with
      | [] => [String c EmptyString]
      | part :: parts => String c part :: parts
      end
  end.

(** The arguments of [get_fence_list]. *)
Record request : Type := {
  status : option string;
  fence_type : option string;
  group_id : option Z;
  owner_id : option Z;
  bbox : option string;
  limit : Z;
  offset : Z
}.

(** [if s:] for an optional string and [if n:] for an optional integer. *)
Definition given_text (o : option string) : option string :=
  match o with
  | Some s => if String.eqb s "" then None else Some s
  | None => None
  end.

Definition given_int (o : option Z) : option Z :=
  match o with
  | Some n => if n =? 0 then None else Some n
  | None => None
  end.

Section WithReaders.

Context (R : readers) (L : locators).

(** The envelope read from [bbox]: nothing unless it is given and has four
    parts, and a [ValueError] when a part is not a number. *)
Definition envelope (q : request)
    : exn + option (pyfloat L * pyfloat L * pyfloat L * pyfloat L) :=
  match given_text (bbox q) with
  | Some text =>
    match split_on "," text with
    | [west; south; east; north] =>
      match float_of L west with
      | inl e => inl e
      | inr west =>
        match float_of L south with
        | inl e => inl e
        | inr south =>
          match float_of L east with
          | inl e => inl e
          | inr east =>
            match float_of L north with
            | inl e => inl e
            | inr north => inr (Some (west, south, east, north))
            end
          end
        end
      end
    | _ => inr None
    end
  | None => inr None
  end.

(** [where_clause]: the conditions joined by [AND]; a comparison with NULL
    holds of no row. *)
Definition listed (q : request)
    (box : option (pyfloat L * pyfloat L * pyfloat L * pyfloat L)) (row : fence_row) : bool :=
  match given_text (status q) with
  | Some s => status_eq s row
  | None => status_ne "deleted" row
  end
  && match given_text (fence_type q) with
     | Some t => bool_decide (column "fence_type" row = SText t)
     | None => true
     end
  && match given_int (group_id q) with
     | Some n => bool_decide (column "group_id" row = SInt n)
     | None => true
     end
  && match given_int (owner_id q) with
     | Some n => bool_decide (column "owner_id" row = SInt n)
     | None => true
     end
  && match box with
     | Some (west, south, east, north) =>
       match column "fence_geometry" row with
       | SText g => intersects_envelope L g west south east north
       | _ => false
       end
     | None => true
     end.

(** [ORDER BY created_at DESC]: NULL first, then the latest first. *)
Definition created_key (row : fence_row) : option Z :=
  match column "created_at" row with
  | STime t => Some t
  | _ => None
  end.

Definition not_after (a b : fence_row) : bool :=
  match created_key a, created_key b with
  | None, _ => true
  | Some _, None => false
  | Some x, Some y => y <=? x
  end.

Fixpoint insert_by_created (row : fence_row) (rows : list fence_row) : list fence_row :=
  match rows with
  | [] => [row]
  | r :: rest =>
    if not_after row r then row :: r :: rest else r :: insert_by_created row rest
  end.

Definition order_by_created_desc (rows : list fence_row) : list fence_row :=
  fold_right insert_by_created [] rows.

(** The two queries.  The store refuses a negative [LIMIT] or [OFFSET]. *)
Definition sql_select_list (where_ : fence_row -> bool) (limit offset : Z)
    : M (list fence_row) :=
  if (limit <? 0) || (offset <? 0)
  then raise (Exception "LIMIT and OFFSET must not be negative")
  else
    d <- gets db ;;
    ret (take (Z.to_nat limit)
           (drop (Z.to_nat offset)
              (order_by_created_desc (List.filter where_ (electronic_fences d))))).

Definition sql_count_list (where_ : fence_row -> bool) : M nat :=
  d <- gets db ;;
  ret (length (List.filter where_ (electronic_fences d))).

(** The columns selected as they are. *)
Definition plain_columns : list string :=
  ["id"; "fence_name"; "fence_type"; "fence_purpose"; "fence_status"; "fence_level";
   "fence_color"; "fence_opacity"; "fence_area"; "fence_perimeter";
   "group_id"; "owner_id"; "creator_id"; "created_at"; "updated_at"].

(** [ST_AsGeoJSON(c)]: NULL of NULL. *)
Definition as_geojson (v : sqlval) : sqlval :=
  match v with
  | SText g => SText (ST_AsGeoJSON R g)
  | _ => SNull
  end.

(** [if fence_dict.get(c): fence_dict[c] = json.loads(fence_dict[c])]. *)
Definition parsed_column (c : string) (v : sqlval) : exn + (string * value R) :=
  if truthy v then
    match loads R v with
    | inl e => inl e
    | inr j => inr (c, Parsed R j)
    end
  else inr (c, Column R v).

(** The body of the loop over the fetched rows: the dictionary of a fence. *)
Definition fence_dict (fence : fence_row) : exn + list (string * value R) :=
  let plain := map (fun c => (c, Column R (column c fence))) plain_columns in
  match parsed_column "geometry" (as_geojson (column "fence_geometry" fence)) with
  | inl e => inl e
  | inr geometry =>
    match parsed_column "bounds" (as_geojson (column "fence_bounds" fence)) with
    | inl e => inl e
    | inr bounds =>
      match parsed_column "center" (as_geojson (column "fence_center" fence)) with
      | inl e => inl e
      | inr center =>
        match parsed_column "fence_tags" (column "fence_tags" fence) with
        | inl e => inl e
        | inr fence_tags =>
          match parsed_column "fence_config" (column "fence_config" fence) with
          | inl e => inl e
          | inr fence_config =>
            inr (plain ++ [geometry; bounds; center; fence_tags; fence_config])%list
          end
        end
      end
    end
  end.

Fixpoint fence_dicts (fences : list fence_row) : exn + list (list (string * value R)) :=
  match fences with
  | [] => inr []
  | fence :: rest =>
    match fence_dict fence with
    | inl e => inl e
    | inr d =>
      match fence_dicts rest with
      | inl e => inl e
      | inr ds => inr (d :: ds)
      end
    end
  end.

(** The dictionaries [get_fence_list] returns. *)
Inductive list_result : Type :=
| ListFailure (error : string) (message : string)
| Listed (total_count returned_count : nat) (limit offset : Z)
    (fences : list (list (string * value R))).

Definition get_fence_list (q : request) : M list_result :=
  try_except
    (_ <- get_db_connection true ;;
     box <- lift (envelope q) ;;
     fences <- sql_select_list (listed q box) (limit q) (offset q) ;;
     total_count <- sql_count_list (listed q box) ;;
     dicts <- lift (fence_dicts fences) ;;
     ret (Listed total_count (length fences) (limit q) (offset q) dicts))
    (fun e => logger ("获取围栏列表失败: " ++ exn_str e)%string ;;;
              ret (ListFailure (exn_str e) "获取围栏列表失败")).

(** [fence_dict['id']]. *)
Definition listed_id (d : list (string * value R)) : option (value R) :=
  snd <$> head (List.filter (fun kv => String.eqb kv.1 "id") d).

End WithReaders.

End FenceList.

(** ** services.py: cleaning of GeoJSON features *)

Module GeoJSON.

(** A JSON value as Python holds it; an object keeps its members in order. *)
#[warnings="-register-all"]
Inductive json : Type :=
| JNull
| JBool (b : bool)
| JNum (q : Q)
| JStr (s : string)
| JArr (items : list json)
| JObj (members : list (string * json)).

(** [d.get(k)] and [d[k] = v] on the members of an object. *)
Fixpoint get (k : string) (members : list (string * json)) : option json :=
  match members with
  | [] => None
  | (k', v) :: rest => if String.eqb k' k then Some v else get k rest
  end.

Fixpoint set (k : string) (v : json) (members : list (string * json))
    : list (string * json) :=
  match members with
  | [] => [(k, v)]
  | (k', v') :: rest =>
    if String.eqb k' k then (k', v) :: rest else (k', v') :: set k v rest
  end.

(** Truthiness of a value, and of the result of [d.get(k)]. *)
Definition truthy (v : json) : bool :=
  match v with
  | JNull => false
  | JBool b => b
  | JNum q => negb (Qeq_bool q 0)
  | JStr s => negb (String.eqb s "")
  | JArr items => negb (bool_decide (items = []))
  | JObj members => negb (bool_decide (members = []))
  end.

Definition truthy_get (k : string) (members : list (string * json)) : bool :=
  match get k members with
  | Some v => truthy v
  | None => false
  end.

(** [s.strip() == ""]. *)
Definition is_space (c : ascii) : bool :=
  let n := nat_of_ascii c in
  ((9 <=? n) && (n <=? 13) || (28 <=? n) && (n <=? 32))%nat.

Fixpoint blank (s : string) : bool :=
  match s with
  | EmptyString => true
  | String c rest => is_space c && blank rest
  end.

Section WithLoads.

(** [json.loads]. *)
Context (json_loads : string -> exn + json).

(** The body of the loop for one element of [features]: the feature to
    append, or [None] where the source says [continue]. *)
Definition clean_feature (f : json) : option json :=
  match f with
  | JObj (member :: others) =>
    let members := member :: others in
    match get "geometry" members with
    | None | Some JNull => None
    | Some (JStr text) =>
      if String.eqb text "null" || String.eqb text "" || blank text then None
      else
        match json_loads text with
        | inl _ => None
        | inr geometry =>
          match geometry with
          | JObj parsed =>
            if truthy_get "type" parsed && truthy_get "coordinates" parsed
            then Some (JObj (set "geometry" geometry members))
            else None
          | _ => None
          end
        end
    | Some (JObj geometry) =>
      if truthy_get "type" geometry && truthy_get "coordinates" geometry
      then Some f
      else None
    | Some _ => None
    end
  | _ => None
  end.

(** [for f in geojson["features"]] over whatever value the key holds: the
    elements of a list, the characters of a string, the keys of an object;
    anything else cannot be iterated. *)
Definition cleaned_features (features : json) : exn + list json :=
  match features with
  | JArr items => inr (omap clean_feature items)
  | JStr _ | JObj _ => inr []
  | _ => inl (Exception "TypeError: object is not iterable")
  end.

(** [clean_geojson_features] of a dictionary or of [None]. *)
Definition clean_geojson_features (geojson : option (list (string * json)))
    : exn + option (list (string * json)) :=
  match geojson with
  | None | Some [] => inr geojson
  | Some members =>
    match get "features" members with
    | None => inr geojson
    | Some features =>
      match cleaned_features features with
      | inl e => inl e
      | inr cleaned => inr (Some (set "features" (JArr cleaned) members))
      end
    end
  end.

End WithLoads.

(** A feature with a geometry to draw: an object whose [geometry] is an
    object with a [type] and [coordinates] that are not empty. *)
Definition drawable (f : json) : bool :=
  match f with
  | JObj members =>
    match get "geometry" members with
    | Some (JObj geometry) =>
      truthy_get "type" geometry && truthy_get "coordinates" geometry
    | _ => false
    end
  | _ => false
  end.

End GeoJSON.

(** ** Test doubles for the collaborators

    A planar stand-in for shapely and a store whose stored procedures are
    given as functions, used to run the operations on concrete inputs. *)

Module Demo.

Import Fence.

(** Twice the signed area of a ring, by the shoelace formula. *)
Fixpoint shoelace (ring : list point) : Q :=
  match ring with
  | (x1, y1) :: (((x2, y2) :: _) as rest) => (x1 * y2 - x2 * y1 + shoelace rest)%Q
  | _ => 0%Q
  end.

Definition ring_area (ring : list point) : Q := (Qabs (shoelace ring) / 2)%Q.

Definition unit_square : list point :=
  [(0%Q, 0%Q); (1%Q, 0%Q); (1%Q, 1%Q); (0%Q, 1%Q); (0%Q, 0%Q)].

Definition starts_with (prefix text : string) : bool :=
  bool_decide (String.substring 0 (String.length prefix) text = prefix).

Definition demo_wkt_loads (text : string) : exn + list point :=
  if starts_with "POLYGON" text then inr unit_square
  else if starts_with "LINESTRING" text then inr []
  else inl (Exception "ParseException").

Definition demo_Polygon (exterior : list point) (holes : option (list (list point)))
    : exn + list point :=
  if Nat.ltb (length exterior) 4
  then inl (ValueError "A linearring requires at least 4 coordinates.")
  else inr exterior.

Definition demo_float_str (q : Q) : string := str_of_int (Qnum q / Z.pos (Qden q)).

(** The collaborators, given the three stored procedures. *)
Definition collaborators_with
    (detect : database -> Z -> exn + list detected)
    (merge : database -> list Z -> string -> option Z -> (exn + option Z) * database)
    (split : database -> Z -> string -> option Z -> (exn + option (list Z)) * database)
    : collaborators :=
  {| geom := list point;
     wkt_loads := demo_wkt_loads;
     Polygon := demo_Polygon;
     is_valid := fun _ => true;
     make_valid := fun g => inr g;
     area := ring_area;
     bounds := fun _ => (0%Q, 0%Q, 1%Q, 1%Q);
     transform_to_3857 := fun g => inr (map (fun '(x, y) => (111319 * x, 111319 * y)%Q) g);
     float_str := demo_float_str;
     json_dumps := fun _ => "{}";
     ST_GeomFromText := fun _ => inr tt;
     sql_detect_fence_overlaps := detect;
     sql_merge_fences := merge;
     sql_split_fence := split |}.

Definition no_merge (d : database) (ids : list Z) (name : string) (operator : option Z)
    : (exn + option Z) * database := (inr None, d).

Definition no_split (d : database) (fence_id : Z) (line : string) (operator : option Z)
    : (exn + option (list Z)) * database := (inr None, d).

(** A store in which nothing overlaps. *)
Definition quiet : collaborators :=
  collaborators_with (fun _ _ => inr []) no_merge no_split.

(** A store whose detection procedure fails. *)
Definition broken_detection : collaborators :=
  collaborators_with (fun _ _ => inl (Exception "function detect_fence_overlaps does not exist"))
    no_merge no_split.

(** Fences 1 and 2 overlap each other by 25 square metres. *)
Definition found (other : Z) : detected :=
  {| overlapping_fence_id := other; overlap_area := 25%Q; overlap_percentage := 50%Q;
     overlap_type := "partial"; overlap_fence_info := None |}.

Definition one_and_two_overlap : collaborators :=
  collaborators_with
    (fun _ fence_id =>
       if bool_decide (fence_id = 1) then inr [found 2]
       else if bool_decide (fence_id = 2) then inr [found 1]
       else inr [])
    no_merge no_split.

(** A store whose split procedure cuts any fence in two, whatever the line. *)
Definition cuts_in_two : collaborators :=
  collaborators_with (fun _ _ => inr []) no_merge
    (fun d fence_id line operator =>
       (inr (Some [next_fence_id d; next_fence_id d + 1]),
        {| electronic_fences :=
             electronic_fences d ++
               [ {["id" := SInt (next_fence_id d)]} ; {["id" := SInt (next_fence_id d + 1)]} ];
           fence_overlaps := fence_overlaps d;
           next_fence_id := next_fence_id d + 2 |})).

Definition active_fence (fence_id : Z) (name : string) : fence_row :=
  <["id" := SInt fence_id]> (<["fence_name" := SText name]>
    {["fence_status" := SText "active"]}).

Definition deleted_fence (fence_id : Z) (name : string) : fence_row :=
  <["id" := SInt fence_id]> (<["fence_name" := SText name]>
    {["fence_status" := SText "deleted"]}).

Definition no_stats : cache_stats_t :=
  {| hits := 0; misses := 0; redis_hits := 0; redis_misses := 0 |}.

(** A started process at instant 1000 with the given store and caches. *)
Definition started (d : database) (local : gmap string (Z * string))
    (shared : option redis_server) : world :=
  {| now := 1000; db_pool := true; read_pools := 1%nat; db := d;
     redis_client := shared; memory_cache := local; cache_stats := no_stats; log := [] |}.

Definition two_fences : database :=
  {| electronic_fences := [active_fence 1 "A"; active_fence 2 "B"];
     fence_overlaps := []; next_fence_id := 3 |}.

Definition empty_store : database :=
  {| electronic_fences := []; fence_overlaps := []; next_fence_id := 1 |}.

Definition square (side : Z) : geometry_data :=
  GeomDict {| g_type := Some "Polygon";
              g_coordinates :=
                Some [[(0%Q, 0%Q); (inject_Z side, 0%Q); (inject_Z side, inject_Z side);
                       (0%Q, inject_Z side); (0%Q, 0%Q)]] |}.

(** A local tier at its ceiling: the keys [k0] to [k999], written at
    instant [stamp]. *)
Definition full_local_tier (stamp : Z) : gmap string (Z * string) :=
  list_to_map
    (map (fun i => (("k" ++ str_of_int (Z.of_nat i))%string, (stamp, "old")))
       (seq 0 1000)).

(** A store whose merge procedure replaces the given fences by one new
    fence. *)
Definition joins : collaborators :=
  collaborators_with (fun _ _ => inr [])
    (fun d ids name operator =>
       (inr (Some (next_fence_id d)),
        {| electronic_fences :=
             electronic_fences d ++
               [ <["id" := SInt (next_fence_id d)]> {["fence_name" := SText name]} ];
           fence_overlaps := fence_overlaps d;
           next_fence_id := next_fence_id d + 1 |}))
    no_split.

(** Readers that keep the JSON text as it is. *)
Definition text_readers : FenceExport.readers :=
  {| FenceExport.json := string;
     FenceExport.json_loads := fun s =>
       if bool_decide (s = "") then inl (Exception "JSONDecodeError") else inr s;
     FenceExport.ST_AsGeoJSON := fun g => g;
     FenceExport.isoformat := str_of_int |}.

(** An active fence with its geometry stored, and a store of two of them. *)
Definition surveyed_fence (fence_id : Z) (name : string) : fence_row :=
  <["fence_geometry" := SText "POLYGON((0 0,1 0,1 1,0 1,0 0))"]> (active_fence fence_id name).

Definition surveyed_store : database :=
  {| electronic_fences := [surveyed_fence 2 "B"; surveyed_fence 1 "A"];
     fence_overlaps := []; next_fence_id := 3 |}.

(** Locators that read no number and find every geometry in every box. *)
Definition no_locators : FenceList.locators :=
  {| FenceList.pyfloat := Z;
     FenceList.float_of := fun _ => inl (ValueError "could not convert string to float");
     FenceList.intersects_envelope := fun _ _ _ _ _ => true |}.

(** [get_fence_list()] with its default arguments. *)
Definition default_request : FenceList.request :=
  {| FenceList.status := None; FenceList.fence_type := None; FenceList.group_id := None;
     FenceList.owner_id := None; FenceList.bbox := None;
     FenceList.limit := 100; FenceList.offset := 0 |}.

(** A [json.loads] that knows one text, that of a point. *)
Definition point_geometry : GeoJSON.json :=
  GeoJSON.JObj [("type", GeoJSON.JStr "Point");
                ("coordinates", GeoJSON.JArr [GeoJSON.JNum 106; GeoJSON.JNum (-6)])].

Definition loads_point (text : string) : exn + GeoJSON.json :=
  if bool_decide (text = "{point}") then inr point_geometry
  else inl (Exception "JSONDecodeError").

(** A collection of three features: one to draw, one whose geometry is the
    text of a geometry, one whose geometry is the text [null]. *)
Definition three_features : list (string * GeoJSON.json) :=
  [("type", GeoJSON.JStr "FeatureCollection");
   ("features", GeoJSON.JArr
      [GeoJSON.JObj [("type", GeoJSON.JStr "Feature"); ("geometry", point_geometry)];
       GeoJSON.JObj [("type", GeoJSON.JStr "Feature"); ("geometry", GeoJSON.JStr "{point}")];
       GeoJSON.JObj [("type", GeoJSON.JStr "Feature"); ("geometry", GeoJSON.JStr "null")]])].

(** A codec for the payloads of the examples: a set is not serialisable,
    and of the texts only [{}] and [[1]] are JSON. *)
Definition json_text : Services.codec :=
  {| Services.to_json := fun value =>
       if String.eqb value "set()"
       then inl (Exception "Object of type set is not JSON serializable")
       else inr value;
     Services.of_json := fun text =>
       if String.eqb text "{}" || String.eqb text "[1]" then inr text
       else inl (ValueError "Expecting value: line 1 column 1 (char 0)") |}.


End Demo.

(** * Theorems *)

(** ** Python helpers *)

Lemma fold_left_max_spec (rest : list Z) (x : Z) :
  (fold_left Z.max rest x = x ∨ fold_left Z.max rest x ∈ rest)
  ∧ x ≤ fold_left Z.max rest x
  ∧ ∀ y, y ∈ rest → y ≤ fold_left Z.max rest x.
Proof.
  revert x. induction rest as [|a rest IH]; intros x; simpl.
  - split; [by left|]. split; [lia|]. intros y Hy. inversion Hy.
  - destruct (IH (Z.max x a)) as (Hin & Hle & Hub).
    split; [|split].
    + destruct Hin as [Heq|Hin].
      * rewrite Heq. destruct (Z.max_spec x a) as [[_ ->]|[_ ->]].
        -- right. apply elem_of_cons. by left.
        -- by left.
      * right. apply elem_of_cons. by right.
    + lia.
    + intros y Hy. apply elem_of_cons in Hy as [->|Hy]; [lia|by apply Hub].
Qed.

Lemma fold_left_min_spec (rest : list Z) (x : Z) :
  (fold_left Z.min rest x = x ∨ fold_left Z.min rest x ∈ rest)
  ∧ fold_left Z.min rest x ≤ x
  ∧ ∀ y, y ∈ rest → fold_left Z.min rest x ≤ y.
Proof.
  revert x. induction rest as [|a rest IH]; intros x; simpl.
  - split; [by left|]. split; [lia|]. intros y Hy. inversion Hy.
  - destruct (IH (Z.min x a)) as (Hin & Hle & Hub).
    split; [|split].
    + destruct Hin as [Heq|Hin].
      * rewrite Heq. destruct (Z.min_spec x a) as [[_ ->]|[_ ->]].
        -- by left.
        -- right. apply elem_of_cons. by left.
      * right. apply elem_of_cons. by right.
    + lia.
    + intros y Hy. apply elem_of_cons in Hy as [->|Hy]; [lia|by apply Hub].
Qed.

Lemma py_max_inr (xs : list Z) (m : Z) :
  py_max xs = inr m → m ∈ xs ∧ ∀ x, x ∈ xs → x ≤ m.
Proof.
  destruct xs as [|x rest]; simpl; [discriminate|].
  intros [= <-]. destruct (fold_left_max_spec rest x) as (Hin & Hle & Hub).
  split.
  - apply elem_of_cons. destruct Hin as [->|Hin]; [by left|by right].
  - intros y Hy. apply elem_of_cons in Hy as [->|Hy]; [done|by apply Hub].
Qed.

Lemma py_min_inr (xs : list Z) (m : Z) :
  py_min xs = inr m → m ∈ xs ∧ ∀ x, x ∈ xs → m ≤ x.
Proof.
  destruct xs as [|x rest]; simpl; [discriminate|].
  intros [= <-]. destruct (fold_left_min_spec rest x) as (Hin & Hle & Hub).
  split.
  - apply elem_of_cons. destruct Hin as [->|Hin]; [by left|by right].
  - intros y Hy. apply elem_of_cons in Hy as [->|Hy]; [done|by apply Hub].
Qed.

Lemma py_max_total (xs : list Z) : xs ≠ [] → ∃ m, py_max xs = inr m.
Proof. destruct xs; [done|]. intros _. by eexists. Qed.

Lemma py_min_total (xs : list Z) : xs ≠ [] → ∃ m, py_min xs = inr m.
Proof. destruct xs; [done|]. intros _. by eexists. Qed.

Lemma elem_of_insert_sorted (y x : Z) (xs : list Z) :
  y ∈ insert_sorted x xs ↔ y = x ∨ y ∈ xs.
Proof.
  induction xs as [|a xs IH]; simpl.
  - rewrite list_elem_of_singleton. split; [by left|]. intros [->|H]; [done|inversion H].
  - destruct (x <=? a).
    + by rewrite elem_of_cons.
    + rewrite !elem_of_cons, IH. tauto.
Qed.

Lemma elem_of_sorted (y : Z) (xs : list Z) : y ∈ sorted xs ↔ y ∈ xs.
Proof.
  induction xs as [|a xs IH]; simpl; [done|].
  rewrite elem_of_insert_sorted, elem_of_cons, IH. tauto.
Qed.

Lemma sorted_nil (xs : list Z) : sorted xs = [] → xs = [].
Proof.
  destruct xs as [|a xs]; [done|]. intros H.
  assert (a ∈ sorted (a :: xs)) as Hin by (apply elem_of_sorted, elem_of_cons; by left).
  rewrite H in Hin. inversion Hin.
Qed.

(** ** The zoom policy resolver *)

Section ZoomFacts.

Import Zoom ZoomSpec.

Lemma elem_of_keys (t : Z) (lim : list (Z * Z)) :
  t ∈ keys lim ↔ ∃ l, (t, l) ∈ lim.
Proof.
  unfold keys. induction lim as [|[a b] lim IH]; simpl.
  - split; [intros H; inversion H|intros [l H]; inversion H].
  - rewrite elem_of_cons, IH. split.
    + intros [->|[l H]]; [exists b|exists l]; apply elem_of_cons; auto.
    + intros [l H]. apply elem_of_cons in H as [[= -> ->]|H]; eauto.
Qed.

Lemma elem_of_values (l : Z) (lim : list (Z * Z)) :
  l ∈ values lim ↔ ∃ t, (t, l) ∈ lim.
Proof.
  unfold values. induction lim as [|[a b] lim IH]; simpl.
  - split; [intros H; inversion H|intros [t H]; inversion H].
  - rewrite elem_of_cons, IH. split.
    + intros [->|[t H]]; [exists a|exists t]; apply elem_of_cons; auto.
    + intros [t H]. apply elem_of_cons in H as [[= -> ->]|H]; eauto.
Qed.

Lemma limits_get_inr (lim : list (Z * Z)) (k v : Z) :
  limits_get lim k = inr v → (k, v) ∈ lim.
Proof.
  induction lim as [|[a b] lim IH]; simpl; [discriminate|].
  destruct (decide (a = k)) as [->|Hne].
  - intros [= ->]. apply elem_of_cons. by left.
  - intros H. apply elem_of_cons. right. by apply IH.
Qed.

Lemma limits_get_total (lim : list (Z * Z)) (k : Z) :
  k ∈ keys lim → ∃ v, limits_get lim k = inr v.
Proof.
  induction lim as [|[a b] lim IH]; simpl.
  - intros H. inversion H.
  - intros H. destruct (decide (a = k)) as [->|Hne]; [by eexists|].
    apply IH. apply elem_of_cons in H as [H|H]; [simpl in H; congruence|done].
Qed.

(** The step function of the source is the one the specification words. *)
Lemma calc_simplify_tolerance_step (zoom : Z) :
  calc_simplify_tolerance zoom = step_tolerance zoom.
Proof.
  unfold calc_simplify_tolerance, step_tolerance.
  destruct (Z.ltb_spec zoom 10), (Z.ltb_spec zoom 12), (Z.ltb_spec zoom 15);
    repeat case_decide; lia.
Qed.

Lemma calc_cache_ttl_formula (zoom : Z) : calc_cache_ttl zoom = ttl zoom.
Proof. unfold calc_cache_ttl, ttl. simpl. f_equal. lia. Qed.

(** The thresholds selected by the comprehension [[z for z in limits.keys()
    if z <= zoom]] and [max]. *)
Lemma greatest_of_filter (lim : list (Z * Z)) (zoom t : Z) (xs : list Z) :
  (∀ x, x ∈ xs ↔ x ∈ keys lim ∧ x ≤ zoom) →
  py_max xs = inr t →
  ∃ limit, limits_get lim t = inr limit ∧ greatest_threshold_le lim zoom t limit.
Proof.
  intros Hxs Hmax. apply py_max_inr in Hmax as [Hin Hub].
  apply Hxs in Hin as [Hkey Hle].
  destruct (limits_get_total lim t Hkey) as [limit Hget].
  exists limit. split; [done|]. split; [by apply limits_get_inr|]. split; [done|].
  intros t' l' Hin' Hle'. apply Hub, Hxs. split; [|done].
  apply elem_of_keys. by exists l'.
Qed.

Lemma filter_le_spec (lim : list (Z * Z)) (zoom x : Z) :
  x ∈ filter (λ z, z ≤ zoom) (keys lim) ↔ x ∈ keys lim ∧ x ≤ zoom.
Proof. rewrite list_elem_of_filter. tauto. Qed.

Lemma well_formed_limits (s : layer_strategy) :
  well_formed s = true → limits s ≠ [].
Proof.
  unfold well_formed. intros H. apply andb_prop in H as [H _].
  apply negb_true_iff, bool_decide_eq_false in H. done.
Qed.

Lemma well_formed_min_zoom (s : layer_strategy) (zoom : Z) :
  well_formed s = true → truthy (always_load s) = false → min_zoom s ≤ zoom →
  filter (λ z, z ≤ zoom) (keys (limits s)) ≠ [].
Proof.
  unfold well_formed. intros H Hal Hz. apply andb_prop in H as [_ H].
  rewrite Hal in H. simpl in H. apply existsb_exists in H as (t & Hin & Hle).
  apply list_elem_of_In in Hin. apply Z.leb_le in Hle.
  intros Hnil.
  assert (t ∈ filter (λ z, z ≤ zoom) (keys (limits s))) as Hin'
    by (apply filter_le_spec; split; [done|lia]).
  rewrite Hnil in Hin'. inversion Hin'.
Qed.

(** On a well-formed entry the resolver returns, and returns what the five
    steps prescribe. *)
Lemma resolve_prescribed (layer : string) (zoom : Z) (s : layer_strategy) :
  LAYER_ZOOM_STRATEGIES !! layer = Some s →
  well_formed s = true →
  ∃ p, get_layer_zoom_strategy layer zoom = inr p ∧ prescribed layer zoom p.
Proof.
  intros Hlook Hwf.
  unfold get_layer_zoom_strategy, get_layer_zoom_strategy_on. rewrite Hlook. simpl.
  pose proof (well_formed_limits s Hwf) as Hne.
  destruct (truthy (always_load s)) eqn:Hal.
  - (* always_load *)
    destruct (filter (λ z, z ≤ zoom) (keys (limits s))) as [|z0 zs] eqn:Hfil.
    + assert (keys (limits s) ≠ []) as Hk
        by (unfold keys; destruct (limits s); [done|discriminate]).
      destruct (py_min_total _ Hk) as [t Ht]. rewrite Ht.
      apply py_min_inr in Ht as [Hin Hlb].
      destruct (limits_get_total _ _ Hin) as [limit Hget]. rewrite Hget.
      eexists. split; [done|].
      eapply (step_always_load _ _ _ s t limit); simpl; eauto.
      * right. split.
        -- intros t' l' Hin'.
           destruct (decide (t' ≤ zoom)) as [Hle|]; [|lia].
           assert (t' ∈ filter (λ z, z ≤ zoom) (keys (limits s))) as Hc
             by (apply filter_le_spec; split; [apply elem_of_keys; eauto|done]).
           rewrite Hfil in Hc. inversion Hc.
        -- split; [by apply limits_get_inr|].
           intros t' l' Hin'. apply Hlb, elem_of_keys. eauto.
      * by rewrite calc_cache_ttl_formula.
    + rewrite <- Hfil.
      assert (filter (λ z, z ≤ zoom) (keys (limits s)) ≠ []) as Hk
        by (rewrite Hfil; discriminate).
      destruct (py_max_total _ Hk) as [t Ht]. rewrite Ht.
      destruct (greatest_of_filter (limits s) zoom t _ (filter_le_spec _ _) Ht)
        as (limit & Hget & Hgt).
      rewrite Hget. eexists. split; [done|].
      eapply (step_always_load _ _ _ s t limit); simpl; eauto.
      by rewrite calc_cache_ttl_formula.
  - destruct (zoom <? min_zoom s) eqn:Hlow.
    + apply Z.ltb_lt in Hlow. eexists. split; [done|].
      by eapply step_zoom_too_low.
    + apply Z.ltb_ge in Hlow.
      destruct (HIGH_ZOOM_THRESHOLD <=? zoom) eqn:Hhigh.
      * apply Z.leb_le in Hhigh. unfold HIGH_ZOOM_THRESHOLD in Hhigh.
        destruct (limits s) as [|e es] eqn:Hlim; [done|]. rewrite <- Hlim.
        assert (values (limits s) ≠ []) as Hv
          by (rewrite Hlim; discriminate).
        destruct (py_max_total _ Hv) as [m Hm]. rewrite Hm.
        apply py_max_inr in Hm as [Hin Hub].
        eexists. split; [done|].
        eapply (step_high_zoom _ _ _ s m); simpl; eauto.
        split; [by apply elem_of_values|].
        intros t l Htl. apply Hub, elem_of_values. eauto.
      * apply Z.leb_gt in Hhigh. unfold HIGH_ZOOM_THRESHOLD in Hhigh.
        pose proof (well_formed_min_zoom s zoom Hwf Hal Hlow) as Hfil.
        destruct (sorted (filter (λ z, z ≤ zoom) (keys (limits s)))) as [|z0 zs] eqn:Hs.
        { by apply sorted_nil in Hs. }
        rewrite <- Hs.
        assert (sorted (filter (λ z, z ≤ zoom) (keys (limits s))) ≠ []) as Hk
          by (rewrite Hs; discriminate).
        destruct (py_max_total _ Hk) as [t Ht]. rewrite Ht.
        destruct (greatest_of_filter (limits s) zoom t _
                    (λ x, iff_trans (elem_of_sorted x _) (filter_le_spec _ _ x)) Ht)
          as (limit & Hget & Hgt).
        rewrite Hget. eexists. split; [done|].
        eapply (step_threshold _ _ _ s t limit); simpl; eauto.
        -- by rewrite calc_simplify_tolerance_step.
        -- by rewrite calc_cache_ttl_formula.
Qed.

Lemma table_well_formed :
  map_Forall (λ _ s, well_formed s = true) LAYER_ZOOM_STRATEGIES.
Proof.
  apply map_Forall_to_list. vm_compute.
  repeat (apply Forall_cons; split; [reflexivity|]). apply Forall_nil_2.
Qed.


(** C1. For every layer name and every integer zoom the resolver returns a
    policy, and that policy is the one steps 1 to 5 of the specification
    prescribe: not configured; always-load with the limit of the greatest
    threshold not above the zoom (else of the smallest threshold), no
    simplification and TTL max(300, 600 - 15*zoom); zoom too low; at zoom 16
    and above the maximum configured limit and no simplification; otherwise
    the limit of the greatest threshold not above the zoom, the stepped
    tolerance and the same TTL.  Equal inputs give equal policies. *)
Theorem C1_resolver_follows_specification :
  (∀ layer zoom, ∃ p,
     get_layer_zoom_strategy layer zoom = inr p ∧ prescribed layer zoom p)
  ∧ (∀ layer1 layer2 zoom1 zoom2, layer1 = layer2 → zoom1 = zoom2 →
     get_layer_zoom_strategy layer1 zoom1 = get_layer_zoom_strategy layer2 zoom2).
Proof.
  split.
  - intros layer zoom.
    destruct (LAYER_ZOOM_STRATEGIES !! layer) as [s|] eqn:Hlook.
    + apply (resolve_prescribed layer zoom s Hlook).
      exact (table_well_formed layer s Hlook).
    + exists (refuse "layer_not_configured"). split.
      * unfold get_layer_zoom_strategy, get_layer_zoom_strategy_on. by rewrite Hlook.
      * by apply step_not_configured.
  - by intros layer1 layer2 zoom1 zoom2 -> ->.
Qed.


(** *** Zoom monotonicity *)

Lemma monotone_upto_spec (bound : Z) (lim : list (Z * Z)) (t1 l1 t2 l2 : Z) :
  monotone_upto bound lim = true →
  (t1, l1) ∈ lim → (t2, l2) ∈ lim → t1 ≤ t2 → t2 ≤ bound → l1 ≤ l2.
Proof.
  unfold monotone_upto. intros H H1 H2 Hle Hb.
  rewrite forallb_forall in H. apply list_elem_of_In in H1, H2.
  specialize (H _ H1). rewrite forallb_forall in H. specialize (H _ H2).
  simpl in H.
  assert ((t1 <=? t2) && (t2 <=? bound) = true) as Hc.
  { apply andb_true_intro. split; by apply Z.leb_le. }
  rewrite Hc in H. simpl in H. by apply Z.leb_le.
Qed.

(** The limit resolved for a layer that is not always loaded, at a zoom at
    or above its [min_zoom]. *)
Lemma limit_at_cases (layer : string) (s : layer_strategy) (zoom : Z) :
  LAYER_ZOOM_STRATEGIES !! layer = Some s →
  truthy (always_load s) = false →
  min_zoom s ≤ zoom →
  ∃ l, limit_at layer zoom = Some l ∧
       ((16 ≤ zoom ∧ maximum_limit (limits s) l)
        ∨ (zoom < 16 ∧ ∃ t, greatest_threshold_le (limits s) zoom t l)).
Proof.
  intros Hlook Hal Hmin.
  destruct (resolve_prescribed layer zoom s Hlook (table_well_formed layer s Hlook))
    as (p & Hp & Hspec).
  unfold limit_at. rewrite Hp.
  destruct Hspec as [Hnone _|s' t l Hs' Hal' _ _ _ _ _|s' Hs' _ Hlow _
                    |s' m Hs' _ _ Hhigh Hmax _ Hm _|s' t l Hs' _ _ Hlt Hgt _ Hl _ _].
  - congruence.
  - congruence.
  - assert (s' = s) as -> by congruence. lia.
  - assert (s' = s) as -> by congruence. exists m. split; [done|]. by left.
  - assert (s' = s) as -> by congruence. exists l. split; [done|]. right. eauto.
Qed.

(** Monotonicity from a table whose limits do not decrease up to [bound]. *)
Lemma limit_monotone_upto (layer : string) (s : layer_strategy) (bound zoom1 zoom2 : Z) :
  LAYER_ZOOM_STRATEGIES !! layer = Some s →
  truthy (always_load s) = false →
  monotone_upto bound (limits s) = true →
  min_zoom s ≤ zoom1 → zoom1 < zoom2 →
  zoom2 ≤ bound ∨ 16 ≤ zoom2 →
  ∃ l1 l2, limit_at layer zoom1 = Some l1 ∧ limit_at layer zoom2 = Some l2 ∧ l1 ≤ l2.
Proof.
  intros Hlook Hal Hmono Hmin Hlt Hb.
  destruct (limit_at_cases layer s zoom1 Hlook Hal Hmin) as (l1 & H1 & C1).
  destruct (limit_at_cases layer s zoom2 Hlook Hal ltac:(lia)) as (l2 & H2 & C2).
  exists l1, l2. split; [done|]. split; [done|].
  destruct C2 as [[Hhigh [_ Hub]]|[Hlow2 [t2 (Hin2 & Hle2 & Hgt2)]]].
  - destruct C1 as [[_ [[t Hin] _]]|[_ [t1 (Hin1 & _)]]]; eapply Hub; eauto.
  - destruct C1 as [[Hhigh1 _]|[_ [t1 (Hin1 & Hle1 & _)]]]; [lia|].
    destruct Hb as [Hb|Hb]; [|lia].
    eapply (monotone_upto_spec bound (limits s) t1 l1 t2 l2); eauto; [|lia].
    eapply Hgt2; eauto. lia.
Qed.

Lemma table_monotone :
  map_Forall (λ layer s,
    monotone_upto (if decide (layer = "land_polygons") then 11 else 15) (limits s) = true)
    LAYER_ZOOM_STRATEGIES.
Proof.
  apply map_Forall_to_list. vm_compute.
  repeat (apply Forall_cons; split; [reflexivity|]). apply Forall_nil_2.
Qed.

(** C4, as stated, fails: [land_polygons] is allowed 8000 features at zoom
    10 and only 6000 at zoom 12, both at or above its [min_zoom] of 4. *)
Lemma C4_land_polygons_not_monotone : ¬ zoom_monotone "land_polygons".
Proof.
  intros H.
  specialize (H (mk_layer 4 20 None [(4, 2000); (8, 5000); (10, 8000); (12, 6000); (14, 3000)])
                10 12 8000 6000).
  assert (8000 ≤ 6000) as Habs; [|lia].
  apply H;
    [vm_compute; reflexivity | reflexivity | simpl; lia | lia
    | vm_compute; reflexivity | vm_compute; reflexivity].
Qed.

(** The limit of [land_polygons] at every zoom from its [min_zoom] on. *)
Lemma land_polygons_limit_at (zoom : Z) :
  4 ≤ zoom →
  limit_at "land_polygons" zoom
  = Some (if zoom <? 8 then 2000 else if zoom <? 10 then 5000
          else if zoom <? 12 then 8000 else if zoom <? 14 then 6000
          else if zoom <? 16 then 3000 else 8000).
Proof.
  intros Hmin. destruct (Z.lt_ge_cases zoom 16) as [Hlow | Hhigh].
  - assert (zoom = 4 ∨ zoom = 5 ∨ zoom = 6 ∨ zoom = 7 ∨ zoom = 8 ∨ zoom = 9 ∨ zoom = 10
            ∨ zoom = 11 ∨ zoom = 12 ∨ zoom = 13 ∨ zoom = 14 ∨ zoom = 15) as Hz by lia.
    repeat (destruct Hz as [-> | Hz]); [..| subst zoom]; vm_compute; reflexivity.
  - assert (LAYER_ZOOM_STRATEGIES !! "land_polygons"
            = Some (mk_layer 4 20 None
                      [(4, 2000); (8, 5000); (10, 8000); (12, 6000); (14, 3000)])) as Hs
      by (vm_compute; reflexivity).
    unfold limit_at, get_layer_zoom_strategy, get_layer_zoom_strategy_on,
      HIGH_ZOOM_THRESHOLD.
    rewrite Hs. cbn [mk_layer limits always_load min_zoom truthy]. cbn zeta.
    destruct (Z.ltb_spec zoom 4); [lia|].
    destruct (Z.leb_spec 16 zoom); [|lia].
    cbn [values map snd py_max fold_left max_features].
    destruct (Z.ltb_spec zoom 8), (Z.ltb_spec zoom 10), (Z.ltb_spec zoom 12),
      (Z.ltb_spec zoom 14), (Z.ltb_spec zoom 16); try lia.
    reflexivity.
Qed.

(** C4, amended.  For a configured layer that is not always loaded and
    zoom1 < zoom2 both at or above its [min_zoom], the resolver gives a
    limit at both zooms, and the limit at zoom2 is at least the limit at
    zoom1 except, and only except, for [land_polygons] between the zooms
    where its table lowers the limit: zoom1 in 10..11 with zoom2 in 12..13,
    and zoom1 in 8..13 with zoom2 in 14..15.  An always-load layer is loaded
    at every zoom. *)
Theorem C4_zoom_monotone_amended :
  (∀ layer s zoom1 zoom2,
     LAYER_ZOOM_STRATEGIES !! layer = Some s →
     truthy (always_load s) = false →
     min_zoom s ≤ zoom1 → zoom1 < zoom2 →
     ∃ l1 l2,
       limit_at layer zoom1 = Some l1 ∧ limit_at layer zoom2 = Some l2
       ∧ (l1 ≤ l2 ↔ ¬ (layer = "land_polygons" ∧ land_polygons_lowers zoom1 zoom2)))
  ∧ (∀ layer s zoom,
     LAYER_ZOOM_STRATEGIES !! layer = Some s →
     truthy (always_load s) = true →
     ∃ p, get_layer_zoom_strategy layer zoom = inr p ∧ load_data p = true).
Proof.
  split.
  - intros layer s zoom1 zoom2 Hlook Hal Hmin Hlt.
    destruct (decide (layer = "land_polygons")) as [->|Hne].
    + assert (s = mk_layer 4 20 None
                    [(4, 2000); (8, 5000); (10, 8000); (12, 6000); (14, 3000)]) as ->.
      { revert Hlook. vm_compute. by intros [= <-]. }
      simpl in Hmin.
      rewrite !land_polygons_limit_at by lia. eexists _, _.
      split; [reflexivity|]. split; [reflexivity|]. unfold land_polygons_lowers.
      destruct (Z.ltb_spec zoom1 8), (Z.ltb_spec zoom1 10), (Z.ltb_spec zoom1 12),
        (Z.ltb_spec zoom1 14), (Z.ltb_spec zoom1 16),
        (Z.ltb_spec zoom2 8), (Z.ltb_spec zoom2 10), (Z.ltb_spec zoom2 12),
        (Z.ltb_spec zoom2 14), (Z.ltb_spec zoom2 16); try lia;
        (split;
         [intros ? [_ ?]; lia
         | intros Hn; try lia; exfalso; apply Hn; split; [done | lia]]).
    + pose proof (table_monotone layer s Hlook) as Hmono. simpl in Hmono.
      destruct (decide (layer = "land_polygons")) as [?|_]; [done|].
      destruct (limit_monotone_upto layer s 15 zoom1 zoom2 Hlook Hal Hmono Hmin Hlt)
        as (l1 & l2 & H1 & H2 & Hle); [lia|].
      exists l1, l2. split; [done|]. split; [done|].
      split; [by intros _ [? _] | done].
  - intros layer s zoom Hlook Hal.
    destruct (resolve_prescribed layer zoom s Hlook (table_well_formed layer s Hlook))
      as (p & Hp & Hspec).
    exists p. split; [done|].
    destruct Hspec as [Hnone _|s' t l _ _ _ Hload _ _ _|s' Hs' Hal' _ _
                      |s' m Hs' Hal' _ _ _ _ _ _|s' t l Hs' Hal' _ _ _ _ _ _ _];
      try congruence.
Qed.

Lemma C4_zoom_monotone_amended_witness :
  (∃ l1 l2,
     limit_at "land_polygons" 4 = Some l1 ∧ limit_at "land_polygons" 13 = Some l2
     ∧ (l1 ≤ l2 ↔ ¬ ("land_polygons" = "land_polygons" ∧ land_polygons_lowers 4 13)))
  ∧ (∃ l1 l2,
       limit_at "land_polygons" 9 = Some l1 ∧ limit_at "land_polygons" 14 = Some l2
       ∧ (l1 ≤ l2 ↔ ¬ ("land_polygons" = "land_polygons" ∧ land_polygons_lowers 9 14)))
  ∧ (∃ l1 l2,
       limit_at "roads" 8 = Some l1 ∧ limit_at "roads" 14 = Some l2
       ∧ (l1 ≤ l2 ↔ ¬ ("roads" = "land_polygons" ∧ land_polygons_lowers 8 14)))
  ∧ (∃ p, get_layer_zoom_strategy "fences" 3 = inr p ∧ load_data p = true).
Proof.
  split; [|split; [|split]].
  - apply (proj1 C4_zoom_monotone_amended "land_polygons"
             (mk_layer 4 20 None [(4, 2000); (8, 5000); (10, 8000); (12, 6000); (14, 3000)])
             4 13);
      [vm_compute; reflexivity | reflexivity | simpl; lia | lia].
  - apply (proj1 C4_zoom_monotone_amended "land_polygons"
             (mk_layer 4 20 None [(4, 2000); (8, 5000); (10, 8000); (12, 6000); (14, 3000)])
             9 14);
      [vm_compute; reflexivity | reflexivity | simpl; lia | lia].
  - apply (proj1 C4_zoom_monotone_amended "roads"
             (mk_layer 7 20 None [(7, 3000); (9, 5000); (11, 10000); (13, 20000); (15, 30000)])
             8 14);
      [vm_compute; reflexivity | reflexivity | simpl; lia | lia].
  - apply (proj2 C4_zoom_monotone_amended "fences"
             (mk_layer 1 20 (Some true) [(1, 1000); (10, 3000); (15, 5000)]) 3);
      vm_compute; reflexivity.
Defined.

End ZoomFacts.

(** ** Fence lifecycle *)

Import Services Fence.

(** Run the effects of a computation whose steps are known. *)
Ltac run :=
  repeat (unfold bind, ret, raise, gets, modify, lift, try_except, logger, call_store;
          simpl).

(** *** The connection pools *)

Lemma get_db_connection_ready (read_only : bool) (w : world) :
  db_pool w = true → ∃ p, get_db_connection read_only w = (inr p, w).
Proof.
  intros H. unfold get_db_connection. run. rewrite H. run.
  destruct (read_only && _); by eexists.
Qed.

Lemma get_db_connection_down (read_only : bool) (w : world) :
  db_pool w = false →
  get_db_connection read_only w
  = (inl (Exception "数据库连接池未初始化，请确保在应用启动时调用 init_db_pool()"), w).
Proof. intros H. unfold get_db_connection. run. by rewrite H. Qed.

(** *** The cache hook of the mutations *)

(** [clear_fence_cache] writes one log line and nothing else. *)
Lemma clear_fence_cache_only_logs (w : world) :
  clear_fence_cache w = (inr tt, set_log (log w ++ ["围栏缓存已清理"]) w).
Proof. reflexivity. Qed.

(** [clear_cache], which no mutation calls, does empty both tiers. *)
Lemma clear_cache_empties_both_tiers (w : world) (r : redis_server) :
  redis_client w = Some r → reachable r = true →
  memory_cache (clear_cache w).2 = ∅
  ∧ redis_client (clear_cache w).2 = Some {| reachable := true; keyspace := ∅ |}.
Proof.
  intros Hr Hup. unfold clear_cache, bind, modify, gets, try_except. simpl.
  rewrite Hr. unfold redis_flushdb. rewrite Hup. simpl. done.
Qed.

(** A deletion, successful or not, leaves both cache tiers as they were. *)
Lemma delete_fence_keeps_caches (fence_id : Z) (operator_id : option Z) (w : world) :
  memory_cache (delete_fence fence_id operator_id w).2 = memory_cache w
  ∧ redis_client (delete_fence fence_id operator_id w).2 = redis_client w.
Proof.
  unfold delete_fence, try_except, bind, ret, raise, get_db_connection, gets,
    sql_update_fences, sql_delete_overlaps_of, clear_fence_cache, try_except,
    logger, modify, bind, gets, ret.
  simpl. destruct (db_pool w); simpl; [|done].
  destruct (read_pools w =? 0)%nat; simpl;
    destruct (head _); simpl; done.
Qed.

(** C2 fails on the code.  A layer analysis cached in both tiers before fence
    1 is deleted is served from the local tier after the deletion succeeds,
    and both tiers still hold it. *)
Theorem C2_cache_survives_mutation (J : codec) :
  let cached := <["fence_layer_analysis:1" := (990, "{}")]> ∅ in
  let shared := Some {| reachable := true;
                        keyspace := <["fence_layer_analysis:1" := (2790, "{}")]> ∅ |} in
  let w := Demo.started Demo.two_fences cached shared in
  let after := (delete_fence 1 None w).2 in
  (delete_fence 1 None w).1 = inr (Deleted 1 (SText "A") "围栏删除成功")
  ∧ memory_cache after = cached
  ∧ redis_client after = shared
  ∧ (get_cache_value J "fence_layer_analysis:1" "layer_analysis" after).1
    = inr (Some "{}").
Proof.
  intros cached shared w after.
  split; [vm_compute; reflexivity|].
  split; [apply (delete_fence_keeps_caches 1 None w)|].
  split; [apply (delete_fence_keeps_caches 1 None w)|].
  vm_compute; reflexivity.
Qed.

(** *** Overlap rows *)

(** Detection from the same fence twice does update its row in place. *)
Lemma upsert_same_key_in_place (a b : overlap_row) (rows : list overlap_row) :
  same_key b a = true →
  length (upsert_overlap b (upsert_overlap a rows)) = length (upsert_overlap a rows).
Proof.
  intros Hk. unfold upsert_overlap at 1.
  assert (existsb (same_key b) (upsert_overlap a rows) = true) as ->.
  { apply existsb_exists. exists a. split; [|done].
    unfold upsert_overlap. destruct (existsb (same_key a) rows) eqn:Hex.
    - apply existsb_exists in Hex as (r & Hin & Hr).
      apply in_map_iff. exists r. by rewrite Hr.
    - apply in_or_app. right. by left. }
  by rewrite length_map.
Qed.

(** C3 fails on the code.  Fences 1 and 2 overlap; detection triggered from
    fence 1 and then from fence 2 leaves two rows for the pair, with the
    identities in opposite order. *)
Theorem C3_two_rows_for_one_pair :
  let w := Demo.started Demo.two_fences ∅ None in
  let w1 := (detect_fence_overlaps Demo.one_and_two_overlap 1 w).2 in
  let w2 := (detect_fence_overlaps Demo.one_and_two_overlap 2 w1).2 in
  map stored_pair (fence_overlaps (db w1)) = [(1, 2)]
  ∧ map stored_pair (fence_overlaps (db w2)) = [(1, 2); (2, 1)].
Proof. vm_compute. split; reflexivity. Qed.

(** *** The cutting line of a split *)

(** A structured cutting line with fewer than two vertices is refused before
    the store is reached. *)
Lemma split_fence_short_linestring (E : collaborators) (fence_id : Z)
    (coords : option (list point)) (operator_id : option Z) (w : world) :
  (length (default [] coords) < 2)%nat →
  split_fence E fence_id (LineDict (Some "LineString") coords) operator_id w
  = (inr (Failure "分割线坐标点不足" "围栏切割失败"),
     set_log (log w ++ ["切割围栏失败: 分割线坐标点不足"]) w).
Proof.
  intros Hlen. unfold split_fence, try_except, bind. simpl.
  apply Nat.ltb_lt in Hlen. rewrite Hlen. reflexivity.
Qed.

(** Detection never raises: its handler turns every failure into []. *)
Lemma detect_fence_overlaps_returns (E : collaborators) (fence_id : Z) (w : world) :
  ∃ found w', detect_fence_overlaps E fence_id w = (inr found, w').
Proof.
  unfold detect_fence_overlaps, try_except.
  match goal with |- context [match ?m with _ => _ end] => destruct m as [[e|found] w'] end.
  - by eexists _, _.
  - by eexists _, _.
Qed.

Lemma detect_each_returns (E : collaborators) (ids : list Z) (n : nat) (w : world) :
  ∃ total w', detect_each E ids n w = (inr total, w').
Proof.
  revert n w. induction ids as [|i ids IH]; intros n w; simpl.
  - by eexists _, _.
  - unfold bind.
    destruct (detect_fence_overlaps_returns E i w) as (found & w' & ->).
    apply IH.
Qed.

(** A cutting line given as text goes to the store as it is. *)
Lemma split_fence_wkt_reaches_store (E : collaborators) (fence_id : Z) (text : string)
    (operator_id : option Z) (w : world) (first : Z) (others : list Z) (d : database) :
  db_pool w = true →
  ST_GeomFromText E text = inr tt →
  sql_split_fence E (db w) fence_id text operator_id = (inr (Some (first :: others)), d) →
  ∃ detected total w',
    split_fence E fence_id (LineWkt text) operator_id w
    = (inr (Split fence_id (first :: others) (S (length others)) detected total
              "围栏切割成功"), w').
Proof.
  intros Hpool Hgeom Hsplit.
  unfold split_fence. run.
  destruct (get_db_connection_ready false w Hpool) as [p ->].
  rewrite Hgeom, Hsplit.
  destruct (detect_fence_overlaps_returns E first (set_db d w)) as (found & w1 & ->).
  destruct (detect_each_returns E others (length found) w1) as (total & w2 & ->).
  by eexists _, _, _.
Qed.

(** C7 fails on the code for text input.  The line [LINESTRING EMPTY] has no
    vertex at all, yet the split goes through: the stored procedure runs and
    its two new fences are reported. *)
Theorem C7_wkt_line_is_not_checked :
  let w := Demo.started Demo.two_fences ∅ None in
  let out := split_fence Demo.cuts_in_two 1 (LineWkt "LINESTRING EMPTY") None w in
  out.1 = inr (Split 1 [3; 4] 2 false 0 "围栏切割成功")
  ∧ length (electronic_fences (db out.2)) = 4%nat.
Proof. vm_compute. split; reflexivity. Qed.

(** *** Update without fields *)

(** C10. An update that supplies none of the updatable fields returns a
    failure and writes nothing: the store and both cache tiers are as they
    were, whether or not the fence exists and is active.  With the pool
    initialised the error is the missing-fields one. *)
Theorem C10_update_without_fields_fails (E : collaborators) (fence_id : Z)
    (operator_id : option Z) (w : world) :
  let out := update_fence E fence_id None None None None None None None None operator_id w in
  out.1 = inr (Failure
                 (if db_pool w then "没有提供要更新的字段"
                  else "数据库连接池未初始化，请确保在应用启动时调用 init_db_pool()")
                 "围栏更新失败")
  ∧ db out.2 = db w
  ∧ memory_cache out.2 = memory_cache w
  ∧ redis_client out.2 = redis_client w.
Proof.
  unfold update_fence. run.
  destruct (db_pool w) eqn:Hpool.
  - destruct (get_db_connection_ready false w Hpool) as [p ->]. done.
  - rewrite (get_db_connection_down false w Hpool). done.
Qed.

(** *** Soft delete *)

Lemma filter_nothing {A} (f : A → bool) (l : list A) :
  (∀ x, x ∈ l → f x = false) → List.filter f l = [].
Proof.
  induction l as [|a l IH]; intros H; simpl; [done|].
  rewrite (H a) by (apply elem_of_cons; by left).
  apply IH. intros x Hx. apply H, elem_of_cons. by right.
Qed.

Lemma map_untouched {A} (f : A → bool) (g : A → A) (l : list A) :
  (∀ x, x ∈ l → f x = false) → map (λ r, if f r then g r else r) l = l.
Proof.
  induction l as [|a l IH]; intros H; simpl; [done|].
  rewrite (H a) by (apply elem_of_cons; by left).
  f_equal. apply IH. intros x Hx. apply H, elem_of_cons. by right.
Qed.

Lemma filter_something {A} (f : A → bool) (l : list A) (x : A) :
  x ∈ l → f x = true → ∃ y ys, List.filter f l = y :: ys.
Proof.
  intros Hin Hf. destruct (List.filter f l) as [|y ys] eqn:Hfil; [|by eexists _, _].
  assert (In x (List.filter f l)) as Habs
    by (apply filter_In; split; [by apply list_elem_of_In|done]).
  rewrite Hfil in Habs. destruct Habs.
Qed.

Lemma set_fences_same (d : database) : set_fences (electronic_fences d) d = d.
Proof. by destruct d. Qed.

Lemma set_db_same (w : world) : set_db (db w) w = w.
Proof. by destruct w. Qed.

Lemma status_eq_ne (r : fence_row) (s t : string) :
  status_eq s r = true → status_ne t r = negb (bool_decide (s = t)).
Proof.
  unfold status_eq, status_ne. intros H. apply bool_decide_eq_true in H. by rewrite H.
Qed.

Lemma soft_deleted_not_active (fence_id t : Z) (r : fence_row) :
  status_eq "active" (soft_deleted t r) = false.
Proof.
  unfold status_eq, soft_deleted, column.
  rewrite lookup_insert_ne by done. by rewrite lookup_insert_eq.
Qed.

Lemma soft_deleted_has_id (fence_id t : Z) (r : fence_row) :
  has_id fence_id (soft_deleted t r) = has_id fence_id r.
Proof.
  unfold has_id, soft_deleted, column. by rewrite !lookup_insert_ne by done.
Qed.

(** What [delete_fence] does once the pool is there. *)
Lemma delete_fence_run (fence_id : Z) (operator_id : option Z) (w : world) :
  db_pool w = true →
  let hit := λ r, has_id fence_id r && status_ne "deleted" r in
  let rows := electronic_fences (db w) in
  let rows' := map (λ r, if hit r then soft_deleted (now w) r else r) rows in
  delete_fence fence_id operator_id w =
  match List.filter hit rows with
  | [] =>
    (inr (Failure "围栏不存在或已被删除" "围栏删除失败"),
     set_log (log w ++ ["删除围栏失败: 围栏不存在或已被删除"])
       (set_db (set_fences rows' (db w)) w))
  | row :: _ =>
    (inr (Deleted fence_id (column "fence_name" (soft_deleted (now w) row)) "围栏删除成功"),
     set_log (log w ++ ["围栏缓存已清理"])
       (set_db (set_overlaps
                  (List.filter (λ r, negb (mentions fence_id r)) (fence_overlaps (db w)))
                  (set_fences rows' (db w))) w))
  end.
Proof.
  intros Hpool hit rows rows'. unfold delete_fence. run.
  destruct (get_db_connection_ready false w Hpool) as [p ->].
  unfold sql_update_fences, sql_delete_overlaps_of, clear_fence_cache. run.
  fold hit. fold rows.
  destruct (List.filter hit rows) as [|row rest]; simpl; reflexivity.
Qed.

Lemma not_mentioned (fence_id : Z) (o : overlap_row) :
  negb (mentions fence_id o) = true ↔
  OverlapRow.fence_id_1 o ≠ fence_id ∧ OverlapRow.fence_id_2 o ≠ fence_id.
Proof.
  unfold mentions. rewrite negb_true_iff, orb_false_iff, !bool_decide_eq_false. tauto.
Qed.

(** C6. With the pool initialised: deleting a fence whose rows are all in
    the deleted state fails with the not-found error and leaves the store
    and the caches as they were; deleting an active fence succeeds, leaves
    its row with status deleted and the deletion instant, leaves no active
    row of that identity, and removes exactly the overlap rows that name the
    fence on either side. *)
Theorem C6_soft_delete (fence_id : Z) (operator_id : option Z) (w : world) :
  db_pool w = true →
  ((∀ r, r ∈ electronic_fences (db w) → has_id fence_id r = true →
         status_eq "deleted" r = true) →
   (delete_fence fence_id operator_id w).1
     = inr (Failure "围栏不存在或已被删除" "围栏删除失败")
   ∧ db (delete_fence fence_id operator_id w).2 = db w
   ∧ memory_cache (delete_fence fence_id operator_id w).2 = memory_cache w
   ∧ redis_client (delete_fence fence_id operator_id w).2 = redis_client w)
  ∧ (∀ row, row ∈ electronic_fences (db w) → has_id fence_id row = true →
            status_eq "active" row = true →
     (∃ name, (delete_fence fence_id operator_id w).1
                = inr (Deleted fence_id name "围栏删除成功"))
     ∧ soft_deleted (now w) row ∈ electronic_fences (db (delete_fence fence_id operator_id w).2)
     ∧ (∀ r', r' ∈ electronic_fences (db (delete_fence fence_id operator_id w).2) →
              has_id fence_id r' = true → status_eq "active" r' = false)
     ∧ (∀ o, o ∈ fence_overlaps (db (delete_fence fence_id operator_id w).2) ↔
             o ∈ fence_overlaps (db w)
             ∧ OverlapRow.fence_id_1 o ≠ fence_id ∧ OverlapRow.fence_id_2 o ≠ fence_id)).
Proof.
  intros Hpool. rewrite (delete_fence_run fence_id operator_id w Hpool).
  set (hit := λ r : fence_row, has_id fence_id r && status_ne "deleted" r).
  split.
  - intros Hdel.
    assert (∀ r, r ∈ electronic_fences (db w) → hit r = false) as Hmiss.
    { intros r Hr. unfold hit. destruct (has_id fence_id r) eqn:Hid; [|done].
      simpl. by rewrite (status_eq_ne r "deleted" "deleted" (Hdel r Hr Hid)). }
    rewrite (filter_nothing hit _ Hmiss). simpl.
    rewrite (map_untouched hit _ _ Hmiss), set_fences_same. done.
  - intros row Hrow Hid Hact.
    assert (hit row = true) as Hhit.
    { unfold hit. rewrite Hid. simpl.
      by rewrite (status_eq_ne row "active" "deleted" Hact). }
    destruct (filter_something hit _ row Hrow Hhit) as (first & rest & ->). simpl.
    split; [by eexists|]. split; [|split].
    + apply list_elem_of_In, in_map_iff. exists row.
      split; [|by apply list_elem_of_In].
      change ((if hit row then soft_deleted (now w) row else row) = soft_deleted (now w) row).
      by rewrite Hhit.
    + intros r' Hr' Hid'. apply list_elem_of_In, in_map_iff in Hr' as (r & Heq & Hr).
      assert (r' = if hit r then soft_deleted (now w) r else r) as ->
        by (symmetry; exact Heq).
      clear Heq. destruct (hit r) eqn:Hr_hit.
      * apply (soft_deleted_not_active fence_id).
      * destruct (status_eq "active" r) eqn:Hr_act; [|done].
        unfold hit in Hr_hit. rewrite Hid' in Hr_hit. simpl in Hr_hit.
        by rewrite (status_eq_ne r "active" "deleted" Hr_act) in Hr_hit.
    + intros o. rewrite list_elem_of_In, filter_In, <- list_elem_of_In.
      by rewrite not_mentioned.
Qed.

Lemma C6_soft_delete_witness :
  let store :=
    {| electronic_fences := [Demo.deleted_fence 1 "A"; Demo.active_fence 2 "B"];
       fence_overlaps :=
         [ {| OverlapRow.fence_id_1 := 2; OverlapRow.fence_id_2 := 3;
              OverlapRow.overlap_area := 25; OverlapRow.overlap_percentage_1 := 50;
              OverlapRow.overlap_percentage_2 := 0; OverlapRow.overlap_type := "partial";
              OverlapRow.detected_at := 900 |} ];
       next_fence_id := 4 |} in
  let w := Demo.started store ∅ None in
  ((delete_fence 1 None w).1 = inr (Failure "围栏不存在或已被删除" "围栏删除失败")
   ∧ db (delete_fence 1 None w).2 = db w)
  ∧ (∃ name, (delete_fence 2 None w).1 = inr (Deleted 2 name "围栏删除成功"))
  ∧ fence_overlaps (db (delete_fence 2 None w).2) = [].
Proof.
  intros store w. split; [|split].
  - destruct (proj1 (C6_soft_delete 1 None w eq_refl)) as (H1 & H2 & _); [|by split].
    intros r Hr Hid.
    change (r ∈ [Demo.deleted_fence 1 "A"; Demo.active_fence 2 "B"]) in Hr.
    apply elem_of_cons in Hr as [->|Hr]; [vm_compute; reflexivity|].
    apply elem_of_cons in Hr as [->|Hr]; [vm_compute in Hid; discriminate Hid|inversion Hr].
  - apply (proj2 (C6_soft_delete 2 None w eq_refl) (Demo.active_fence 2 "B")).
    + change (Demo.active_fence 2 "B" ∈ [Demo.deleted_fence 1 "A"; Demo.active_fence 2 "B"]).
      apply elem_of_cons. right. apply elem_of_cons. by left.
    + vm_compute; reflexivity.
    + vm_compute; reflexivity.
  - vm_compute. reflexivity.
Defined.


(** *** What the geometry helpers leave untouched *)

Lemma logged_refl (w : world) : logged w w.
Proof. exists []. rewrite app_nil_r. by destruct w. Qed.

Lemma logged_line (w : world) (line : string) : logged w (set_log (log w ++ [line]) w).
Proof. by exists [line]. Qed.

Lemma logged_trans (w1 w2 w3 : world) : logged w1 w2 → logged w2 w3 → logged w1 w3.
Proof.
  intros [l1 ->] [l2 ->]. exists (l1 ++ l2)%list. simpl. by rewrite app_assoc.
Qed.

Lemma logged_frame (w w' : world) :
  logged w w' →
  db w' = db w ∧ db_pool w' = db_pool w ∧ memory_cache w' = memory_cache w
  ∧ redis_client w' = redis_client w ∧ now w' = now w.
Proof. by intros [l ->]. Qed.

(** Validation never raises; it answers and at most logs. *)
Lemma validate_geometry_logs (E : collaborators) (g : geometry_data) (w : world) :
  ∃ valid w', validate_geometry E g w = (inr valid, w') ∧ logged w w'.
Proof.
  unfold validate_geometry. run.
  destruct (load_geometry E g) as [e|[g0|]]; simpl.
  - eexists _, _. split; [done|apply logged_line].
  - destruct (is_valid E g0); simpl.
    + eexists _, _. split; [done|apply logged_refl].
    + destruct (make_valid E g0); simpl; eexists _, _;
        (split; [done|]); [apply logged_line|apply logged_refl].
  - eexists _, _. split; [done|apply logged_refl].
Qed.

Lemma convert_geojson_to_wkt_logs (E : collaborators) (g : geojson) (w w' : world)
    (r : exn + string) :
  convert_geojson_to_wkt E g w = (r, w') → logged w w'.
Proof.
  unfold convert_geojson_to_wkt. run.
  destruct (decide (g_type g = Some "Polygon")); simpl.
  - destruct (default [] (g_coordinates g)) as [|ext holes]; simpl.
    + intros [= _ <-]. apply logged_line.
    + destruct (map _ holes); simpl; intros [= _ <-]; apply logged_refl.
  - intros [= _ <-]. apply logged_line.
Qed.

(** The area and the bounds never raise: a failure is logged and answered
    by zero. *)
Lemma calculate_fence_area_logs (E : collaborators) (wkt : string) (w : world) :
  ∃ a w', calculate_fence_area E wkt w = (inr a, w') ∧ logged w w'.
Proof.
  unfold calculate_fence_area. run.
  destruct (wkt_loads E wkt) as [e|g]; simpl.
  - eexists _, _. split; [done|apply logged_line].
  - destruct (transform_to_3857 E g); simpl; eexists _, _;
      (split; [done|]); [apply logged_line|apply logged_refl].
Qed.

Lemma calculate_fence_bounds_logs (E : collaborators) (wkt : string) (w : world) :
  ∃ b w', calculate_fence_bounds E wkt w = (inr b, w') ∧ logged w w'.
Proof.
  unfold calculate_fence_bounds. run.
  destruct (wkt_loads E wkt) as [e|g]; simpl; eexists _, _;
    (split; [done|]); [apply logged_line|apply logged_refl].
Qed.

(** *** Failing detection *)

Lemma detect_fence_overlaps_failed (E : collaborators) (fence_id : Z) (w : world) (e : exn) :
  db_pool w = true →
  sql_detect_fence_overlaps E (db w) fence_id = inl e →
  detect_fence_overlaps E fence_id w
  = (inr [], set_log (log w ++ [("检测围栏重叠失败: " ++ exn_str e)%string]) w).
Proof.
  intros Hpool Hfail. unfold detect_fence_overlaps. run.
  destruct (get_db_connection_ready true w Hpool) as [p ->].
  by rewrite Hfail.
Qed.

Lemma detect_fence_overlaps_nothing (E : collaborators) (fence_id : Z) (w : world) :
  db_pool w = true →
  sql_detect_fence_overlaps E (db w) fence_id = inr [] →
  detect_fence_overlaps E fence_id w = (inr [], w).
Proof.
  intros Hpool Hnone. unfold detect_fence_overlaps. run.
  destruct (get_db_connection_ready true w Hpool) as [p ->].
  by rewrite Hnone.
Qed.

Lemma detect_fence_overlaps_no_pool (E : collaborators) (fence_id : Z) (w : world) :
  db_pool w = false →
  ∃ line, detect_fence_overlaps E fence_id w = (inr [], set_log (log w ++ [line]) w).
Proof.
  intros Hpool. unfold detect_fence_overlaps. run.
  rewrite (get_db_connection_down true w Hpool). by eexists.
Qed.

Lemma get_db_connection_inv (read_only : bool) (w w' : world) (p : pool) :
  get_db_connection read_only w = (inr p, w') → db_pool w = true ∧ w' = w.
Proof.
  destruct (db_pool w) eqn:Hpool.
  - destruct (get_db_connection_ready read_only w Hpool) as [q ->]. by intros [= _ <-].
  - by rewrite (get_db_connection_down read_only w Hpool).
Qed.

(** Close the case of an operation that has already failed. *)
Ltac failed := split; [done | intros ? [= <-]; discriminate].

(** Whatever the detection procedure of the store answers, the steps of a
    creation before detection are the same. *)
Lemma create_fence_detection_blind (E : collaborators)
    (detect1 detect2 : database → Z → exn + list detected)
    (fence_name : string) (fence_geometry : geometry_data) (fence_type : string)
    (fence_purpose fence_description : option string) (fence_color : string)
    (fence_opacity : Q) (group_id owner_id creator_id : option Z)
    (fence_tags fence_config : option (list (string * string))) (w : world) :
  (∀ d i, detect1 d i = inr [] ∨ ∃ e, detect1 d i = inl e) →
  (∀ d i, detect2 d i = inr [] ∨ ∃ e, detect2 d i = inl e) →
  (create_fence (with_detect E detect1) fence_name fence_geometry fence_type fence_purpose
     fence_description fence_color fence_opacity group_id owner_id creator_id fence_tags
     fence_config w).1
  = (create_fence (with_detect E detect2) fence_name fence_geometry fence_type fence_purpose
       fence_description fence_color fence_opacity group_id owner_id creator_id fence_tags
       fence_config w).1
  ∧ ∀ r, (create_fence (with_detect E detect1) fence_name fence_geometry fence_type
            fence_purpose fence_description fence_color fence_opacity group_id owner_id
            creator_id fence_tags fence_config w).1 = inr r →
         success r = true →
         ∃ fence_area,
           r = Created (next_fence_id (db w)) fence_name fence_area false 0 "围栏创建成功".
Proof.
  intros Hd1 Hd2. unfold create_fence. run.
  change (validate_geometry (with_detect E _)) with (validate_geometry E).
  destruct (validate_geometry E fence_geometry w) as [[e0|[|]] w1] eqn:Hval; simpl;
    [failed| |failed].
  assert (db w1 = db w) as Hdb1.
  { revert Hval. unfold validate_geometry. run.
    destruct (load_geometry E fence_geometry) as [e1|[g|]]; simpl;
      [intros [=]| |intros [=]].
    destruct (is_valid E g); simpl; [by intros [= _ <-]|].
    destruct (make_valid E g); simpl; [intros [=]|by intros [= _ <-]]. }
  change (convert_geojson_to_wkt (with_detect E _)) with (convert_geojson_to_wkt E).
  match goal with
  | |- context [let (_, _) := ?m w1 in _] =>
    destruct (m w1) as [[e1|wkt] w2] eqn:Hconv; simpl; [failed|]
  end.
  assert (db w2 = db w) as Hdb2.
  { rewrite <- Hdb1. revert Hconv. destruct fence_geometry as [text|g|]; simpl.
    - by intros [= _ <-].
    - unfold convert_geojson_to_wkt. run.
      destruct (decide (g_type g = Some "Polygon")); simpl; [|discriminate].
      destruct (default [] (g_coordinates g)) as [|ext holes]; simpl; [discriminate|].
      destruct (map _ holes); simpl; by intros [= _ <-].
    - discriminate. }
  change (calculate_fence_area (with_detect E _)) with (calculate_fence_area E).
  change (calculate_fence_bounds (with_detect E _)) with (calculate_fence_bounds E).
  destruct (calculate_fence_area E wkt w2) as [[e2|fence_area] w3] eqn:Harea; simpl; [failed|].
  destruct (calculate_fence_bounds E wkt w3) as [[e3|b] w4] eqn:Hbounds; simpl; [failed|].
  assert (db w4 = db w) as Hdb4.
  { rewrite <- Hdb2. revert Harea Hbounds.
    unfold calculate_fence_area, calculate_fence_bounds. run.
    destruct (wkt_loads E wkt) as [?|g]; simpl.
    - intros [= _ <-] [= _ <-]. done.
    - destruct (transform_to_3857 E g); simpl; intros [= _ <-] [= _ <-]; done. }
  destruct (get_db_connection false w4) as [[e4|p] w5] eqn:Hconn; simpl; [failed|].
  apply get_db_connection_inv in Hconn as [Hpool ->].
  destruct (ST_GeomFromText E wkt) as [e5|[]]; simpl; [failed|].
  change (dumps_if_any (with_detect E _)) with (dumps_if_any E).
  match goal with
  | |- context [detect_fence_overlaps (with_detect E detect1) ?i ?w0] =>
    assert (∃ w6, detect_fence_overlaps (with_detect E detect1) i w0 = (inr [], w6))
      as [w6 ->];
    [destruct (Hd1 (db w0) i) as [H|[e6 H]];
     [rewrite (detect_fence_overlaps_nothing (with_detect E detect1) i w0 Hpool H)
     |rewrite (detect_fence_overlaps_failed (with_detect E detect1) i w0 e6 Hpool H)];
     by eexists|];
    assert (∃ w7, detect_fence_overlaps (with_detect E detect2) i w0 = (inr [], w7))
      as [w7 ->];
    [destruct (Hd2 (db w0) i) as [H|[e6 H]];
     [rewrite (detect_fence_overlaps_nothing (with_detect E detect2) i w0 Hpool H)
     |rewrite (detect_fence_overlaps_failed (with_detect E detect2) i w0 e6 Hpool H)];
     by eexists|]
  end.
  simpl. split; [done|]. intros r [= <-] _. rewrite Hdb4. by eexists.
Qed.

(** The same for an update, with or without a new geometry. *)
Lemma update_fence_detection_blind (E : collaborators)
    (detect1 detect2 : database → Z → exn + list detected)
    (fence_id : Z) (fence_name : option string) (fence_geometry : option geometry_data)
    (fence_purpose fence_description fence_color : option string)
    (fence_opacity : option Q) (fence_tags fence_config : option (list (string * string)))
    (operator_id : option Z) (w : world) :
  (∀ d i, detect1 d i = inr [] ∨ ∃ e, detect1 d i = inl e) →
  (∀ d i, detect2 d i = inr [] ∨ ∃ e, detect2 d i = inl e) →
  (update_fence (with_detect E detect1) fence_id fence_name fence_geometry fence_purpose
     fence_description fence_color fence_opacity fence_tags fence_config operator_id w).1
  = (update_fence (with_detect E detect2) fence_id fence_name fence_geometry fence_purpose
       fence_description fence_color fence_opacity fence_tags fence_config operator_id w).1
  ∧ ∀ r, (update_fence (with_detect E detect1) fence_id fence_name fence_geometry
            fence_purpose fence_description fence_color fence_opacity fence_tags
            fence_config operator_id w).1 = inr r →
         success r = true →
         ∃ name fence_area, r = Updated fence_id name fence_area false 0 "围栏更新成功".
Proof.
  intros Hd1 Hd2. unfold update_fence. run.
  destruct (get_db_connection false w) as [[e0|p] w1] eqn:Hconn; simpl; [failed|].
  apply get_db_connection_inv in Hconn as [Hpool ->].
  change (validate_geometry (with_detect E _)) with (validate_geometry E).
  change (convert_geojson_to_wkt (with_detect E _)) with (convert_geojson_to_wkt E).
  change (json_dumps (with_detect E _)) with (json_dumps E).
  match goal with
  | |- context [let (_, _) := ?m w in _] =>
    destruct (m w) as [[e1|wkt] w2] eqn:Hconv; simpl; [failed|]
  end.
  assert (db_pool w2 = true) as Hpool2.
  { rewrite <- Hpool. revert Hconv. destruct fence_geometry as [g|]; [|by intros [= _ <-]].
    destruct (validate_geometry_logs E g w) as (valid & w' & -> & Hlog).
    apply logged_frame in Hlog as (_ & Hp & _). rewrite <- Hp.
    destruct valid; simpl; [|intros [=]].
    destruct g as [text|d|]; simpl; [by intros [= _ <-]| |intros [=]].
    destruct (convert_geojson_to_wkt E d w') as [[e2|text] w''] eqn:Hc; simpl;
      [intros [=]|].
    intros [= _ <-]. by apply convert_geojson_to_wkt_logs, logged_frame in Hc as (_ & ? & _). }
  match goal with
  | |- context [match ?fields with [] => _ | _ :: _ => _ end] =>
    destruct fields as [|field fields']; simpl; [failed|]
  end.
  match goal with
  | |- context [let (_, _) := ?m w2 in _] =>
    destruct (m w2) as [[e3|[]] w3] eqn:Hgeom; simpl; [failed|]
  end.
  assert (db_pool w3 = true) as Hpool3.
  { rewrite <- Hpool2. revert Hgeom. destruct wkt as [text|]; simpl.
    - destruct (ST_GeomFromText E text); intros H; by inversion H.
    - intros H. by inversion H. }
  unfold sql_update_fences. run.
  match goal with
  | |- context [match head ?rows with Some _ => _ | None => _ end] =>
    destruct (head rows) as [row|]; simpl; [|failed]
  end.
  destruct fence_geometry as [g|]; simpl.
  - match goal with
    | |- context [detect_fence_overlaps (with_detect E detect1) ?i ?w0] =>
      assert (∃ w6, detect_fence_overlaps (with_detect E detect1) i w0 = (inr [], w6))
        as [w6 ->];
      [destruct (Hd1 (db w0) i) as [H|[e6 H]];
       [rewrite (detect_fence_overlaps_nothing (with_detect E detect1) i w0 Hpool3 H)
       |rewrite (detect_fence_overlaps_failed (with_detect E detect1) i w0 e6 Hpool3 H)];
       by eexists|];
      assert (∃ w7, detect_fence_overlaps (with_detect E detect2) i w0 = (inr [], w7))
        as [w7 ->];
      [destruct (Hd2 (db w0) i) as [H|[e6 H]];
       [rewrite (detect_fence_overlaps_nothing (with_detect E detect2) i w0 Hpool3 H)
       |rewrite (detect_fence_overlaps_failed (with_detect E detect2) i w0 e6 Hpool3 H)];
       by eexists|]
    end.
    simpl. split; [done|]. intros r [= <-] _. by eexists _, _.
  - split; [done|]. intros r [= <-] _. by eexists _, _.
Qed.

(** C9. When its store procedure fails, or the pool is missing, overlap
    detection returns the empty list and leaves the store as it was; a
    creation or a geometry-changing update whose detection fails answers
    exactly what it answers when detection finds nothing, and where it
    succeeds it reports no overlap detected and a count of zero. *)
Theorem C9_failed_detection_is_silent (E : collaborators) (e : exn) :
  (∀ fence_id w,
     db_pool w = false ∨ sql_detect_fence_overlaps E (db w) fence_id = inl e →
     ∃ w', detect_fence_overlaps E fence_id w = (inr [], w') ∧ db w' = db w)
  ∧ (∀ fence_name fence_geometry fence_type fence_purpose fence_description fence_color
       fence_opacity group_id owner_id creator_id fence_tags fence_config w,
     (create_fence (with_detect E (λ _ _, inl e)) fence_name fence_geometry fence_type
        fence_purpose fence_description fence_color fence_opacity group_id owner_id
        creator_id fence_tags fence_config w).1
     = (create_fence (with_detect E (λ _ _, inr [])) fence_name fence_geometry fence_type
          fence_purpose fence_description fence_color fence_opacity group_id owner_id
          creator_id fence_tags fence_config w).1
     ∧ ∀ r, (create_fence (with_detect E (λ _ _, inl e)) fence_name fence_geometry
               fence_type fence_purpose fence_description fence_color fence_opacity
               group_id owner_id creator_id fence_tags fence_config w).1 = inr r →
            success r = true →
            ∃ fence_area,
              r = Created (next_fence_id (db w)) fence_name fence_area false 0 "围栏创建成功")
  ∧ (∀ fence_id fence_name g fence_purpose fence_description fence_color fence_opacity
       fence_tags fence_config operator_id w,
     (update_fence (with_detect E (λ _ _, inl e)) fence_id fence_name (Some g)
        fence_purpose fence_description fence_color fence_opacity fence_tags fence_config
        operator_id w).1
     = (update_fence (with_detect E (λ _ _, inr [])) fence_id fence_name (Some g)
          fence_purpose fence_description fence_color fence_opacity fence_tags
          fence_config operator_id w).1
     ∧ ∀ r, (update_fence (with_detect E (λ _ _, inl e)) fence_id fence_name (Some g)
               fence_purpose fence_description fence_color fence_opacity fence_tags
               fence_config operator_id w).1 = inr r →
            success r = true →
            ∃ name fence_area, r = Updated fence_id name fence_area false 0 "围栏更新成功").
Proof.
  split; [|split].
  - intros fence_id w [Hpool|Hfail].
    + destruct (detect_fence_overlaps_no_pool E fence_id w Hpool) as [line ->].
      by eexists.
    + destruct (db_pool w) eqn:Hpool.
      * rewrite (detect_fence_overlaps_failed E fence_id w e Hpool Hfail). by eexists.
      * destruct (detect_fence_overlaps_no_pool E fence_id w Hpool) as [line ->].
        by eexists.
  - intros. apply create_fence_detection_blind; intros; eauto.
  - intros. apply update_fence_detection_blind; intros; eauto.
Qed.

Lemma C9_failed_detection_is_silent_witness :
  let w := Demo.started Demo.empty_store ∅ None in
  (∃ w', detect_fence_overlaps Demo.broken_detection 1 w = (inr [], w') ∧ db w' = db w)
  ∧ (∃ fence_area,
       (create_fence Demo.broken_detection "A" (Demo.square 1) "polygon" None None
          "#FF0000" (3 # 10) None None None None None w).1
       = inr (Created 1 "A" fence_area false 0 "围栏创建成功")).
Proof.
  intros w.
  pose proof (C9_failed_detection_is_silent Demo.quiet
                (Exception "function detect_fence_overlaps does not exist")) as (H1 & H2 & _).
  split.
  - apply (C9_failed_detection_is_silent Demo.broken_detection
             (Exception "function detect_fence_overlaps does not exist")).
    right. reflexivity.
  - assert (∃ r, (create_fence Demo.broken_detection "A" (Demo.square 1) "polygon" None
                    None "#FF0000" (3 # 10) None None None None None w).1 = inr r
                 ∧ success r = true) as (r & Hr & Hs).
    { eexists. split; vm_compute; reflexivity. }
    destruct (proj2 (H2 "A" (Demo.square 1) "polygon" None None "#FF0000" (3 # 10)%Q
                       None None None None None w) r Hr Hs) as [fence_area ->].
    exists fence_area. exact Hr.
Defined.

(** *** Import *)









(** * Further properties *)

(** ** The zoom helpers around the table *)

Section ZoomConfigFacts.

Import Zoom ZoomSpec ZoomConfig.

Lemma configured_well_formed (layer : string) (s : layer_strategy) :
  LAYER_ZOOM_STRATEGIES !! layer = Some s → well_formed s = true.
Proof. intros H. exact (table_well_formed layer s H). Qed.

(** A configured layer is loaded exactly when it is always loaded or the
    zoom has reached its [min_zoom]. *)
Lemma resolver_loads (layer : string) (s : layer_strategy) (zoom : Z) :
  LAYER_ZOOM_STRATEGIES !! layer = Some s →
  ∃ p, get_layer_zoom_strategy layer zoom = inr p ∧
       (Zoom.load_data p = true ↔ truthy (always_load s) = true ∨ min_zoom s ≤ zoom).
Proof.
  intros Hs.
  destruct (resolve_prescribed layer zoom s Hs (configured_well_formed _ _ Hs))
    as (p & Hp & Hpre).
  exists p. split; [done|].
  destruct Hpre as [Hn _ | s' t l Hs' Ha _ Hl _ _ _ | s' Hs' Ha Hz ->
                    | s' m Hs' Ha Hz _ _ Hl _ _ | s' t l Hs' Ha Hz _ _ Hl _ _ _];
    [congruence | rewrite Hs in Hs'; injection Hs' as <- ..].
  - split; [by left | done].
  - cbn [refuse Zoom.load_data]. split; [done|]. intros [H | H]; [congruence | lia].
  - split; [by right | done].
  - split; [by right | done].
Qed.

Lemma resolver_below_min_zoom (layer : string) (s : layer_strategy) (zoom : Z) :
  LAYER_ZOOM_STRATEGIES !! layer = Some s →
  truthy (always_load s) = false →
  zoom < min_zoom s →
  get_layer_zoom_strategy layer zoom = inr (refuse "zoom_too_low").
Proof.
  intros Hs Ha Hz. unfold get_layer_zoom_strategy, get_layer_zoom_strategy_on.
  rewrite Hs. simpl. rewrite Ha.
  by destruct (Z.ltb_spec zoom (min_zoom s)); [|lia].
Qed.

(** X1. [validate_zoom_strategy] and the resolver. *)
Theorem validate_zoom_strategy_agrees_with_resolver :
  (∀ layer zoom,
     validate_zoom_strategy layer zoom = true →
     ∃ p, get_layer_zoom_strategy layer zoom = inr p ∧ Zoom.load_data p = true)
  ∧ (∀ layer s zoom p,
       LAYER_ZOOM_STRATEGIES !! layer = Some s →
       truthy (always_load s) = false →
       zoom ≤ max_zoom s →
       get_layer_zoom_strategy layer zoom = inr p →
       Zoom.load_data p = true →
       validate_zoom_strategy layer zoom = true).
Proof.
  split.
  - intros layer zoom. unfold validate_zoom_strategy.
    destruct (LAYER_ZOOM_STRATEGIES !! layer) as [s|] eqn:Hs; [|done].
    intros [Hlo _]%andb_prop. apply Z.leb_le in Hlo.
    destruct (resolver_loads layer s zoom Hs) as (p & Hp & Hl).
    exists p. split; [done|]. apply Hl. by right.
  - intros layer s zoom p Hs Ha Hmax Hp Hload. unfold validate_zoom_strategy.
    rewrite Hs. destruct (resolver_loads layer s zoom Hs) as (p' & Hp' & Hl).
    rewrite Hp in Hp'. injection Hp' as <-.
    apply Hl in Hload as [H | H]; [congruence|].
    apply andb_true_intro. split; by apply Z.leb_le.
Qed.

Lemma validate_zoom_strategy_agrees_with_resolver_witness :
  (∃ p, get_layer_zoom_strategy "water" 11 = inr p ∧ Zoom.load_data p = true)
  ∧ validate_zoom_strategy "pois" 9 = true.
Proof.
  split.
  - apply (proj1 validate_zoom_strategy_agrees_with_resolver "water" 11).
    reflexivity.
  - apply (proj2 validate_zoom_strategy_agrees_with_resolver "pois"
             (mk_layer 9 20 None [(9, 3000); (12, 5000); (16, 8000)]) 9
             {| Zoom.load_data := true; Zoom.reason := "zoom_9_strategy";
                Zoom.max_features := Some 3000; Zoom.simplify_tolerance := Some 100;
                Zoom.cache_ttl := Some 465 |});
      [vm_compute; reflexivity | reflexivity | simpl; lia
      | vm_compute; reflexivity | reflexivity].
Defined.

(** X2. The recommended zoom of a layer that is not always loaded is the
    least zoom at which the resolver loads it. *)
Theorem recommended_zoom_is_least_loading_zoom (layer : string) (s : layer_strategy) :
  LAYER_ZOOM_STRATEGIES !! layer = Some s →
  truthy (always_load s) = false →
  (∃ p, get_layer_zoom_strategy layer (get_recommended_zoom_for_layer layer) = inr p
        ∧ Zoom.load_data p = true)
  ∧ (∀ zoom, zoom < get_recommended_zoom_for_layer layer →
       get_layer_zoom_strategy layer zoom = inr (refuse "zoom_too_low")).
Proof.
  intros Hs Ha. unfold get_recommended_zoom_for_layer. rewrite Hs. split.
  - destruct (resolver_loads layer s (min_zoom s) Hs) as (p & Hp & Hl).
    exists p. split; [done|]. apply Hl. right. lia.
  - intros zoom Hz. by apply (resolver_below_min_zoom layer s).
Qed.

Lemma recommended_zoom_is_least_loading_zoom_witness :
  (∃ p, get_layer_zoom_strategy "traffic" (get_recommended_zoom_for_layer "traffic") = inr p
        ∧ Zoom.load_data p = true)
  ∧ (∀ zoom, zoom < get_recommended_zoom_for_layer "traffic" →
       get_layer_zoom_strategy "traffic" zoom = inr (refuse "zoom_too_low")).
Proof.
  apply (recommended_zoom_is_least_loading_zoom "traffic"
           (mk_layer 13 20 None [(13, 3000); (16, 6000)]));
    [vm_compute; reflexivity | reflexivity].
Defined.

End ZoomConfigFacts.

Section ZoomQualityFacts.

Import Zoom ZoomSpec ZoomConfig.

(** The resolver over a list of entries, as [get_all_layers_zoom_strategy]
    folds it. *)
Lemma resolve_entries (zoom : Z) (entries : list (string * layer_strategy)) :
  (∀ entry, entry ∈ entries → ∃ p, get_layer_zoom_strategy entry.1 zoom = inr p) →
  ∃ result : gmap string policy,
    foldr (λ entry (acc : exn + gmap string policy),
             match acc with
             | inl e => inl e
             | inr result =>
               match get_layer_zoom_strategy entry.1 zoom with
               | inl e => inl e
               | inr p => inr (<[entry.1 := p]> result)
               end
             end) (inr ∅) entries = inr result
    ∧ ∀ layer p, result !! layer = Some p ↔
        layer ∈ entries.*1 ∧ get_layer_zoom_strategy layer zoom = inr p.
Proof.
  induction entries as [|[layer s] entries IH]; intros Hall.
  - exists ∅. split; [done|]. intros layer p. rewrite lookup_empty.
    split; [done|]. by intros [?%elem_of_nil _].
  - destruct IH as (result & Hr & IH).
    { intros entry He. apply Hall. by right. }
    destruct (Hall (layer, s)) as [p Hp]; [by left|].
    cbn [fst] in Hp. cbn [foldr fst]. rewrite Hr, Hp. exists (<[layer := p]> result). split; [done|].
    intros layer' p'. rewrite fmap_cons. cbn [fst].
    destruct (decide (layer' = layer)) as [->|Hne].
    + rewrite lookup_insert_eq, Hp. split.
      * intros [= <-]. split; [by left | done].
      * by intros [_ [= <-]].
    + rewrite lookup_insert_ne by done. rewrite IH, elem_of_cons.
      split; [intros [? ?]; split; [by right | done]
             | intros [[?|?] ?]; [done | by split]].
Qed.

(** X3. [get_all_layers_zoom_strategy] answers for every zoom, with the
    resolver's policy for each configured layer and nothing else; from zoom
    16 on every entry is loaded unsimplified. *)
Theorem get_all_layers_zoom_strategy_spec (zoom : Z) :
  ∃ result,
    get_all_layers_zoom_strategy zoom = inr result
    ∧ (∀ layer p, result !! layer = Some p ↔
         is_Some (LAYER_ZOOM_STRATEGIES !! layer)
         ∧ get_layer_zoom_strategy layer zoom = inr p)
    ∧ (16 ≤ zoom → ∀ layer p, result !! layer = Some p →
         Zoom.load_data p = true ∧ Zoom.simplify_tolerance p = Some 0).
Proof.
  destruct (resolve_entries zoom (map_to_list LAYER_ZOOM_STRATEGIES))
    as (result & Hr & Hall).
  { intros [layer s] Hin%elem_of_map_to_list.
    destruct (resolver_loads layer s zoom Hin) as (p & Hp & _). by exists p. }
  assert (Hdom : ∀ layer, layer ∈ (map_to_list LAYER_ZOOM_STRATEGIES).*1
                          ↔ is_Some (LAYER_ZOOM_STRATEGIES !! layer)).
  { intros layer. rewrite list_elem_of_fmap. split.
    - intros ([l s] & -> & Hin%elem_of_map_to_list). by exists s.
    - intros [s Hs]. exists (layer, s). split; [done|]. by apply elem_of_map_to_list. }
  exists result. split; [exact Hr|]. split.
  - intros layer p. by rewrite Hall, Hdom.
  - intros Hz layer p [[s Hs]%Hdom Hp]%Hall.
    destruct (resolve_prescribed layer zoom s Hs (configured_well_formed _ _ Hs))
      as (p' & Hp' & Hpre).
    rewrite Hp in Hp'. injection Hp' as <-.
    assert (Hmin : map_Forall (λ _ s, min_zoom s ≤ 16) LAYER_ZOOM_STRATEGIES).
    { apply map_Forall_to_list. vm_compute.
      repeat (apply Forall_cons; split; [by intros ?|]). apply Forall_nil_2. }
    specialize (Hmin _ _ Hs). simpl in Hmin.
    destruct Hpre as [Hn _ | s' t l Hs' Ha _ Hl _ Ht _ | s' Hs' Ha Hlow _
                      | s' m Hs' Ha Hlow _ _ Hl _ Ht | s' t l Hs' Ha Hlow Hhi _ Hl _ _ _].
    + congruence.
    + by split.
    + rewrite Hs in Hs'. injection Hs' as <-. lia.
    + by split.
    + lia.
Qed.

(** The quality fields of a loading policy. *)
Lemma resolver_quality (layer : string) (s : layer_strategy) (zoom : Z) (p : policy) :
  LAYER_ZOOM_STRATEGIES !! layer = Some s →
  get_layer_zoom_strategy layer zoom = inr p →
  Zoom.load_data p = true →
  Zoom.cache_ttl p = Some (calc_cache_ttl zoom)
  ∧ Zoom.simplify_tolerance p
    = Some (if truthy (always_load s) || (16 <=? zoom) then 0
            else calc_simplify_tolerance zoom).
Proof.
  intros Hs. unfold get_layer_zoom_strategy, get_layer_zoom_strategy_on.
  rewrite Hs. simpl. unfold HIGH_ZOOM_THRESHOLD.
  destruct (truthy (always_load s)); simpl.
  - repeat case_match; intros; simplify_eq; done.
  - destruct (zoom <? min_zoom s); [by intros [= <-]|].
    destruct (16 <=? zoom);
      repeat case_match; intros; simplify_eq; done.
Qed.

(** X4. Zooming in on a layer never coarsens the simplification nor
    lengthens the caching of what is loaded; the caching time stays at or
    above five minutes. *)
Theorem zooming_in_refines (layer : string) (s : layer_strategy)
    (zoom1 zoom2 : Z) (p1 p2 : policy) :
  LAYER_ZOOM_STRATEGIES !! layer = Some s →
  zoom1 ≤ zoom2 →
  get_layer_zoom_strategy layer zoom1 = inr p1 →
  get_layer_zoom_strategy layer zoom2 = inr p2 →
  Zoom.load_data p1 = true →
  Zoom.load_data p2 = true →
  ∃ t1 t2 c1 c2,
    Zoom.simplify_tolerance p1 = Some t1 ∧ Zoom.simplify_tolerance p2 = Some t2
    ∧ Zoom.cache_ttl p1 = Some c1 ∧ Zoom.cache_ttl p2 = Some c2
    ∧ 0 ≤ t2 ≤ t1 ∧ 300 ≤ c2 ≤ c1.
Proof.
  intros Hs Hz H1 H2 L1 L2.
  destruct (resolver_quality layer s zoom1 p1 Hs H1 L1) as [Hc1 Ht1].
  destruct (resolver_quality layer s zoom2 p2 Hs H2 L2) as [Hc2 Ht2].
  eexists _, _, _, _. repeat (split; [eassumption|]).
  unfold calc_cache_ttl, calc_simplify_tolerance.
  destruct (truthy (always_load s)); simpl; [lia|].
  destruct (Z.leb_spec 16 zoom1), (Z.leb_spec 16 zoom2),
    (Z.ltb_spec zoom1 10), (Z.ltb_spec zoom1 12), (Z.ltb_spec zoom1 15),
    (Z.ltb_spec zoom2 10), (Z.ltb_spec zoom2 12), (Z.ltb_spec zoom2 15); lia.
Qed.

Lemma zooming_in_refines_witness :
  ∃ t1 t2 c1 c2,
    Zoom.simplify_tolerance
      {| Zoom.load_data := true; Zoom.reason := "zoom_9_strategy";
         Zoom.max_features := Some 5000; Zoom.simplify_tolerance := Some 100;
         Zoom.cache_ttl := Some 465 |} = Some t1
    ∧ Zoom.simplify_tolerance
        {| Zoom.load_data := true; Zoom.reason := "zoom_13_strategy";
           Zoom.max_features := Some 20000; Zoom.simplify_tolerance := Some 5;
           Zoom.cache_ttl := Some 390 |} = Some t2
    ∧ Zoom.cache_ttl
        {| Zoom.load_data := true; Zoom.reason := "zoom_9_strategy";
           Zoom.max_features := Some 5000; Zoom.simplify_tolerance := Some 100;
           Zoom.cache_ttl := Some 465 |} = Some c1
    ∧ Zoom.cache_ttl
        {| Zoom.load_data := true; Zoom.reason := "zoom_13_strategy";
           Zoom.max_features := Some 20000; Zoom.simplify_tolerance := Some 5;
           Zoom.cache_ttl := Some 390 |} = Some c2
    ∧ 0 ≤ t2 ≤ t1 ∧ 300 ≤ c2 ≤ c1.
Proof.
  apply (zooming_in_refines "roads"
           (mk_layer 7 20 None [(7, 3000); (9, 5000); (11, 10000); (13, 20000); (15, 30000)])
           9 14);
    [vm_compute; reflexivity | lia | vm_compute; reflexivity
    | vm_compute; reflexivity | reflexivity | reflexivity].
Defined.

End ZoomQualityFacts.

(** ** The table against the hard-coded strategies of services.py *)

Section LegacyFacts.

Import Zoom ZoomSpec ZoomConfig.

Lemma resolver_high_zoom (layer : string) (s : layer_strategy) (zoom m : Z) :
  LAYER_ZOOM_STRATEGIES !! layer = Some s →
  truthy (always_load s) = false →
  min_zoom s ≤ zoom → 16 ≤ zoom →
  limits s ≠ [] → py_max (values (limits s)) = inr m →
  get_layer_zoom_strategy layer zoom
  = inr {| Zoom.load_data := true; Zoom.reason := "high_zoom_all_layers";
           Zoom.max_features := Some m; Zoom.simplify_tolerance := Some 0;
           Zoom.cache_ttl := Some (calc_cache_ttl zoom) |}.
Proof.
  intros Hs Ha Hlo Hhi Hne Hm.
  unfold get_layer_zoom_strategy, get_layer_zoom_strategy_on, HIGH_ZOOM_THRESHOLD.
  rewrite Hs. cbn zeta. rewrite Ha.
  destruct (Z.ltb_spec zoom (min_zoom s)); [lia|].
  destruct (Z.leb_spec 16 zoom); [|lia].
  destruct (limits s); [done|]. by rewrite Hm.
Qed.

(** Decide the comparisons of a hard-coded strategy at a zoom whose range
    is known. *)
Ltac legacy :=
  unfold Legacy.get_zoom_strategy, Legacy.get_land_polygon_zoom_strategy,
    Legacy.get_roads_zoom_strategy, Legacy.none_or_below, Legacy.below;
  repeat match goal with
         | |- context [?a <? ?b] => destruct (Z.ltb_spec a b); [try lia | try lia]
         end.

(** Settle a comparison of the two policies at a given zoom by evaluation. *)
Ltac at_zoom :=
  eexists; split; [vm_compute; reflexivity|];
  repeat split; intros; try (vm_compute; reflexivity); try (vm_compute; congruence); try lia.

(** X5. The table entry of [buildings] and [get_zoom_strategy] load at the
    same zooms, exactly from zoom 6 on.  Where they load they give the same
    feature limit, and below zoom 16 the same simplification; from zoom 16
    the table simplifies by 0 and the function by 1.  Where they refuse, the
    policy of the table carries no limit and no simplification, the
    function gives 0 for both. *)
Theorem buildings_table_matches_get_zoom_strategy (zoom : Z) :
  ∃ p, get_layer_zoom_strategy "buildings" zoom = inr p
    ∧ Zoom.load_data p = Legacy.load_data (Legacy.get_zoom_strategy (Some zoom))
    ∧ (Zoom.load_data p = true →
       Zoom.max_features p
       = Some (Legacy.max_features (Legacy.get_zoom_strategy (Some zoom))))
    ∧ (Zoom.load_data p = true → zoom < 16 →
       Zoom.simplify_tolerance p
       = Some (Legacy.simplify_tolerance (Legacy.get_zoom_strategy (Some zoom))))
    ∧ (Zoom.load_data p = true ↔ 6 ≤ zoom)
    ∧ (zoom < 6 →
       Zoom.max_features p = None ∧ Zoom.simplify_tolerance p = None
       ∧ Legacy.max_features (Legacy.get_zoom_strategy (Some zoom)) = 0
       ∧ Legacy.simplify_tolerance (Legacy.get_zoom_strategy (Some zoom)) = 0)
    ∧ (16 ≤ zoom →
       Zoom.simplify_tolerance p = Some 0
       ∧ Legacy.simplify_tolerance (Legacy.get_zoom_strategy (Some zoom)) = 1).
Proof.
  destruct (Z.lt_ge_cases zoom 6) as [Hlow | Hlo].
  { eexists. split.
    - by apply (resolver_below_min_zoom "buildings"
                  (mk_layer 6 20 None [(6, 5000); (10, 15000); (12, 30000); (15, 50000)])).
    - simpl. repeat split; try discriminate; try lia; by legacy. }
  destruct (Z.lt_ge_cases zoom 16) as [Hmid | Hhi].
  { assert (Hz : zoom = 6 ∨ zoom = 7 ∨ zoom = 8 ∨ zoom = 9 ∨ zoom = 10 ∨ zoom = 11
                 ∨ zoom = 12 ∨ zoom = 13 ∨ zoom = 14 ∨ zoom = 15) by lia.
    repeat (destruct Hz as [-> | Hz]); [..| subst zoom]; at_zoom. }
  eexists. split.
  - by apply (resolver_high_zoom "buildings"
                (mk_layer 6 20 None [(6, 5000); (10, 15000); (12, 30000); (15, 50000)])
                zoom 50000).
  - simpl. repeat split; intros; try lia; try done; by legacy.
Qed.

(** X6. The table entry of [roads] loads from zoom 7, [get_roads_zoom_strategy]
    only from zoom 9; from there on the two give the same feature limit. *)
Theorem roads_table_and_get_roads_zoom_strategy (zoom : Z) :
  ∃ p, get_layer_zoom_strategy "roads" zoom = inr p
    ∧ (Zoom.load_data p = true ↔ 7 ≤ zoom)
    ∧ (Legacy.load_data (Legacy.get_roads_zoom_strategy (Some zoom)) = true ↔ 9 ≤ zoom)
    ∧ (9 ≤ zoom →
       Zoom.max_features p
       = Some (Legacy.max_features (Legacy.get_roads_zoom_strategy (Some zoom)))).
Proof.
  assert (Hlegacy : Legacy.load_data (Legacy.get_roads_zoom_strategy (Some zoom)) = true
                    ↔ 9 ≤ zoom).
  { legacy; simpl; split; (done || lia). }
  destruct (Z.lt_ge_cases zoom 7) as [Hlow | Hlo].
  { eexists. split.
    - by apply (resolver_below_min_zoom "roads"
                  (mk_layer 7 20 None
                     [(7, 3000); (9, 5000); (11, 10000); (13, 20000); (15, 30000)])).
    - repeat split; try done; try lia. apply Hlegacy. }
  destruct (Z.lt_ge_cases zoom 16) as [Hmid | Hhi].
  { assert (Hz : zoom = 7 ∨ zoom = 8 ∨ zoom = 9 ∨ zoom = 10 ∨ zoom = 11
                 ∨ zoom = 12 ∨ zoom = 13 ∨ zoom = 14 ∨ zoom = 15) by lia.
    repeat (destruct Hz as [-> | Hz]); [..| subst zoom];
      (eexists; split; [vm_compute; reflexivity|];
       split; [split; intros; [lia | vm_compute; reflexivity]|];
       split; [exact Hlegacy|]; intros; first [lia | vm_compute; reflexivity]). }
  eexists. split.
  - by apply (resolver_high_zoom "roads"
                (mk_layer 7 20 None
                   [(7, 3000); (9, 5000); (11, 10000); (13, 20000); (15, 30000)])
                zoom 30000).
  - repeat split; intros; try lia; try done; try apply Hlegacy; try lia; by legacy.
Qed.

(** X7. The table entry of [land_polygons] and
    [get_land_polygon_zoom_strategy] load at the same zooms and, below zoom
    16, with the same feature limit; from zoom 16 on the table allows 8000
    features where the function allows 3000. *)
Theorem land_polygons_table_and_get_land_polygon_zoom_strategy (zoom : Z) :
  ∃ p, get_layer_zoom_strategy "land_polygons" zoom = inr p
    ∧ Zoom.load_data p
      = Legacy.load_data (Legacy.get_land_polygon_zoom_strategy (Some zoom))
    ∧ (4 ≤ zoom < 16 →
       Zoom.max_features p
       = Some (Legacy.max_features (Legacy.get_land_polygon_zoom_strategy (Some zoom))))
    ∧ (16 ≤ zoom →
       Zoom.max_features p = Some 8000
       ∧ Legacy.max_features (Legacy.get_land_polygon_zoom_strategy (Some zoom)) = 3000).
Proof.
  destruct (Z.lt_ge_cases zoom 4) as [Hlow | Hlo].
  { eexists. split.
    - by apply (resolver_below_min_zoom "land_polygons"
                  (mk_layer 4 20 None
                     [(4, 2000); (8, 5000); (10, 8000); (12, 6000); (14, 3000)])).
    - repeat split; try lia. by legacy. }
  destruct (Z.lt_ge_cases zoom 16) as [Hmid | Hhi].
  { assert (Hz : zoom = 4 ∨ zoom = 5 ∨ zoom = 6 ∨ zoom = 7 ∨ zoom = 8 ∨ zoom = 9
                 ∨ zoom = 10 ∨ zoom = 11 ∨ zoom = 12 ∨ zoom = 13 ∨ zoom = 14
                 ∨ zoom = 15) by lia.
    repeat (destruct Hz as [-> | Hz]); [..| subst zoom]; at_zoom. }
  eexists. split.
  - by apply (resolver_high_zoom "land_polygons"
                (mk_layer 4 20 None
                   [(4, 2000); (8, 5000); (10, 8000); (12, 6000); (14, 3000)])
                zoom 8000).
  - repeat split; intros; try lia; by legacy.
Qed.

End LegacyFacts.

(** ** The sizes of the connection pools *)

Section PoolSizesFacts.

Import PoolSizes.

Lemma split_count_pos (text : string) : 1 ≤ split_count text.
Proof. induction text as [|c rest IH]; simpl; [lia|]. destruct (Ascii.eqb _ _); lia. Qed.

Lemma replica_count_pos (env : settings) : 1 ≤ replica_count env.
Proof.
  unfold replica_count. case_bool_decide; [lia | apply split_count_pos].
Qed.

(** X8. When both configured maxima are at least two and the budget leaves
    four connections for each replica, the pools stay within their maxima
    and together within the budget. *)
Theorem pool_sizes_within_budget (env : settings) :
  2 ≤ ASYNC_DB_MAX_SIZE env →
  2 ≤ READ_DB_MAX_SIZE env →
  4 * replica_count env ≤ MAX_TOTAL_CONNECTIONS env - CONNECTION_SAFETY_MARGIN env →
  let sizes := calculate_connection_pool_sizes env in
  min_pool_size sizes ≤ write_pool_size sizes ≤ ASYNC_DB_MAX_SIZE env
  ∧ min_pool_size sizes ≤ read_pool_size sizes ≤ READ_DB_MAX_SIZE env
  ∧ write_pool_size sizes + replica_count env * read_pool_size sizes
    ≤ MAX_TOTAL_CONNECTIONS env - CONNECTION_SAFETY_MARGIN env.
Proof.
  intros Ha Hr Hbudget. pose proof (replica_count_pos env) as Hn.
  unfold calculate_connection_pool_sizes. cbn zeta. cbn [write_pool_size read_pool_size min_pool_size].
  set (n := replica_count env) in *.
  set (available := MAX_TOTAL_CONNECTIONS env - CONNECTION_SAFETY_MARGIN env) in *.
  set (w := Z.min (ASYNC_DB_MAX_SIZE env) (available / 2)).
  assert (Hhalf : 2 * (available / 2) ≤ available ∧ available < 2 * (available / 2) + 2).
  { pose proof (Z.div_mod available 2). pose proof (Z.mod_pos_bound available 2). lia. }
  assert (Hw : 2 ≤ w ∧ w ≤ available / 2) by (unfold w; lia).
  replace (Z.max 1 n) with n by lia.
  set (q := (available - w) / n).
  assert (Hq : n * q ≤ available - w ∧ available - w < n * q + n).
  { unfold q. pose proof (Z.div_mod (available - w) n).
    pose proof (Z.mod_pos_bound (available - w) n). lia. }
  assert (2 ≤ q) by nia.
  split; [lia|]. split; [lia|].
  destruct (Z.min_spec (READ_DB_MAX_SIZE env) q) as [[? ->] | [? ->]];
    rewrite Z.max_r by lia; nia.
Qed.

Lemma pool_sizes_within_budget_witness :
  let sizes := calculate_connection_pool_sizes defaults in
  min_pool_size sizes ≤ write_pool_size sizes ≤ ASYNC_DB_MAX_SIZE defaults
  ∧ min_pool_size sizes ≤ read_pool_size sizes ≤ READ_DB_MAX_SIZE defaults
  ∧ write_pool_size sizes + replica_count defaults * read_pool_size sizes
    ≤ MAX_TOTAL_CONNECTIONS defaults - CONNECTION_SAFETY_MARGIN defaults.
Proof.
  apply (pool_sizes_within_budget defaults); vm_compute; by intros ?.
Defined.

End PoolSizesFacts.

(** ** The two cache tiers *)

Lemma set_cache_value_returns (J : codec) (key value cache_type : string) (w : world) :
  ∃ w1,
    set_cache_value J key value cache_type w = (inr tt, w1)
    ∧ memory_cache w1
      = (if Z.of_nat (size (memory_cache w)) <? MEMORY_CACHE_MAX_SIZE
         then <[key := (now w, value)]> (memory_cache w) else memory_cache w)
    ∧ db w1 = db w ∧ cache_stats w1 = cache_stats w ∧ now w1 = now w
    ∧ (∀ r text, redis_client w = Some r → reachable r = true →
            to_json J value = inr text →
            Z.of_nat (String.length text) ≤ MAX_GEOJSON_SIZE →
            redis_client w1
            = Some {| reachable := true;
                      keyspace := <[key := (now w + redis_ttl cache_type, text)]> (keyspace r) |})
    ∧ (∀ e, to_json J value = inl e →
            redis_client w1 = redis_client w
            ∧ (redis_client w ≠ None →
               log w1 = (log w ++ [("设置缓存失败: " ++ exn_str e)%string])%list))
    ∧ (∀ text, to_json J value = inr text →
            MAX_GEOJSON_SIZE < Z.of_nat (String.length text) →
            redis_client w1 = redis_client w).
Proof.
  unfold set_cache_value, memory_store. run.
  destruct (Z.of_nat (size (memory_cache w)) <? MEMORY_CACHE_MAX_SIZE); run;
    (destruct (redis_client w) as [r|] eqn:Hr; run;
     [ destruct (to_json J value) as [e|text] eqn:Htext; run;
       [ | destruct (Z.leb_spec (Z.of_nat (String.length text)) MAX_GEOJSON_SIZE); run;
           [ unfold redis_setex; destruct (reachable r) eqn:Hup; run | ] ]
     | ]);
    eexists; (split; [reflexivity|]); simpl; rewrite ?Hr;
    repeat split; try done; intros; simplify_eq; try done; first [congruence | lia].
Qed.

Lemma get_cache_value_local_hit (J : codec) (key cache_type value : string) (stamp : Z)
    (w : world) :
  memory_cache w !! key = Some (stamp, value) →
  now w - stamp < MEMORY_CACHE_TTL →
  get_cache_value J key cache_type w
  = (inr (Some value), set_cache_stats (bump_hits (cache_stats w)) w).
Proof.
  intros Hk Hfresh. unfold get_cache_value. run. rewrite Hk.
  destruct (Z.ltb_spec (now w - stamp) MEMORY_CACHE_TTL); [|lia]. by run.
Qed.

(** X9. A value written while the local tier has room is read back from
    it, whatever the shared tier does, for the next five minutes. *)
Theorem cache_round_trip (J : codec) (key value cache_type cache_type' : string)
    (w : world) :
  Z.of_nat (size (memory_cache w)) < MEMORY_CACHE_MAX_SIZE →
  ∃ w1,
    set_cache_value J key value cache_type w = (inr tt, w1)
    ∧ ∀ w2, memory_cache w2 = memory_cache w1 →
            now w2 - now w < MEMORY_CACHE_TTL →
            ∃ w3, get_cache_value J key cache_type' w2 = (inr (Some value), w3)
                  ∧ memory_cache w3 = memory_cache w2
                  ∧ redis_client w3 = redis_client w2
                  ∧ hits (cache_stats w3) = hits (cache_stats w2) + 1.
Proof.
  intros Hroom.
  destruct (set_cache_value_returns J key value cache_type w) as (w1 & Hset & Hmc & _).
  exists w1. split; [exact Hset|]. intros w2 Hsame Hfresh.
  destruct (Z.ltb_spec (Z.of_nat (size (memory_cache w))) MEMORY_CACHE_MAX_SIZE); [|lia].
  eexists. split.
  - apply (get_cache_value_local_hit J key cache_type' value (now w)); [|done].
    by rewrite Hsame, Hmc, lookup_insert_eq.
  - done.
Qed.

Lemma cache_round_trip_witness :
  let w := Demo.started Demo.empty_store ∅ None in
  ∃ w1,
    set_cache_value Demo.json_text "fence_list:ab12" "{}" "fences" w = (inr tt, w1)
    ∧ ∀ w2, memory_cache w2 = memory_cache w1 →
            now w2 - now w < MEMORY_CACHE_TTL →
            ∃ w3, get_cache_value Demo.json_text "fence_list:ab12" "fences" w2
                  = (inr (Some "{}"), w3)
                  ∧ memory_cache w3 = memory_cache w2
                  ∧ redis_client w3 = redis_client w2
                  ∧ hits (cache_stats w3) = hits (cache_stats w2) + 1.
Proof.
  apply (cache_round_trip Demo.json_text "fence_list:ab12" "{}" "fences" "fences"
           (Demo.started Demo.empty_store ∅ None)).
  vm_compute. reflexivity.
Defined.

(** X10. At its ceiling the local tier refuses every write, also of a key
    it already holds: the value written is dropped there and the old one is
    still served while it is fresh. *)
Theorem full_local_tier_keeps_old_value (J : codec)
    (key old value cache_type cache_type' : string) (stamp : Z) (w : world) :
  MEMORY_CACHE_MAX_SIZE ≤ Z.of_nat (size (memory_cache w)) →
  memory_cache w !! key = Some (stamp, old) →
  ∃ w1,
    set_cache_value J key value cache_type w = (inr tt, w1)
    ∧ memory_cache w1 = memory_cache w
    ∧ ∀ w2, memory_cache w2 = memory_cache w1 →
            now w2 - stamp < MEMORY_CACHE_TTL →
            ∃ w3, get_cache_value J key cache_type' w2 = (inr (Some old), w3).
Proof.
  intros Hfull Hold.
  destruct (set_cache_value_returns J key value cache_type w) as (w1 & Hset & Hmc & _).
  destruct (Z.ltb_spec (Z.of_nat (size (memory_cache w))) MEMORY_CACHE_MAX_SIZE); [lia|].
  exists w1. split; [exact Hset|]. split; [exact Hmc|]. intros w2 Hsame Hfresh.
  eexists. apply (get_cache_value_local_hit J key cache_type' old stamp); [|done].
  by rewrite Hsame, Hmc.
Qed.

Lemma full_local_tier_keeps_old_value_witness :
  let w := Demo.started Demo.empty_store (Demo.full_local_tier 900) None in
  ∃ w1,
    set_cache_value Demo.json_text "k7" "new" "fences" w = (inr tt, w1)
    ∧ memory_cache w1 = memory_cache w
    ∧ ∀ w2, memory_cache w2 = memory_cache w1 →
            now w2 - 900 < MEMORY_CACHE_TTL →
            ∃ w3, get_cache_value Demo.json_text "k7" "fences" w2 = (inr (Some "old"), w3).
Proof.
  apply (full_local_tier_keeps_old_value Demo.json_text "k7" "old" "new" "fences" "fences"
           900 (Demo.started Demo.empty_store (Demo.full_local_tier 900) None)).
  - vm_compute. by intros ?.
  - vm_compute. reflexivity.
Defined.






(** X13. Through a reachable shared tier: a value whose JSON text is not
    empty, is at most 10 MB long and is read back by [json.loads] as the
    value, is served to a process whose local tier does not hold the key,
    until the time to live of its cache type has passed, and that lookup
    copies it into the local tier when there is room.  A value that
    [json.dumps] rejects, or whose text is longer, is not written to the
    shared tier: the call still returns, and the rejection is logged. *)
Theorem shared_tier_round_trip (J : codec) (key value cache_type cache_type' : string)
    (r : redis_server) (w : world) :
  redis_client w = Some r →
  reachable r = true →
  ∃ w1,
    set_cache_value J key value cache_type w = (inr tt, w1)
    ∧ (∀ text, to_json J value = inr text →
         Z.of_nat (String.length text) ≤ MAX_GEOJSON_SIZE →
         text ≠ "" →
         of_json J text = inr value →
         ∀ w2, redis_client w2 = redis_client w1 →
               memory_cache w2 !! key = None →
               now w2 < now w + redis_ttl cache_type →
               ∃ w3, get_cache_value J key cache_type' w2 = (inr (Some value), w3)
                     ∧ redis_hits (cache_stats w3) = redis_hits (cache_stats w2) + 1
                     ∧ (Z.of_nat (size (memory_cache w2)) < MEMORY_CACHE_MAX_SIZE →
                        memory_cache w3 !! key = Some (now w2, value)))
    ∧ (∀ e, to_json J value = inl e →
         redis_client w1 = redis_client w
         ∧ log w1 = (log w ++ [("设置缓存失败: " ++ exn_str e)%string])%list)
    ∧ (∀ text, to_json J value = inr text →
         MAX_GEOJSON_SIZE < Z.of_nat (String.length text) →
         redis_client w1 = redis_client w).
Proof.
  intros Hr Hup.
  destruct (set_cache_value_returns J key value cache_type w)
    as (w1 & Hset & _ & _ & _ & _ & Hshared & Hrejected & Hlong).
  exists w1. split; [exact Hset|]. split; [|split].
  - intros text Htext Hsize Hnonempty Hback w2 Hsame Hlocal Hfresh.
    specialize (Hshared r text Hr Hup Htext Hsize).
    unfold get_cache_value. run. rewrite Hlocal.
    unfold get_cache_value_redis. run. rewrite Hsame, Hshared. run.
    unfold redis_get. run. rewrite lookup_insert_eq.
    destruct (Z.ltb_spec (now w2) (now w + redis_ttl cache_type)); [|lia]. run.
    destruct (String.eqb_spec text ""); [done|]. run.
    unfold count. run. rewrite Hback. run. unfold memory_store. run.
    destruct (Z.ltb_spec (Z.of_nat (size (memory_cache w2))) MEMORY_CACHE_MAX_SIZE); run;
      eexists; (split; [reflexivity|]); simpl; (split; [done|]); intros; [|lia].
    by rewrite lookup_insert_eq.
  - intros e He. destruct (Hrejected e He) as [Hsame Hlog].
    split; [exact Hsame|]. apply Hlog. by rewrite Hr.
  - exact Hlong.
Qed.

Lemma shared_tier_round_trip_witness :
  let r := {| reachable := true; keyspace := ∅ |} in
  let w := Demo.started Demo.empty_store ∅ (Some r) in
  (∃ w1,
     set_cache_value Demo.json_text "roads:9f" "[1]" "roads" w = (inr tt, w1)
     ∧ ∀ w2, redis_client w2 = redis_client w1 →
             memory_cache w2 !! "roads:9f" = None →
             now w2 < now w + redis_ttl "roads" →
             ∃ w3, get_cache_value Demo.json_text "roads:9f" "roads" w2
                   = (inr (Some "[1]"), w3)
                   ∧ redis_hits (cache_stats w3) = redis_hits (cache_stats w2) + 1
                   ∧ (Z.of_nat (size (memory_cache w2)) < MEMORY_CACHE_MAX_SIZE →
                      memory_cache w3 !! "roads:9f" = Some (now w2, "[1]")))
  ∧ (∃ w1,
       set_cache_value Demo.json_text "roads:9f" "set()" "roads" w = (inr tt, w1)
       ∧ redis_client w1 = redis_client w
       ∧ log w1 = ["设置缓存失败: Object of type set is not JSON serializable"]).
Proof.
  split.
  - destruct (shared_tier_round_trip Demo.json_text "roads:9f" "[1]" "roads" "roads"
                {| reachable := true; keyspace := ∅ |}
                (Demo.started Demo.empty_store ∅
                   (Some {| reachable := true; keyspace := ∅ |}))
                eq_refl eq_refl) as (w1 & Hset & Hback & _).
    exists w1. split; [exact Hset|].
    apply (Hback "[1]"); [reflexivity | vm_compute; by intros ? | by intros ? | reflexivity].
  - destruct (shared_tier_round_trip Demo.json_text "roads:9f" "set()" "roads" "roads"
                {| reachable := true; keyspace := ∅ |}
                (Demo.started Demo.empty_store ∅
                   (Some {| reachable := true; keyspace := ∅ |}))
                eq_refl eq_refl) as (w1 & Hset & _ & Hrejected & _).
    exists w1. split; [exact Hset|].
    exact (Hrejected (Exception "Object of type set is not JSON serializable") eq_refl).
Defined.

(** ** The routing of connections *)

(** X14. With the pools started, a write is given the primary pool; a read
    is given one of the replica pools when there is one, and the primary
    pool otherwise. *)
Theorem get_db_connection_routing (w : world) :
  db_pool w = true →
  get_db_connection false w = (inr WritePool, w)
  ∧ (read_pools w = 0%nat → get_db_connection true w = (inr WritePool, w))
  ∧ (read_pools w ≠ 0%nat →
     ∃ i, get_db_connection true w = (inr (ReadPool i), w) ∧ (i < read_pools w)%nat).
Proof.
  intros Hpool. unfold get_db_connection. run. rewrite Hpool. run.
  split; [done|]. split.
  - by intros ->.
  - intros Hn. destruct (Nat.eqb_spec (read_pools w) 0); [done|]. run.
    eexists. split; [reflexivity|].
    pose proof (Z.mod_pos_bound (now w) (Z.of_nat (read_pools w))). lia.
Qed.

Lemma get_db_connection_routing_witness :
  let w := Demo.started Demo.empty_store ∅ None in
  get_db_connection false w = (inr WritePool, w)
  ∧ (read_pools w = 0%nat → get_db_connection true w = (inr WritePool, w))
  ∧ (read_pools w ≠ 0%nat →
     ∃ i, get_db_connection true w = (inr (ReadPool i), w) ∧ (i < read_pools w)%nat).
Proof.
  apply (get_db_connection_routing (Demo.started Demo.empty_store ∅ None)).
  reflexivity.
Defined.

(** ** What overlap detection writes *)

Lemma collect_overlaps_reads (overlaps : list detected) (w : world) :
  ∃ found, collect_overlaps overlaps w = (inr found, w)
           ∧ length found = length overlaps.
Proof.
  induction overlaps as [|o rest (found & IH & Hlen)]; [by exists []|].
  simpl. unfold sql_select_fence_info. run. rewrite IH. run.
  eexists. split; [reflexivity|]. simpl. by rewrite Hlen.
Qed.

Lemma stored_pair_same_key (a b : overlap_row) :
  same_key a b = true ↔ stored_pair a = stored_pair b.
Proof.
  unfold same_key, stored_pair. rewrite andb_true_iff, !bool_decide_eq_true.
  split; [by intros [-> ->] | by intros [= -> ->]].
Qed.

Lemma existsb_same_key (new : overlap_row) (rows : list overlap_row) :
  existsb (same_key new) rows = true ↔ stored_pair new ∈ stored_pair <$> rows.
Proof.
  rewrite existsb_exists, list_elem_of_fmap. split.
  - intros (r & Hin%list_elem_of_In & Hk%stored_pair_same_key). by exists r.
  - intros (r & Hk & Hin). exists r. split; [by apply list_elem_of_In|].
    by apply stored_pair_same_key.
Qed.

Lemma upsert_overlap_pairs (new : overlap_row) (rows : list overlap_row) :
  stored_pair <$> upsert_overlap new rows
  = if existsb (same_key new) rows then stored_pair <$> rows
    else ((stored_pair <$> rows) ++ [stored_pair new])%list.
Proof.
  unfold upsert_overlap. destruct (existsb (same_key new) rows); [|by rewrite fmap_app].
  induction rows as [|r rows IH]; [done|]. rewrite map_cons, !fmap_cons, IH. f_equal.
  destruct (same_key new r) eqn:Hk; [|done]. by apply stored_pair_same_key.
Qed.

Lemma upsert_overlap_NoDup (new : overlap_row) (rows : list overlap_row) :
  NoDup (stored_pair <$> rows) → NoDup (stored_pair <$> upsert_overlap new rows).
Proof.
  intros Hnd. rewrite upsert_overlap_pairs.
  destruct (existsb (same_key new) rows) eqn:Hex; [done|].
  apply NoDup_app. split; [done|]. split; [|apply NoDup_singleton].
  intros p Hp ->%list_elem_of_singleton.
  apply existsb_same_key in Hp. congruence.
Qed.

Lemma elem_of_upsert_overlap (new o : overlap_row) (rows : list overlap_row) :
  o ∈ upsert_overlap new rows → o ∈ rows ∨ o = new.
Proof.
  unfold upsert_overlap. destruct (existsb (same_key new) rows).
  - intros (r & <- & Hr)%list_elem_of_In%in_map_iff. apply list_elem_of_In in Hr.
    destruct (same_key new r); auto.
  - intros [H | ->%list_elem_of_singleton]%elem_of_app; auto.
Qed.

Lemma upsert_overlap_keeps (new o : overlap_row) (rows : list overlap_row) :
  o ∈ rows → same_key new o = false → o ∈ upsert_overlap new rows.
Proof.
  intros Hin Hk. unfold upsert_overlap. destruct (existsb (same_key new) rows).
  - apply list_elem_of_In, in_map_iff. exists o. rewrite Hk.
    split; [done | by apply list_elem_of_In].
  - apply elem_of_app. by left.
Qed.

Lemma sql_upsert_overlap_run (fence_id_1 fence_id_2 : Z) (a p1 p2 : Q) (type : string)
    (w : world) :
  sql_upsert_overlap fence_id_1 fence_id_2 a p1 p2 type w
  = (inr tt,
     set_db (set_overlaps
       (upsert_overlap
          {| OverlapRow.fence_id_1 := fence_id_1; OverlapRow.fence_id_2 := fence_id_2;
             OverlapRow.overlap_area := a;
             OverlapRow.overlap_percentage_1 := p1; OverlapRow.overlap_percentage_2 := p2;
             OverlapRow.overlap_type := type; OverlapRow.detected_at := now w |}
          (fence_overlaps (db w))) (db w)) w).
Proof. reflexivity. Qed.

(** The second loop of [detect_fence_overlaps]: only [fence_overlaps] is
    rewritten. *)
Lemma upsert_loop (fence_id : Z) (found : list detected) (w : world) :
  ∃ rows',
    for_each found (fun overlap =>
      sql_upsert_overlap fence_id (overlapping_fence_id overlap) (overlap_area overlap)
        (overlap_percentage overlap) 0%Q (overlap_type overlap)) w
    = (inr tt, set_db (set_overlaps rows' (db w)) w)
    ∧ (NoDup (stored_pair <$> fence_overlaps (db w)) → NoDup (stored_pair <$> rows'))
    ∧ (∀ o, o ∈ rows' →
         o ∈ fence_overlaps (db w)
         ∨ (OverlapRow.fence_id_1 o = fence_id
            ∧ OverlapRow.overlap_percentage_2 o = 0%Q
            ∧ OverlapRow.detected_at o = now w))
    ∧ (∀ o, o ∈ fence_overlaps (db w) → OverlapRow.fence_id_1 o ≠ fence_id → o ∈ rows').
Proof.
  revert w. induction found as [|overlap rest IH]; intros w.
  - exists (fence_overlaps (db w)). simpl. unfold ret.
    split; [|by auto]. f_equal. by destruct w as [? ? ? [? ? ?] ? ? ? ?].
  - cbn [for_each]. unfold bind at 1. rewrite sql_upsert_overlap_run.
    match goal with
    | |- context [for_each rest ?body ?w1] =>
      destruct (IH w1) as (rows' & -> & Hnd & Hin & Hkeep)
    end.
    simpl in *. exists rows'. split; [done|]. split; [|split].
    + intros H. by apply Hnd, upsert_overlap_NoDup.
    + intros o [[Ho | ->]%elem_of_upsert_overlap | Ho]%Hin; auto.
    + intros o Ho Hne. apply Hkeep; [|done]. apply upsert_overlap_keeps; [done|].
      unfold same_key. simpl. apply andb_false_iff. left.
      by apply bool_decide_eq_false.
Qed.

(** What a detection leaves behind, whatever the store answers. *)
Lemma detect_fence_overlaps_frame (E : collaborators) (fence_id : Z) (w : world) :
  ∃ found w',
    detect_fence_overlaps E fence_id w = (inr found, w')
    ∧ electronic_fences (db w') = electronic_fences (db w)
    ∧ next_fence_id (db w') = next_fence_id (db w)
    ∧ db_pool w' = db_pool w ∧ now w' = now w
    ∧ memory_cache w' = memory_cache w ∧ redis_client w' = redis_client w
    ∧ (NoDup (stored_pair <$> fence_overlaps (db w)) →
       NoDup (stored_pair <$> fence_overlaps (db w')))
    ∧ (∀ o, o ∈ fence_overlaps (db w') →
         o ∈ fence_overlaps (db w)
         ∨ (OverlapRow.fence_id_1 o = fence_id
            ∧ OverlapRow.overlap_percentage_2 o = 0%Q
            ∧ OverlapRow.detected_at o = now w))
    ∧ (∀ o, o ∈ fence_overlaps (db w) → OverlapRow.fence_id_1 o ≠ fence_id →
         o ∈ fence_overlaps (db w')).
Proof.
  unfold detect_fence_overlaps. run.
  destruct (get_db_connection true w) as [[e|p] w1] eqn:Hconn; simpl.
  { destruct (db_pool w) eqn:Hpool.
    - destruct (get_db_connection_ready true w Hpool) as [q Hq]. congruence.
    - rewrite (get_db_connection_down true w Hpool) in Hconn. injection Hconn as <- <-.
      eexists _, _. split; [reflexivity|]. simpl. repeat split; auto. }
  apply get_db_connection_inv in Hconn as [Hpool ->].
  destruct (sql_detect_fence_overlaps E (db w) fence_id) as [e|overlaps]; simpl.
  { eexists _, _. split; [reflexivity|]. simpl. repeat split; auto. }
  destruct (collect_overlaps_reads overlaps w) as (found & -> & _). simpl.
  destruct (upsert_loop fence_id found w) as (rows' & -> & Hnd & Hin & Hkeep). simpl.
  eexists _, _. split; [reflexivity|]. simpl. repeat split; auto.
Qed.

(** X15. Overlap detection never raises and rewrites nothing but
    [fence_overlaps]; there the ordered pairs stay unique, every row it
    leaves was either there before or carries the inspected fence first, a
    second percentage of zero and the current instant, and the rows of
    other first fences are kept. *)
Theorem detect_fence_overlaps_keeps_table_keyed (E : collaborators) (fence_id : Z)
    (w : world) :
  NoDup (stored_pair <$> fence_overlaps (db w)) →
  ∃ found w',
    detect_fence_overlaps E fence_id w = (inr found, w')
    ∧ electronic_fences (db w') = electronic_fences (db w)
    ∧ NoDup (stored_pair <$> fence_overlaps (db w'))
    ∧ (∀ o, o ∈ fence_overlaps (db w') →
         o ∈ fence_overlaps (db w)
         ∨ (OverlapRow.fence_id_1 o = fence_id
            ∧ OverlapRow.overlap_percentage_2 o = 0%Q
            ∧ OverlapRow.detected_at o = now w))
    ∧ (∀ o, o ∈ fence_overlaps (db w) → OverlapRow.fence_id_1 o ≠ fence_id →
         o ∈ fence_overlaps (db w')).
Proof.
  intros Hnd.
  destruct (detect_fence_overlaps_frame E fence_id w)
    as (found & w' & Hrun & Hf & _ & _ & _ & _ & _ & Hnd' & Hin & Hkeep).
  exists found, w'. repeat split; auto.
Qed.

Lemma detect_fence_overlaps_keeps_table_keyed_witness :
  let w := Demo.started Demo.two_fences ∅ None in
  ∃ found w',
    detect_fence_overlaps Demo.one_and_two_overlap 1 w = (inr found, w')
    ∧ electronic_fences (db w') = electronic_fences (db w)
    ∧ NoDup (stored_pair <$> fence_overlaps (db w'))
    ∧ (∀ o, o ∈ fence_overlaps (db w') →
         o ∈ fence_overlaps (db w)
         ∨ (OverlapRow.fence_id_1 o = 1
            ∧ OverlapRow.overlap_percentage_2 o = 0%Q
            ∧ OverlapRow.detected_at o = now w))
    ∧ (∀ o, o ∈ fence_overlaps (db w) → OverlapRow.fence_id_1 o ≠ 1 →
         o ∈ fence_overlaps (db w')).
Proof.
  apply (detect_fence_overlaps_keeps_table_keyed Demo.one_and_two_overlap 1
           (Demo.started Demo.two_fences ∅ None)).
  simpl. apply NoDup_nil_2.
Defined.

(** ** Creation *)

(** The two ways a creation ends. *)
Lemma create_fence_cases (E : collaborators) (fence_name : string)
    (fence_geometry : geometry_data) (fence_type : string)
    (fence_purpose fence_description : option string) (fence_color : string)
    (fence_opacity : Q) (group_id owner_id creator_id : option Z)
    (fence_tags fence_config : option (list (string * string))) (w : world) :
  ∃ r w',
    create_fence E fence_name fence_geometry fence_type fence_purpose fence_description
      fence_color fence_opacity group_id owner_id creator_id fence_tags fence_config w
    = (inr r, w')
    ∧ (success r = false → db w' = db w)
    ∧ (success r = true →
       ∃ fence_id fence_area detected count row,
         r = Created fence_id fence_name fence_area detected count "围栏创建成功"
         ∧ (validate_geometry E fence_geometry w).1 = inr true
         ∧ electronic_fences (db w') = (electronic_fences (db w) ++ [row])%list
         ∧ row !! "id" = Some (SInt fence_id)
         ∧ row !! "fence_name" = Some (SText fence_name)).
Proof.
  remember (validate_geometry E fence_geometry w).1 as checked eqn:Hchecked.
  unfold create_fence. run.
  destruct (validate_geometry_logs E fence_geometry w) as (valid & w1 & Hval & L1).
  rewrite Hval in Hchecked |- *. simpl in Hchecked. simpl.
  assert (db w1 = db w) as Hdb1 by apply (logged_frame _ _ L1).
  destruct valid; simpl; [|eexists _, _; split; [reflexivity|]; by split].
  match goal with
  | |- context [let (_, _) := ?m w1 in _] =>
    destruct (m w1) as [[e1|wkt] w2] eqn:Hconv; simpl
  end.
  { assert (logged w1 w2) as L2.
    { destruct fence_geometry as [text|g|]; simpl in Hconv.
      - discriminate.
      - by apply (convert_geojson_to_wkt_logs E g w1 w2 (inl e1)).
      - injection Hconv as _ <-. apply logged_refl. }
    eexists _, _. split; [reflexivity|]. simpl. split; [|done]. intros _.
    rewrite <- Hdb1. apply (logged_frame _ _ L2). }
  assert (logged w1 w2) as L2.
  { destruct fence_geometry as [text|g|]; simpl in Hconv.
    - injection Hconv as _ <-. apply logged_refl.
    - by apply (convert_geojson_to_wkt_logs E g w1 w2 (inr wkt)).
    - discriminate. }
  destruct (calculate_fence_area_logs E wkt w2) as (fence_area & w3 & -> & L3). simpl.
  destruct (calculate_fence_bounds_logs E wkt w3) as (b & w4 & -> & L4). simpl.
  assert (db w4 = db w) as Hdb4.
  { rewrite <- Hdb1. destruct (logged_frame _ _ L4) as [-> _].
    destruct (logged_frame _ _ L3) as [-> _]. apply (logged_frame _ _ L2). }
  destruct (get_db_connection false w4) as [[e4|p] w5] eqn:Hconn; simpl.
  { assert (w5 = w4) as ->.
    { destruct (db_pool w4) eqn:Hpool.
      - destruct (get_db_connection_ready false w4 Hpool) as [q Hq]. congruence.
      - rewrite (get_db_connection_down false w4 Hpool) in Hconn. by injection Hconn. }
    eexists _, _. split; [reflexivity|]. simpl. by split. }
  apply get_db_connection_inv in Hconn as [Hpool ->].
  destruct (ST_GeomFromText E wkt) as [e5|[]]; simpl.
  { eexists _, _. split; [reflexivity|]. simpl. by split. }
  match goal with
  | |- context [detect_fence_overlaps E ?i ?w0] =>
    destruct (detect_fence_overlaps_frame E i w0) as (found & w6 & -> & Hrows & _)
  end.
  simpl in *. rewrite Hdb4 in Hrows |- *.
  eexists _, _. split; [reflexivity|]. simpl. split; [done|]. intros _.
  eexists _, _, _, _, _. split; [reflexivity|]. split; [done|].
  split; [exact Hrows|]. split; vm_compute; reflexivity.
Qed.

(** X16. A creation never raises and is all or nothing: when it fails the
    store is as it was, and when it succeeds the geometry had passed
    [validate_geometry] and the fence table has gained exactly one row,
    which carries the returned identity and the given name. *)
Theorem create_fence_all_or_nothing (E : collaborators) (fence_name : string)
    (fence_geometry : geometry_data) (fence_type : string)
    (fence_purpose fence_description : option string) (fence_color : string)
    (fence_opacity : Q) (group_id owner_id creator_id : option Z)
    (fence_tags fence_config : option (list (string * string))) (w : world) :
  ∃ r w',
    create_fence E fence_name fence_geometry fence_type fence_purpose fence_description
      fence_color fence_opacity group_id owner_id creator_id fence_tags fence_config w
    = (inr r, w')
    ∧ (success r = false → db w' = db w)
    ∧ (success r = true →
       ∃ fence_id fence_area detected count row,
         r = Created fence_id fence_name fence_area detected count "围栏创建成功"
         ∧ (validate_geometry E fence_geometry w).1 = inr true
         ∧ electronic_fences (db w') = (electronic_fences (db w) ++ [row])%list
         ∧ row !! "id" = Some (SInt fence_id)
         ∧ row !! "fence_name" = Some (SText fence_name)).
Proof. exact (create_fence_cases E fence_name fence_geometry fence_type fence_purpose fence_description fence_color
         fence_opacity group_id owner_id creator_id fence_tags fence_config w). Qed.

(** ** Requests that are refused *)

Lemma validate_geometry_not_polygon (E : collaborators) (d : geojson) (w : world) :
  g_type d ≠ Some "Polygon" ∨ default [] (g_coordinates d) = [] →
  validate_geometry E (GeomDict d) w = (inr false, w).
Proof.
  intros H. unfold validate_geometry, load_geometry. run.
  destruct (decide (g_type d = Some "Polygon")) as [Ht|Ht]; [|done].
  destruct H as [H|H]; [done|]. by rewrite H.
Qed.

(** X17. A GeoJSON object that is not a [Polygon] with at least one ring is
    never stored: it fails validation, a creation and an update with it are
    refused with the store untouched, and an import counts it as an error. *)
Theorem dict_geometry_must_be_polygon (E : collaborators) (d : geojson) (w : world) :
  g_type d ≠ Some "Polygon" ∨ default [] (g_coordinates d) = [] →
  validate_geometry E (GeomDict d) w = (inr false, w)
  ∧ (∀ fence_name fence_type fence_purpose fence_description fence_color fence_opacity
       group_id owner_id creator_id fence_tags fence_config,
       create_fence E fence_name (GeomDict d) fence_type fence_purpose fence_description
         fence_color fence_opacity group_id owner_id creator_id fence_tags fence_config w
       = (inr (Failure "无效的几何数据" "围栏创建失败"),
          set_log (log w ++ ["创建围栏失败: 无效的几何数据"]) w))
  ∧ (∀ fence_id fence_name fence_purpose fence_description fence_color fence_opacity
       fence_tags fence_config operator_id,
       db_pool w = true →
       update_fence E fence_id fence_name (Some (GeomDict d)) fence_purpose
         fence_description fence_color fence_opacity fence_tags fence_config operator_id w
       = (inr (Failure "无效的几何数据" "围栏更新失败"),
          set_log (log w ++ ["更新围栏失败: 无效的几何数据"]) w))
  ∧ (∀ operator_id c props,
       import_feature E operator_id c
         (FeatureObject (Some "Feature") (Some (GeomDict d)) props) w
       = (inr (errored c), w)).
Proof.
  intros H. pose proof (validate_geometry_not_polygon E d w H) as Hval.
  split; [exact Hval|]. split; [|split].
  - intros. unfold create_fence. run. by rewrite Hval.
  - intros ????????? Hpool. unfold update_fence. run.
    destruct (get_db_connection_ready false w Hpool) as [p ->]. simpl.
    by rewrite Hval.
  - intros. unfold import_feature, try_except, bind, ret.
    rewrite bool_decide_eq_true_2 by done. cbn [negb].
    destruct (falsy (GeomDict d)); [done|]. by rewrite Hval.
Qed.

Lemma dict_geometry_must_be_polygon_witness :
  let d := {| g_type := Some "MultiPolygon"; g_coordinates := Some [Demo.unit_square] |} in
  let w := Demo.started Demo.two_fences ∅ None in
  validate_geometry Demo.quiet (GeomDict d) w = (inr false, w)
  ∧ (∀ fence_name fence_type fence_purpose fence_description fence_color fence_opacity
       group_id owner_id creator_id fence_tags fence_config,
       create_fence Demo.quiet fence_name (GeomDict d) fence_type fence_purpose
         fence_description fence_color fence_opacity group_id owner_id creator_id fence_tags
         fence_config w
       = (inr (Failure "无效的几何数据" "围栏创建失败"),
          set_log (log w ++ ["创建围栏失败: 无效的几何数据"]) w))
  ∧ (∀ fence_id fence_name fence_purpose fence_description fence_color fence_opacity
       fence_tags fence_config operator_id,
       db_pool w = true →
       update_fence Demo.quiet fence_id fence_name (Some (GeomDict d)) fence_purpose
         fence_description fence_color fence_opacity fence_tags fence_config operator_id w
       = (inr (Failure "无效的几何数据" "围栏更新失败"),
          set_log (log w ++ ["更新围栏失败: 无效的几何数据"]) w))
  ∧ (∀ operator_id c props,
       import_feature Demo.quiet operator_id c
         (FeatureObject (Some "Feature") (Some (GeomDict d)) props) w
       = (inr (errored c), w)).
Proof.
  apply (dict_geometry_must_be_polygon Demo.quiet
           {| g_type := Some "MultiPolygon"; g_coordinates := Some [Demo.unit_square] |}
           (Demo.started Demo.two_fences ∅ None)).
  left. simpl. discriminate.
Defined.

(** X18. Merging fewer than two fences, cutting along a GeoJSON object that
    is not a [LineString] or has fewer than two points, and importing what
    is not a [FeatureCollection] or has no features are refused before the
    store is asked anything: only a line of log is written. *)
Theorem malformed_requests_never_reach_the_store (E : collaborators) (w : world) :
  (∀ fence_ids new_fence_name operator_id,
     (length fence_ids < 2)%nat →
     merge_fences E fence_ids new_fence_name operator_id w
     = (inr (Failure "至少需要2个围栏进行合并" "围栏合并失败"),
        set_log (log w ++ ["合并围栏失败: 至少需要2个围栏进行合并"]) w))
  ∧ (∀ fence_id l_type coords operator_id,
       l_type ≠ Some "LineString" →
       split_fence E fence_id (LineDict l_type coords) operator_id w
       = (inr (Failure "分割线必须是LineString类型" "围栏切割失败"),
          set_log (log w ++ ["切割围栏失败: 分割线必须是LineString类型"]) w))
  ∧ (∀ fence_id coords operator_id,
       (length (default [] coords) < 2)%nat →
       split_fence E fence_id (LineDict (Some "LineString") coords) operator_id w
       = (inr (Failure "分割线坐标点不足" "围栏切割失败"),
          set_log (log w ++ ["切割围栏失败: 分割线坐标点不足"]) w))
  ∧ (∀ geojson_data operator_id,
       fc_type geojson_data ≠ Some "FeatureCollection" →
       import_fences_geojson E geojson_data operator_id w
       = (inr (Failure "不是有效的GeoJSON FeatureCollection" "围栏导入失败"),
          set_log (log w ++ ["导入围栏失败: 不是有效的GeoJSON FeatureCollection"]) w))
  ∧ (∀ geojson_data operator_id,
       fc_type geojson_data = Some "FeatureCollection" →
       default [] (features geojson_data) = [] →
       import_fences_geojson E geojson_data operator_id w
       = (inr (Failure "没有找到要导入的围栏特征" "围栏导入失败"),
          set_log (log w ++ ["导入围栏失败: 没有找到要导入的围栏特征"]) w)).
Proof.
  repeat split.
  - intros ids name op Hlen. unfold merge_fences. run.
    by destruct (Nat.ltb_spec (length ids) 2); [|lia].
  - intros id l_type coords op Ht. unfold split_fence. run.
    by rewrite bool_decide_eq_false_2.
  - intros id coords op Hlen. by apply split_fence_short_linestring.
  - intros fc op Ht. unfold import_fences_geojson. run.
    by rewrite bool_decide_eq_false_2.
  - intros fc op Ht Hfs. unfold import_fences_geojson. run.
    rewrite bool_decide_eq_true_2 by done. simpl. by rewrite Hfs.
Qed.

(** ** Merge and split *)

Lemma detect_each_frame (E : collaborators) (ids : list Z) (n : nat) (w : world) :
  ∃ total w',
    detect_each E ids n w = (inr total, w')
    ∧ electronic_fences (db w') = electronic_fences (db w).
Proof.
  revert n w. induction ids as [|i ids IH]; intros n w; [by eexists _, _|].
  simpl. unfold bind.
  destruct (detect_fence_overlaps_frame E i w) as (found & w1 & -> & Hrows & _).
  destruct (IH (n + length found)%nat w1) as (total & w2 & -> & Hrows2).
  exists total, w2. split; [done|]. by rewrite Hrows2.
Qed.

(** X19. With the pools started and two fences or more, a merge succeeds
    exactly when the procedure of the store returns a new identity, and
    reports that identity and the fences given; the fence table is then as
    the procedure left it. *)
Theorem merge_fences_outcome (E : collaborators) (fence_ids : list Z)
    (new_fence_name : string) (operator_id : option Z) (w : world)
    (answer : exn + option Z) (d : database) :
  db_pool w = true →
  (2 ≤ length fence_ids)%nat →
  sql_merge_fences E (db w) fence_ids new_fence_name operator_id = (answer, d) →
  ∃ r w',
    merge_fences E fence_ids new_fence_name operator_id w = (inr r, w')
    ∧ electronic_fences (db w') = electronic_fences d
    ∧ (success r = true ↔ ∃ new_id, answer = inr (Some new_id) ∧ new_id ≠ 0)
    ∧ (∀ new_id, answer = inr (Some new_id) → new_id ≠ 0 →
         ∃ detected count, r = Merged new_id fence_ids detected count "围栏合并成功").
Proof.
  intros Hpool Hlen Hstore. unfold merge_fences. run.
  destruct (Nat.ltb_spec (length fence_ids) 2); [lia|]. simpl.
  destruct (get_db_connection_ready false w Hpool) as [p ->]. simpl.
  rewrite Hstore.
  destruct answer as [e|[new_id|]]; simpl.
  - eexists _, _. split; [reflexivity|]. simpl. split; [done|]. split.
    + split; [done | by intros (? & [=] & _)].
    + by intros ? [=].
  - case_bool_decide as Hzero; simpl.
    + eexists _, _. split; [reflexivity|]. simpl. split; [done|]. split.
      * split; [done | intros (? & [= <-] & ?); done].
      * intros ? [= <-] ?. done.
    + match goal with
      | |- context [detect_fence_overlaps E new_id ?w0] =>
        destruct (detect_fence_overlaps_frame E new_id w0) as (found & w1 & -> & Hrows & _)
      end.
      simpl in *. eexists _, _. split; [reflexivity|]. simpl. split; [done|]. split.
      * split; [by exists new_id | done].
      * intros ? [= <-] _. by eexists _, _.
  - eexists _, _. split; [reflexivity|]. simpl. split; [done|]. split.
    + split; [done | by intros (? & [=] & _)].
    + by intros ? [=].
Qed.

Lemma merge_fences_outcome_witness :
  let w := Demo.started Demo.two_fences ∅ None in
  ∃ r w',
    merge_fences Demo.joins [1; 2] "AB" None w = (inr r, w')
    ∧ electronic_fences (db w')
      = electronic_fences (sql_merge_fences Demo.joins (db w) [1; 2] "AB" None).2
    ∧ (success r = true ↔
       ∃ new_id, (sql_merge_fences Demo.joins (db w) [1; 2] "AB" None).1
                 = inr (Some new_id) ∧ new_id ≠ 0)
    ∧ (∀ new_id, (sql_merge_fences Demo.joins (db w) [1; 2] "AB" None).1
                 = inr (Some new_id) → new_id ≠ 0 →
         ∃ detected count, r = Merged new_id [1; 2] detected count "围栏合并成功").
Proof.
  apply (merge_fences_outcome Demo.joins [1; 2] "AB" None
           (Demo.started Demo.two_fences ∅ None));
    [reflexivity | simpl; lia | reflexivity].
Defined.

(** X20. With the pools started and a cutting line the store can parse, a
    split succeeds exactly when the procedure of the store returns new
    identities, and reports them with their number; a GeoJSON line of two
    points or more reaches the store as the text a caller could have sent
    directly. *)
Theorem split_fence_outcome (E : collaborators) (fence_id : Z)
    (split_line : split_line_data) (text : string) (operator_id : option Z) (w : world)
    (answer : exn + option (list Z)) (d : database) :
  split_line = LineWkt text
  ∨ (∃ coords, split_line = LineDict (Some "LineString") (Some coords)
               ∧ (2 ≤ length coords)%nat
               ∧ text = ("LINESTRING(" ++ ring_wkt E coords ++ ")")%string) →
  db_pool w = true →
  ST_GeomFromText E text = inr tt →
  sql_split_fence E (db w) fence_id text operator_id = (answer, d) →
  ∃ r w',
    split_fence E fence_id split_line operator_id w = (inr r, w')
    ∧ electronic_fences (db w') = electronic_fences d
    ∧ (success r = true ↔ ∃ ids, answer = inr (Some ids) ∧ ids ≠ [])
    ∧ (∀ ids, answer = inr (Some ids) → ids ≠ [] →
         ∃ detected count,
           r = Split fence_id ids (length ids) detected count "围栏切割成功").
Proof.
  intros Hline Hpool Hparse Hstore. unfold split_fence. run.
  assert (∀ A (k : string → M A),
            (let (s, w') :=
               match split_line with
               | LineWkt text => λ w0 : world, (inr text, w0)
               | LineDict l_type l_coordinates =>
                 if negb (bool_decide (l_type = Some "LineString"))
                 then λ w0 : world, (inl (ValueError "分割线必须是LineString类型"), w0)
                 else
                   if (length (default [] l_coordinates) <? 2)%nat
                   then λ w0 : world, (inl (ValueError "分割线坐标点不足"), w0)
                   else λ w0 : world,
                     (inr ("LINESTRING(" ++ ring_wkt E (default [] l_coordinates) ++ ")")%string,
                      w0)
               end w in
             match s with
             | inl e => (inl e, w')
             | inr a => k a w'
             end) = k text w) as Hstep.
  { intros A k. destruct Hline as [-> | (coords & -> & Hlen & ->)]; [done|].
    rewrite bool_decide_eq_true_2 by done. simpl.
    by destruct (Nat.ltb_spec (length coords) 2); [lia|]. }
  rewrite Hstep. clear Hstep.
  destruct (get_db_connection_ready false w Hpool) as [p ->]. simpl.
  rewrite Hparse. simpl. rewrite Hstore.
  destruct answer as [e|[[|first others]|]]; [simpl | simpl | cbv beta iota | simpl].
  - eexists _, _. split; [reflexivity|]. simpl. split; [done|]. split.
    + split; [done | by intros (? & [=] & _)].
    + by intros ? [=].
  - eexists _, _. split; [reflexivity|]. simpl. split; [done|]. split.
    + split; [done | intros (? & [= <-] & ?); done].
    + intros ? [= <-] ?. done.
  - destruct (detect_fence_overlaps_frame E first (set_db d w))
      as (found & w1 & -> & Hrows1 & _).
    destruct (detect_each_frame E others (length found) w1) as (total & w2 & -> & Hrows).
    rewrite Hrows1 in Hrows. simpl in *.
    eexists _, _. split; [reflexivity|]. simpl. split; [done|]. split.
    + split; [by eexists | done].
    + intros ? [= <-] _. by eexists _, _.
  - eexists _, _. split; [reflexivity|]. simpl. split; [done|]. split.
    + split; [done | by intros (? & [=] & _)].
    + by intros ? [=].
Qed.

(** ** Update and delete *)

Lemma split_fence_outcome_witness :
  let w := Demo.started Demo.two_fences ∅ None in
  let line := LineDict (Some "LineString") (Some [(0%Q, 0%Q); (1%Q, 1%Q)]) in
  let text := "LINESTRING(0 0,1 1)" in
  ∃ r w',
    split_fence Demo.cuts_in_two 1 line None w = (inr r, w')
    ∧ electronic_fences (db w')
      = electronic_fences (sql_split_fence Demo.cuts_in_two (db w) 1 text None).2
    ∧ (success r = true ↔
       ∃ ids, (sql_split_fence Demo.cuts_in_two (db w) 1 text None).1 = inr (Some ids)
              ∧ ids ≠ [])
    ∧ (∀ ids, (sql_split_fence Demo.cuts_in_two (db w) 1 text None).1 = inr (Some ids) →
         ids ≠ [] →
         ∃ detected count,
           r = Split 1 ids (length ids) detected count "围栏切割成功").
Proof.
  apply (split_fence_outcome Demo.cuts_in_two 1
           (LineDict (Some "LineString") (Some [(0%Q, 0%Q); (1%Q, 1%Q)]))
           "LINESTRING(0 0,1 1)" None (Demo.started Demo.two_fences ∅ None));
    [right; eexists; split; [reflexivity|]; split; [simpl; lia | vm_compute; reflexivity]
    | reflexivity | reflexivity | reflexivity].
Defined.

(** An [UPDATE] whose condition holds of no row. *)
Lemma sql_update_fences_misses (where_ : fence_row → bool)
    (assignments : list (string * sqlval)) (w : world) :
  (∀ r, r ∈ electronic_fences (db w) → where_ r = false) →
  sql_update_fences where_ assignments w = (inr None, w).
Proof.
  intros Hmiss. unfold sql_update_fences. run.
  rewrite (map_untouched where_ _ _ Hmiss), (filter_nothing where_ _ Hmiss).
  by rewrite set_fences_same, set_db_same.
Qed.

(** The steps of an update after its geometry has been read. *)
Ltac update_tail Hmiss Hdb :=
  match goal with
  | |- context [match ?l with [] => _ | _ :: _ => _ end] => destruct l
  end;
  [ eexists _, _; split; [reflexivity|]; exact Hdb | ];
  unfold bind at 1; unfold gets at 1; unfold bind at 1;
  try match goal with
      | |- context [ST_GeomFromText ?E ?t] =>
        unfold lift at 1; destruct (ST_GeomFromText E t) as [?|[]];
        [ eexists _, _; split; [reflexivity|]; exact Hdb | ]
      end;
  try (unfold ret at 1);
  unfold bind at 1; rewrite sql_update_fences_misses by exact Hmiss;
  eexists _, _; split; [reflexivity|]; exact Hdb.

(** X21. An update of a fence that is absent or not active always fails,
    whatever the fields given, and leaves the store as it was. *)
Theorem update_fence_needs_active_fence (E : collaborators) (fence_id : Z)
    (fence_name : option string) (fence_geometry : option geometry_data)
    (fence_purpose fence_description fence_color : option string)
    (fence_opacity : option Q) (fence_tags fence_config : option (list (string * string)))
    (operator_id : option Z) (w : world) :
  db_pool w = true →
  (∀ r, r ∈ electronic_fences (db w) → has_id fence_id r = true →
        status_eq "active" r = false) →
  ∃ e w',
    update_fence E fence_id fence_name fence_geometry fence_purpose fence_description
      fence_color fence_opacity fence_tags fence_config operator_id w
    = (inr (Failure e "围栏更新失败"), w')
    ∧ db w' = db w.
Proof.
  intros Hpool Hnone.
  assert (∀ w1, db w1 = db w →
            ∀ r, r ∈ electronic_fences (db w1) →
                 has_id fence_id r && status_eq "active" r = false) as Hmiss.
  { intros w1 -> r Hr. destruct (has_id fence_id r) eqn:Hid; [|done]. by apply Hnone. }
  unfold update_fence, try_except. unfold bind at 1.
  destruct (get_db_connection_ready false w Hpool) as [p ->]. cbn zeta beta iota.
  unfold bind at 1.
  destruct fence_geometry as [g|].
  - unfold bind at 1.
    destruct (validate_geometry_logs E g w) as (valid & w1 & -> & L1).
    assert (db w1 = db w) as Hdb1 by apply (logged_frame _ _ L1).
    destruct valid; cbn [negb];
      [|eexists _, _; split; [reflexivity|]; exact Hdb1].
    destruct g as [text|d|].
    + unfold ret at 1. update_tail (Hmiss w1 Hdb1) Hdb1.
    + unfold bind at 1.
      destruct (convert_geojson_to_wkt E d w1) as [[e1|wkt] w2] eqn:Hconv;
        pose proof (convert_geojson_to_wkt_logs E d w1 w2 _ Hconv) as L2;
        assert (db w2 = db w) as Hdb2
          by (rewrite <- Hdb1; apply (logged_frame _ _ L2)).
      * eexists _, _. split; [reflexivity|]. exact Hdb2.
      * unfold ret at 1. update_tail (Hmiss w2 Hdb2) Hdb2.
    + eexists _, _. split; [reflexivity|]. exact Hdb1.
  - unfold ret at 1. update_tail (Hmiss w eq_refl) (eq_refl (db w)).
Qed.

Lemma update_fence_needs_active_fence_witness :
  let store :=
    {| electronic_fences := [Demo.deleted_fence 1 "A"; Demo.active_fence 2 "B"];
       fence_overlaps := []; next_fence_id := 3 |} in
  let w := Demo.started store ∅ None in
  ∃ e w',
    update_fence Demo.quiet 1 (Some "A2") None None None None None None None None w
    = (inr (Failure e "围栏更新失败"), w')
    ∧ db w' = db w.
Proof.
  apply (update_fence_needs_active_fence Demo.quiet 1 (Some "A2") None None None None None
           None None None
           (Demo.started
              {| electronic_fences := [Demo.deleted_fence 1 "A"; Demo.active_fence 2 "B"];
                 fence_overlaps := []; next_fence_id := 3 |} ∅ None)).
  - reflexivity.
  - intros r Hr Hid.
    change (r ∈ [Demo.deleted_fence 1 "A"; Demo.active_fence 2 "B"]) in Hr.
    apply elem_of_cons in Hr as [-> | Hr]; [vm_compute; reflexivity|].
    apply list_elem_of_singleton in Hr as ->. vm_compute in Hid. discriminate.
Defined.

(** The rows a soft delete leaves: none of the given identity is still
    open to deletion. *)
Lemma delete_fence_leaves_no_target (fence_id : Z) (operator_id : option Z) (w : world) :
  db_pool w = true →
  ∀ r, r ∈ electronic_fences (db (delete_fence fence_id operator_id w).2) →
       has_id fence_id r && status_ne "deleted" r = false.
Proof.
  intros Hpool r. rewrite (delete_fence_run fence_id operator_id w Hpool).
  set (hit := λ r : fence_row, has_id fence_id r && status_ne "deleted" r).
  assert (∀ r0, (if hit r0 then soft_deleted (now w) r0 else r0) = r → hit r = false)
    as Hone.
  { intros r0 <-. destruct (hit r0) eqn:Hhit; [|exact Hhit].
    unfold hit. apply andb_false_iff. right.
    unfold status_ne, column, soft_deleted.
    rewrite lookup_insert_ne by done. by rewrite lookup_insert_eq. }
  destruct (List.filter hit (electronic_fences (db w))); simpl;
    intros (r0 & Heq & _)%list_elem_of_In%in_map_iff; by apply (Hone r0).
Qed.

(** X22. Deleting is idempotent: once a deletion has run with the pools
    started, a further deletion of the same fence fails and changes
    nothing. *)
Theorem delete_fence_twice (fence_id : Z) (operator_id operator_id' : option Z)
    (w w2 : world) :
  db_pool w = true →
  db w2 = db (delete_fence fence_id operator_id w).2 →
  db_pool w2 = true →
  (delete_fence fence_id operator_id' w2).1
  = inr (Failure "围栏不存在或已被删除" "围栏删除失败")
  ∧ db (delete_fence fence_id operator_id' w2).2 = db w2.
Proof.
  intros Hpool Hdb Hpool2.
  pose proof (delete_fence_leaves_no_target fence_id operator_id w Hpool) as Hmiss.
  rewrite <- Hdb in Hmiss.
  rewrite (delete_fence_run fence_id operator_id' w2 Hpool2).
  rewrite (filter_nothing _ _ Hmiss). simpl.
  by rewrite (map_untouched _ _ _ Hmiss), set_fences_same.
Qed.

Lemma delete_fence_twice_witness :
  let w := Demo.started Demo.two_fences ∅ None in
  let w2 := (delete_fence 1 None w).2 in
  (delete_fence 1 (Some 7) w2).1 = inr (Failure "围栏不存在或已被删除" "围栏删除失败")
  ∧ db (delete_fence 1 (Some 7) w2).2 = db w2.
Proof.
  apply (delete_fence_twice 1 None (Some 7) (Demo.started Demo.two_fences ∅ None)
           (delete_fence 1 None (Demo.started Demo.two_fences ∅ None)).2);
    [reflexivity | reflexivity | vm_compute; reflexivity].
Defined.

(** X23. Renaming an active fence succeeds without running a detection:
    the rows of that fence take the new name and the current instant and
    stay active, every other row and the overlap table are left as they
    were. *)
Theorem update_fence_renames_only_its_fence (E : collaborators) (fence_id : Z)
    (name : string) (operator_id : option Z) (w : world) (row : fence_row) :
  db_pool w = true →
  row ∈ electronic_fences (db w) →
  has_id fence_id row = true →
  status_eq "active" row = true →
  ∃ fence_area w',
    update_fence E fence_id (Some name) None None None None None None None operator_id w
    = (inr (Updated fence_id (SText name) fence_area false 0 "围栏更新成功"), w')
    ∧ fence_overlaps (db w') = fence_overlaps (db w)
    ∧ length (electronic_fences (db w')) = length (electronic_fences (db w))
    ∧ (∀ r, r ∈ electronic_fences (db w) →
            has_id fence_id r && status_eq "active" r = false →
            r ∈ electronic_fences (db w'))
    ∧ (∀ r, r ∈ electronic_fences (db w) →
            has_id fence_id r && status_eq "active" r = true →
            ∃ r', r' ∈ electronic_fences (db w')
                  ∧ r' = <["updated_at" := STime (now w)]> (<["fence_name" := SText name]> r)
                  ∧ has_id fence_id r' = true ∧ status_eq "active" r' = true).
Proof.
  intros Hpool Hrow Hid Hact.
  set (hit := λ r : fence_row, has_id fence_id r && status_eq "active" r).
  assert (hit row = true) as Hhit by (unfold hit; by rewrite Hid, Hact).
  destruct (filter_something hit _ row Hrow Hhit) as (first & rest & Hfilter).
  unfold update_fence. run.
  destruct (get_db_connection_ready false w Hpool) as [p ->]. simpl.
  unfold sql_update_fences. run. fold hit. rewrite Hfilter. simpl.
  eexists _, _. split.
  { f_equal. f_equal. unfold column, apply_set. simpl.
    rewrite lookup_insert_ne by done. by rewrite lookup_insert_eq. }
  simpl. split; [done|]. split; [by rewrite length_map|]. split.
  - intros r Hr Hmiss. apply list_elem_of_In, in_map_iff. exists r.
    unfold hit. cbv beta. rewrite Hmiss. split; [done | by apply list_elem_of_In].
  - intros r Hr Hr_hit. eexists. split; [|split; [reflexivity|]].
    + apply list_elem_of_In, in_map_iff. exists r.
      unfold hit. cbv beta. rewrite Hr_hit.
      split; [reflexivity | by apply list_elem_of_In].
    + apply andb_prop in Hr_hit as [Hr_id Hr_act].
      unfold has_id, status_eq, column in *.
      by rewrite !lookup_insert_ne by done.
Qed.

Lemma update_fence_renames_only_its_fence_witness :
  let w := Demo.started Demo.two_fences ∅ None in
  ∃ fence_area w',
    update_fence Demo.quiet 2 (Some "B2") None None None None None None None None w
    = (inr (Updated 2 (SText "B2") fence_area false 0 "围栏更新成功"), w')
    ∧ fence_overlaps (db w') = fence_overlaps (db w)
    ∧ length (electronic_fences (db w')) = length (electronic_fences (db w))
    ∧ (∀ r, r ∈ electronic_fences (db w) →
            has_id 2 r && status_eq "active" r = false →
            r ∈ electronic_fences (db w'))
    ∧ (∀ r, r ∈ electronic_fences (db w) →
            has_id 2 r && status_eq "active" r = true →
            ∃ r', r' ∈ electronic_fences (db w')
                  ∧ r' = <["updated_at" := STime (now w)]> (<["fence_name" := SText "B2"]> r)
                  ∧ has_id 2 r' = true ∧ status_eq "active" r' = true).
Proof.
  apply (update_fence_renames_only_its_fence Demo.quiet 2 "B2" None
           (Demo.started Demo.two_fences ∅ None) (Demo.active_fence 2 "B"));
    [reflexivity | | vm_compute; reflexivity | vm_compute; reflexivity].
  change (Demo.active_fence 2 "B" ∈ [Demo.active_fence 1 "A"; Demo.active_fence 2 "B"]).
  apply elem_of_cons. right. apply elem_of_cons. by left.
Defined.

(** ** Export *)

Section ExportFacts.

Import FenceExport.

Context (R : readers).

Lemma elem_of_insert_by_id (x row : fence_row) (rows : list fence_row) :
  x ∈ insert_by_id row rows ↔ x = row ∨ x ∈ rows.
Proof.
  induction rows as [|r rest IH]; simpl.
  - rewrite list_elem_of_singleton, elem_of_nil. tauto.
  - destruct (id_key row <=? id_key r); rewrite !elem_of_cons, ?IH; tauto.
Qed.

Lemma elem_of_order_by_id (x : fence_row) (rows : list fence_row) :
  x ∈ order_by_id rows ↔ x ∈ rows.
Proof.
  induction rows as [|r rest IH]; [done|]. unfold order_by_id in *. simpl.
  rewrite elem_of_insert_by_id, IH, elem_of_cons. tauto.
Qed.

Lemma length_insert_by_id (row : fence_row) (rows : list fence_row) :
  length (insert_by_id row rows) = S (length rows).
Proof.
  induction rows as [|r rest IH]; [done|]. simpl.
  destruct (id_key row <=? id_key r); simpl; by rewrite ?IH.
Qed.

Lemma length_order_by_id (rows : list fence_row) :
  length (order_by_id rows) = length rows.
Proof.
  induction rows as [|r rest IH]; [done|]. unfold order_by_id in *. simpl.
  by rewrite length_insert_by_id, IH.
Qed.

Lemma export_feature_id (include_properties : bool) (row : fence_row)
    (f : exported_feature R) :
  export_feature R include_properties row = inr f →
  feature_id R f = Some (Column R (column "id" row)).
Proof.
  unfold export_feature, parsed_if_any. destruct include_properties.
  - destruct (timestamp R (column "created_at" row)); [done|].
    destruct (timestamp R (column "updated_at" row)); [done|].
    destruct (truthy (column "fence_tags" row));
      [destruct (loads R (column "fence_tags" row)); [done|]|];
      (destruct (truthy (column "fence_config" row));
       [destruct (loads R (column "fence_config" row)); [done|]|]);
      (destruct (loads R (geometry_column R row)); [done|]); by intros [= <-].
  - destruct (loads R (geometry_column R row)); [done|]. by intros [= <-].
Qed.

Lemma export_features_each (include_properties : bool) (rows : list fence_row)
    (features : list (exported_feature R)) :
  export_features R include_properties rows = inr features →
  Forall2 (λ row f, export_feature R include_properties row = inr f) rows features.
Proof.
  revert features. induction rows as [|row rest IH]; intros features; simpl.
  - intros [= <-]. constructor.
  - destruct (export_feature R include_properties row) as [|f] eqn:Hf; [done|].
    destruct (export_features R include_properties rest) as [|fs]; [done|].
    intros [= <-]. constructor; [done | by apply IH].
Qed.

Lemma export_features_fails (include_properties : bool) (rows : list fence_row)
    (row : fence_row) (e : exn) :
  row ∈ rows →
  export_feature R include_properties row = inl e →
  ∃ e', export_features R include_properties rows = inl e'.
Proof.
  intros Hin Hrow. induction rows as [|r rest IH]; [by apply elem_of_nil in Hin|].
  simpl. destruct (export_feature R include_properties r) as [e1|f] eqn:Hr; [by eexists|].
  apply elem_of_cons in Hin as [-> | Hin]; [congruence|].
  destruct (IH Hin) as [e' ->]. by eexists.
Qed.

(** The run of an export once the pools are started. *)
Lemma export_fences_geojson_run (fence_ids : option (list Z)) (include_properties : bool)
    (w : world) :
  db_pool w = true →
  export_fences_geojson R fence_ids include_properties w
  = match export_features R include_properties
            (order_by_id (List.filter (exported fence_ids) (electronic_fences (db w)))) with
    | inl e =>
      (inr (ExportFailure R (exn_str e) "围栏导出失败"),
       set_log (log w ++ [("导出围栏失败: " ++ exn_str e)%string]) w)
    | inr features =>
      (inr (Exported R features (isoformat R (now w)) (length features) (length features)
              "围栏导出成功"), w)
    end.
Proof.
  intros Hpool. unfold export_fences_geojson, sql_select_for_export. run.
  destruct (get_db_connection_ready true w Hpool) as [p ->]. simpl.
  by destruct (export_features R include_properties _).
Qed.

(** What a successful export holds. *)
Lemma export_fences_geojson_selected (fence_ids : option (list Z))
    (include_properties : bool) (w : world) :
  db_pool w = true →
  ∃ r w',
    export_fences_geojson R fence_ids include_properties w = (inr r, w')
    ∧ db w' = db w
    ∧ ∀ features generated_at n m message,
        r = Exported R features generated_at n m message →
        n = length features ∧ m = length features
        ∧ length features
          = length (List.filter (exported fence_ids) (electronic_fences (db w)))
        ∧ ∀ f, f ∈ features →
            ∃ row, row ∈ electronic_fences (db w)
                   ∧ status_eq "active" row = true
                   ∧ feature_id R f = Some (Column R (column "id" row))
                   ∧ ∀ fence_id rest, fence_ids = Some (fence_id :: rest) →
                       any_of (fence_id :: rest) row = true.
Proof.
  intros Hpool. rewrite (export_fences_geojson_run _ _ _ Hpool).
  destruct (export_features R include_properties _) as [e|features] eqn:Hrun.
  { eexists _, _. split; [reflexivity|]. split; [done|]. by intros. }
  eexists _, _. split; [reflexivity|]. split; [done|].
  intros ? ? ? ? ? [= <- <- <- <- <-]. split; [done|]. split; [done|].
  apply export_features_each in Hrun.
  split.
  { by rewrite <- (Forall2_length _ _ _ Hrun), length_order_by_id. }
  intros f [i Hf]%list_elem_of_lookup_1.
  destruct (Forall2_lookup_r _ _ _ _ _ Hrun Hf) as (row & Hrow & Hfeature).
  exists row. apply list_elem_of_lookup_2 in Hrow. rewrite elem_of_order_by_id in Hrow.
  apply list_elem_of_In, filter_In in Hrow as [Hin Hsel]. apply list_elem_of_In in Hin.
  apply andb_prop in Hsel as [Hact Hids].
  split; [done|]. split; [done|]. split; [by apply (export_feature_id include_properties)|].
  by intros fence_id rest ->.
Qed.

(** X24. An export never raises and does not write to the store.  When it
    succeeds, both counts are the number of features, which is the number of
    active fences selected (all of them when no identity or an empty list is
    given), and every feature carries the identity of an active fence of
    the store, one of the identities asked for when some were. *)
Theorem export_lists_the_active_fences (fence_ids : option (list Z))
    (include_properties : bool) (w : world) :
  db_pool w = true →
  ∃ r w',
    export_fences_geojson R fence_ids include_properties w = (inr r, w')
    ∧ db w' = db w
    ∧ ∀ features generated_at n m message,
        r = Exported R features generated_at n m message →
        n = length features ∧ m = length features
        ∧ length features
          = length (List.filter (exported fence_ids) (electronic_fences (db w)))
        ∧ ∀ f, f ∈ features →
            ∃ row, row ∈ electronic_fences (db w)
                   ∧ status_eq "active" row = true
                   ∧ feature_id R f = Some (Column R (column "id" row))
                   ∧ ∀ fence_id rest, fence_ids = Some (fence_id :: rest) →
                       any_of (fence_id :: rest) row = true.
Proof. exact (export_fences_geojson_selected fence_ids include_properties w). Qed.

(** X25. A fence that has been deleted is in no later export: after a
    deletion has run with the pools started, no feature of a successful
    export carries the identity of the deleted fence. *)
Theorem deleted_fence_is_not_exported (fence_id : Z) (operator_id : option Z)
    (fence_ids : option (list Z)) (include_properties : bool) (w w2 : world) :
  db_pool w = true →
  db w2 = db (delete_fence fence_id operator_id w).2 →
  db_pool w2 = true →
  ∀ features generated_at n m message w',
    export_fences_geojson R fence_ids include_properties w2
    = (inr (Exported R features generated_at n m message), w') →
    ∀ f, f ∈ features → feature_id R f ≠ Some (Column R (SInt fence_id)).
Proof.
  intros Hpool Hdb Hpool2 features generated_at n m message w' Hrun f Hf Hid.
  destruct (export_fences_geojson_selected fence_ids include_properties w2 Hpool2)
    as (r & w'' & Hrun' & _ & Hspec).
  rewrite Hrun in Hrun'. injection Hrun' as <- <-.
  destruct (Hspec _ _ _ _ _ eq_refl) as (_ & _ & _ & Hall).
  destruct (Hall f Hf) as (row & Hrow & Hact & Hrow_id & _).
  rewrite Hid in Hrow_id. injection Hrow_id as Hrow_id.
  rewrite Hdb in Hrow.
  pose proof (delete_fence_leaves_no_target fence_id operator_id w Hpool row Hrow) as Hmiss.
  rewrite (status_eq_ne row "active" "deleted" Hact) in Hmiss.
  unfold has_id in Hmiss. rewrite <- Hrow_id in Hmiss.
  by rewrite bool_decide_eq_true_2 in Hmiss.
Qed.

(** X26. One selected fence whose geometry is NULL makes the whole export
    fail. *)
Theorem export_fails_on_missing_geometry (fence_ids : option (list Z))
    (include_properties : bool) (w : world) (row : fence_row) :
  row ∈ electronic_fences (db w) →
  exported fence_ids row = true →
  column "fence_geometry" row = SNull →
  ∃ e w',
    export_fences_geojson R fence_ids include_properties w
    = (inr (ExportFailure R e "围栏导出失败"), w')
    ∧ db w' = db w.
Proof.
  intros Hrow Hsel Hnull. destruct (db_pool w) eqn:Hpool.
  - rewrite (export_fences_geojson_run _ _ _ Hpool).
    assert (∃ e, export_feature R include_properties row = inl e) as [e He].
    { unfold export_feature, geometry_column. rewrite Hnull. simpl.
      destruct include_properties; [|by eexists].
      destruct (timestamp R (column "created_at" row)); [by eexists|].
      destruct (timestamp R (column "updated_at" row)); [by eexists|].
      destruct (parsed_if_any R "fence_tags" row _); [by eexists|].
      destruct (parsed_if_any R "fence_config" row _); by eexists. }
    destruct (export_features_fails include_properties
                (order_by_id (List.filter (exported fence_ids) (electronic_fences (db w))))
                row e) as [e' ->]; [|done|by eexists _, _].
    apply elem_of_order_by_id, list_elem_of_In, filter_In.
    split; [by apply list_elem_of_In | done].
  - unfold export_fences_geojson. run.
    rewrite (get_db_connection_down true w Hpool). simpl. by eexists _, _.
Qed.

End ExportFacts.

Lemma export_lists_the_active_fences_witness :
  let w := Demo.started Demo.surveyed_store ∅ None in
  ∃ r w',
    FenceExport.export_fences_geojson Demo.text_readers (Some [2]) true w = (inr r, w')
    ∧ db w' = db w
    ∧ ∀ features generated_at n m message,
        r = FenceExport.Exported Demo.text_readers features generated_at n m message →
        n = length features ∧ m = length features
        ∧ length features
          = length (List.filter (FenceExport.exported (Some [2])) (electronic_fences (db w)))
        ∧ ∀ f, f ∈ features →
            ∃ row, row ∈ electronic_fences (db w)
                   ∧ status_eq "active" row = true
                   ∧ FenceExport.feature_id Demo.text_readers f
                     = Some (FenceExport.Column Demo.text_readers (column "id" row))
                   ∧ ∀ fence_id rest, Some [2] = Some (fence_id :: rest) →
                       FenceExport.any_of (fence_id :: rest) row = true.
Proof.
  apply (export_lists_the_active_fences Demo.text_readers (Some [2]) true
           (Demo.started Demo.surveyed_store ∅ None)).
  reflexivity.
Defined.

Lemma deleted_fence_is_not_exported_witness :
  let w := Demo.started Demo.surveyed_store ∅ None in
  let w2 := (delete_fence 1 None w).2 in
  ∃ features generated_at n m message w',
    FenceExport.export_fences_geojson Demo.text_readers None false w2
    = (inr (FenceExport.Exported Demo.text_readers features generated_at n m message), w')
    ∧ length features = 1%nat
    ∧ ∀ f, f ∈ features →
           FenceExport.feature_id Demo.text_readers f
           ≠ Some (FenceExport.Column Demo.text_readers (SInt 1)).
Proof.
  eexists _, _, _, _, _, _. split; [vm_compute; reflexivity|]. split; [reflexivity|].
  eapply (deleted_fence_is_not_exported Demo.text_readers 1 None None false
            (Demo.started Demo.surveyed_store ∅ None)
            (delete_fence 1 None (Demo.started Demo.surveyed_store ∅ None)).2
            eq_refl eq_refl eq_refl).
  vm_compute. reflexivity.
Defined.

Lemma export_fails_on_missing_geometry_witness :
  let w := Demo.started Demo.two_fences ∅ None in
  ∃ e w',
    FenceExport.export_fences_geojson Demo.text_readers None true w
    = (inr (FenceExport.ExportFailure Demo.text_readers e "围栏导出失败"), w')
    ∧ db w' = db w.
Proof.
  apply (export_fails_on_missing_geometry Demo.text_readers None true
           (Demo.started Demo.two_fences ∅ None) (Demo.active_fence 1 "A"));
    [|vm_compute; reflexivity | vm_compute; reflexivity].
  change (Demo.active_fence 1 "A" ∈ [Demo.active_fence 1 "A"; Demo.active_fence 2 "B"]).
  apply elem_of_cons. by left.
Defined.

(** ** The list of fences *)

Section ListFacts.

Import FenceExport FenceList.

Context (R : readers) (L : locators).

Lemma elem_of_insert_by_created (x row : fence_row) (rows : list fence_row) :
  x ∈ insert_by_created row rows ↔ x = row ∨ x ∈ rows.
Proof.
  induction rows as [|r rest IH]; simpl.
  - rewrite list_elem_of_singleton, elem_of_nil. tauto.
  - destruct (not_after row r); rewrite !elem_of_cons, ?IH; tauto.
Qed.

Lemma elem_of_order_by_created_desc (x : fence_row) (rows : list fence_row) :
  x ∈ order_by_created_desc rows ↔ x ∈ rows.
Proof.
  induction rows as [|r rest IH]; [done|]. unfold order_by_created_desc in *. simpl.
  rewrite elem_of_insert_by_created, IH, elem_of_cons. tauto.
Qed.

Lemma length_insert_by_created (row : fence_row) (rows : list fence_row) :
  length (insert_by_created row rows) = S (length rows).
Proof.
  induction rows as [|r rest IH]; [done|]. simpl.
  destruct (not_after row r); simpl; by rewrite ?IH.
Qed.

Lemma length_order_by_created_desc (rows : list fence_row) :
  length (order_by_created_desc rows) = length rows.
Proof.
  induction rows as [|r rest IH]; [done|]. unfold order_by_created_desc in *. simpl.
  by rewrite length_insert_by_created, IH.
Qed.

Lemma fence_dict_id (row : fence_row) (d : list (string * value R)) :
  fence_dict R row = inr d → listed_id R d = Some (Column R (column "id" row)).
Proof.
  unfold fence_dict.
  repeat match goal with
         | |- context [parsed_column R ?c ?v] => destruct (parsed_column R c v); [done|]
         end.
  by intros [= <-].
Qed.

Lemma fence_dicts_each (rows : list fence_row) (ds : list (list (string * value R))) :
  fence_dicts R rows = inr ds →
  Forall2 (λ row d, fence_dict R row = inr d) rows ds.
Proof.
  revert ds. induction rows as [|row rest IH]; intros ds; simpl.
  - intros [= <-]. constructor.
  - destruct (fence_dict R row) as [|d] eqn:Hd; [done|].
    destruct (fence_dicts R rest) as [|ds']; [done|].
    intros [= <-]. constructor; [done | by apply IH].
Qed.

(** What a successful listing holds. *)
Lemma get_fence_list_selected (q : request) (w : world) :
  db_pool w = true →
  ∃ r w',
    get_fence_list R L q w = (inr r, w')
    ∧ db w' = db w
    ∧ ∀ total_count returned_count lim off fences,
        r = Listed R total_count returned_count lim off fences →
        returned_count = length fences
        ∧ Z.of_nat returned_count ≤ limit q
        ∧ (returned_count ≤ total_count)%nat
        ∧ ∃ box,
            envelope L q = inr box
            ∧ total_count
              = length (List.filter (listed L q box) (electronic_fences (db w)))
            ∧ ∀ d, d ∈ fences →
                ∃ row, row ∈ electronic_fences (db w)
                       ∧ listed L q box row = true
                       ∧ listed_id R d = Some (Column R (column "id" row)).
Proof.
  intros Hpool. unfold get_fence_list, sql_select_list, sql_count_list. run.
  destruct (get_db_connection_ready true w Hpool) as [p ->]. simpl.
  destruct (envelope L q) as [e|box]; simpl.
  { eexists _, _. split; [reflexivity|]. split; [done|]. by intros. }
  destruct (Z.ltb_spec (limit q) 0) as [|Hlimit]; simpl.
  { eexists _, _. split; [reflexivity|]. split; [done|]. by intros. }
  destruct (Z.ltb_spec (offset q) 0) as [|Hoffset]; simpl.
  { eexists _, _. split; [reflexivity|]. split; [done|]. by intros. }
  set (matching := List.filter (listed L q box) (electronic_fences (db w))).
  set (page := take (Z.to_nat (limit q))
                 (drop (Z.to_nat (offset q)) (order_by_created_desc matching))).
  destruct (fence_dicts R page) as [e|ds] eqn:Hds; simpl.
  { eexists _, _. split; [reflexivity|]. split; [done|]. by intros. }
  eexists _, _. split; [reflexivity|]. split; [done|].
  intros ? ? ? ? ? [= <- <- <- <- <-].
  apply fence_dicts_each in Hds. pose proof (Forall2_length _ _ _ Hds) as Hlen.
  assert (length page ≤ Z.to_nat (limit q))%nat as Hpage_limit.
  { unfold page. rewrite length_take. lia. }
  assert (length page ≤ length matching)%nat as Hpage_total.
  { unfold page. rewrite length_take, length_drop, length_order_by_created_desc. lia. }
  split; [done|]. split; [lia|]. split; [done|].
  exists box. split; [done|]. split; [done|].
  intros d [i Hd]%list_elem_of_lookup_1.
  destruct (Forall2_lookup_r _ _ _ _ _ Hds Hd) as (row & Hrow & Hdict).
  exists row. apply list_elem_of_lookup_2 in Hrow.
  assert (row ∈ matching) as Hin.
  { apply elem_of_order_by_created_desc.
    unfold page in Hrow.
    by apply (subseteq_drop (Z.to_nat (offset q))), (subseteq_take (Z.to_nat (limit q))). }
  apply list_elem_of_In, filter_In in Hin as [Hin Hsel]. apply list_elem_of_In in Hin.
  split; [done|]. split; [done|]. by apply fence_dict_id.
Qed.

(** X27. A listing never raises and does not write to the store.  When it
    succeeds, [returned_count] is the number of fences returned, at most
    [limit] and at most [total_count], which is the number of rows meeting
    the conditions; and every fence returned carries the identity of a row
    of the store that meets them. *)
Theorem get_fence_list_returns_what_matches (q : request) (w : world) :
  db_pool w = true →
  ∃ r w',
    get_fence_list R L q w = (inr r, w')
    ∧ db w' = db w
    ∧ ∀ total_count returned_count lim off fences,
        r = Listed R total_count returned_count lim off fences →
        returned_count = length fences
        ∧ Z.of_nat returned_count ≤ limit q
        ∧ (returned_count ≤ total_count)%nat
        ∧ ∃ box,
            envelope L q = inr box
            ∧ total_count
              = length (List.filter (listed L q box) (electronic_fences (db w)))
            ∧ ∀ d, d ∈ fences →
                ∃ row, row ∈ electronic_fences (db w)
                       ∧ listed L q box row = true
                       ∧ listed_id R d = Some (Column R (column "id" row)).
Proof. exact (get_fence_list_selected q w). Qed.

(** X28. A fence that has been deleted is in no later listing that does
    not ask for a status: after a deletion has run with the pools started,
    no fence of such a listing carries the identity of the deleted fence. *)
Theorem deleted_fence_is_not_listed (fence_id : Z) (operator_id : option Z)
    (q : request) (w w2 : world) :
  db_pool w = true →
  db w2 = db (delete_fence fence_id operator_id w).2 →
  db_pool w2 = true →
  given_text (status q) = None →
  ∀ total_count returned_count lim off fences w',
    get_fence_list R L q w2
    = (inr (Listed R total_count returned_count lim off fences), w') →
    ∀ d, d ∈ fences → listed_id R d ≠ Some (Column R (SInt fence_id)).
Proof.
  intros Hpool Hdb Hpool2 Hstatus total_count returned_count lim off fences w' Hrun d Hd Hid.
  destruct (get_fence_list_selected q w2 Hpool2)
    as (r & w'' & Hrun' & _ & Hspec).
  rewrite Hrun in Hrun'. injection Hrun' as <- <-.
  destruct (Hspec _ _ _ _ _ eq_refl) as (_ & _ & _ & box & _ & _ & Hall).
  destruct (Hall d Hd) as (row & Hrow & Hsel & Hrow_id).
  rewrite Hid in Hrow_id. injection Hrow_id as Hrow_id.
  rewrite Hdb in Hrow.
  pose proof (delete_fence_leaves_no_target fence_id operator_id w Hpool row Hrow) as Hmiss.
  unfold listed in Hsel. rewrite Hstatus in Hsel.
  repeat (apply andb_prop in Hsel as [Hsel _]). rewrite Hsel in Hmiss.
  unfold has_id in Hmiss. rewrite <- Hrow_id in Hmiss.
  by rewrite bool_decide_eq_true_2 in Hmiss.
Qed.

End ListFacts.

Lemma get_fence_list_returns_what_matches_witness :
  let q := Demo.default_request in
  let w := Demo.started Demo.surveyed_store ∅ None in
  ∃ r w',
    FenceList.get_fence_list Demo.text_readers Demo.no_locators q w = (inr r, w')
    ∧ db w' = db w
    ∧ ∀ total_count returned_count lim off fences,
        r = FenceList.Listed Demo.text_readers total_count returned_count lim off fences →
        returned_count = length fences
        ∧ Z.of_nat returned_count ≤ FenceList.limit q
        ∧ (returned_count ≤ total_count)%nat
        ∧ ∃ box,
            FenceList.envelope Demo.no_locators q = inr box
            ∧ total_count
              = length (List.filter (FenceList.listed Demo.no_locators q box)
                          (electronic_fences (db w)))
            ∧ ∀ d, d ∈ fences →
                ∃ row, row ∈ electronic_fences (db w)
                       ∧ FenceList.listed Demo.no_locators q box row = true
                       ∧ FenceList.listed_id Demo.text_readers d
                         = Some (FenceExport.Column Demo.text_readers (column "id" row)).
Proof.
  apply (get_fence_list_returns_what_matches Demo.text_readers Demo.no_locators
           Demo.default_request (Demo.started Demo.surveyed_store ∅ None)).
  reflexivity.
Defined.

Lemma deleted_fence_is_not_listed_witness :
  let w := Demo.started Demo.surveyed_store ∅ None in
  let w2 := (delete_fence 1 None w).2 in
  ∃ total_count returned_count lim off fences w',
    FenceList.get_fence_list Demo.text_readers Demo.no_locators Demo.default_request w2
    = (inr (FenceList.Listed Demo.text_readers total_count returned_count lim off fences),
       w')
    ∧ length fences = 1%nat
    ∧ ∀ d, d ∈ fences →
           FenceList.listed_id Demo.text_readers d
           ≠ Some (FenceExport.Column Demo.text_readers (SInt 1)).
Proof.
  eexists _, _, _, _, _, _. split; [vm_compute; reflexivity|]. split; [reflexivity|].
  eapply (deleted_fence_is_not_listed Demo.text_readers Demo.no_locators 1 None
            Demo.default_request
            (Demo.started Demo.surveyed_store ∅ None)
            (delete_fence 1 None (Demo.started Demo.surveyed_store ∅ None)).2
            eq_refl eq_refl eq_refl eq_refl).
  vm_compute. reflexivity.
Defined.

(** ** Cleaning of GeoJSON features *)

Section GeoJSONFacts.

Import GeoJSON.

Context (json_loads : string → exn + json).

Lemma get_set_eq (k : string) (v : json) (members : list (string * json)) :
  get k (set k v members) = Some v.
Proof.
  induction members as [|[k' v'] rest IH]; simpl; [by rewrite String.eqb_refl|].
  destruct (String.eqb k' k) eqn:Hk; simpl; by rewrite Hk.
Qed.

Lemma get_set_ne (k k0 : string) (v : json) (members : list (string * json)) :
  k0 ≠ k → get k0 (set k v members) = get k0 members.
Proof.
  intros Hne. induction members as [|[k' v'] rest IH]; simpl.
  - by destruct (String.eqb_spec k k0).
  - destruct (String.eqb_spec k' k) as [->|]; simpl.
    + by destruct (String.eqb_spec k k0).
    + by rewrite IH.
Qed.

Lemma set_set (k : string) (v : json) (members : list (string * json)) :
  set k v (set k v members) = set k v members.
Proof.
  induction members as [|[k' v'] rest IH]; simpl; [by rewrite String.eqb_refl|].
  destruct (String.eqb k' k) eqn:Hk; simpl; rewrite Hk; [done | by rewrite IH].
Qed.

Lemma set_not_empty (k : string) (v : json) (members : list (string * json)) :
  set k v members ≠ [].
Proof. destruct members as [|[k' v'] rest]; simpl; [done|]. by destruct (String.eqb k' k). Qed.

Lemma clean_feature_drawable (f f' : json) :
  clean_feature json_loads f = Some f' → drawable f' = true.
Proof.
  unfold clean_feature, drawable.
  destruct f as [| | | | |[|member others]]; try done.
  destruct (get "geometry" (member :: others)) as [[| | |text| |geometry]|] eqn:Hg; try done.
  - destruct (String.eqb text "null" || String.eqb text "" || blank text); [done|].
    destruct (json_loads text) as [|[| | | | |parsed]]; try done.
    destruct (truthy_get "type" parsed && truthy_get "coordinates" parsed) eqn:Hok; [|done].
    intros Heq.
    assert (f' = JObj (set "geometry" (JObj parsed) (member :: others))) as ->
      by congruence.
    by rewrite get_set_eq.
  - destruct (truthy_get "type" geometry && truthy_get "coordinates" geometry) eqn:Hok;
      [|done].
    intros [= <-]. cbv beta iota. by rewrite Hg.
Qed.

Lemma drawable_clean_feature (f : json) :
  drawable f = true → clean_feature json_loads f = Some f.
Proof.
  unfold clean_feature, drawable.
  destruct f as [| | | | |[|member others]]; try done.
  destruct (get "geometry" (member :: others)) as [[| | | | |geometry]|]; try done.
  by intros ->.
Qed.

Lemma omap_clean_feature_drawable (items : list json) :
  Forall (λ f, drawable f = true) (omap (clean_feature json_loads) items).
Proof.
  induction items as [|f rest IH]; [constructor|].
  change (omap (clean_feature json_loads) (f :: rest))
    with (match clean_feature json_loads f with
          | Some f' => f' :: omap (clean_feature json_loads) rest
          | None => omap (clean_feature json_loads) rest
          end).
  destruct (clean_feature json_loads f) as [f'|] eqn:Hf; [|done].
  constructor; [by apply (clean_feature_drawable f) | done].
Qed.

Lemma omap_clean_feature_fixed (items : list json) :
  Forall (λ f, drawable f = true) items → omap (clean_feature json_loads) items = items.
Proof.
  induction 1 as [|f rest Hf _ IH]; [done|].
  change (omap (clean_feature json_loads) (f :: rest))
    with (match clean_feature json_loads f with
          | Some f' => f' :: omap (clean_feature json_loads) rest
          | None => omap (clean_feature json_loads) rest
          end).
  by rewrite (drawable_clean_feature f Hf), IH.
Qed.

Lemma length_omap_clean_feature (items : list json) :
  (length (omap (clean_feature json_loads) items) ≤ length items)%nat.
Proof.
  induction items as [|f rest IH]; [done|].
  change (omap (clean_feature json_loads) (f :: rest))
    with (match clean_feature json_loads f with
          | Some f' => f' :: omap (clean_feature json_loads) rest
          | None => omap (clean_feature json_loads) rest
          end).
  destruct (clean_feature json_loads f); simpl; lia.
Qed.

(** X29. Where [clean_geojson_features] returns, it returns the same
    dictionary with at most its [features] replaced: every feature left is
    an object whose geometry is an object with a type and coordinates,
    none is added, a list of such features is left as it is, and cleaning
    the result again changes nothing. *)
Theorem clean_geojson_features_keeps_the_drawable (members : list (string * json))
    (result : option (list (string * json))) :
  clean_geojson_features json_loads (Some members) = inr result →
  ∃ members',
    result = Some members'
    ∧ (∀ k, k ≠ "features" → get k members' = get k members)
    ∧ (get "features" members = None → members' = members)
    ∧ (is_Some (get "features" members) →
       ∃ cleaned,
         get "features" members' = Some (JArr cleaned)
         ∧ Forall (λ f, drawable f = true) cleaned
         ∧ ∀ items, get "features" members = Some (JArr items) →
             (length cleaned ≤ length items)%nat
             ∧ (Forall (λ f, drawable f = true) items → cleaned = items))
    ∧ clean_geojson_features json_loads (Some members') = inr (Some members').
Proof.
  unfold clean_geojson_features.
  destruct members as [|member others].
  { intros [= <-]. exists []. split; [done|]. split; [done|]. split; [done|].
    split; [by intros [? [=]] | done]. }
  set (members := member :: others).
  destruct (get "features" members) as [features|] eqn:Hfeatures.
  2:{ intros [= <-]. exists members. split; [done|]. split; [done|]. split; [done|].
      split; [by intros [? [=]]|]. unfold members at 1. by rewrite Hfeatures. }
  destruct (cleaned_features json_loads features) as [e|cleaned] eqn:Hcleaned; [done|].
  intros [= <-]. exists (set "features" (JArr cleaned) members).
  assert (Forall (λ f, drawable f = true) cleaned) as Hdrawable.
  { destruct features; simpl in Hcleaned; simplify_eq; try constructor.
    apply omap_clean_feature_drawable. }
  split; [done|]. split; [by intros k Hk; apply get_set_ne|]. split; [done|]. split.
  - intros _. exists cleaned. split; [apply get_set_eq|]. split; [done|].
    intros items [= ->]. simpl in Hcleaned. injection Hcleaned as <-.
    split; [apply length_omap_clean_feature | apply omap_clean_feature_fixed].
  - destruct (set "features" (JArr cleaned) members) as [|m ms] eqn:Hset;
      [by apply set_not_empty in Hset|].
    rewrite <- Hset, get_set_eq. unfold cleaned_features.
    by rewrite (omap_clean_feature_fixed cleaned Hdrawable), set_set.
Qed.

End GeoJSONFacts.

Lemma clean_geojson_features_keeps_the_drawable_witness :
  ∃ members',
    Some (GeoJSON.set "features"
            (GeoJSON.JArr
               [GeoJSON.JObj [("type", GeoJSON.JStr "Feature");
                              ("geometry", Demo.point_geometry)];
                GeoJSON.JObj [("type", GeoJSON.JStr "Feature");
                              ("geometry", Demo.point_geometry)]])
            Demo.three_features)
    = Some members'
    ∧ (∀ k, k ≠ "features" → GeoJSON.get k members' = GeoJSON.get k Demo.three_features)
    ∧ (GeoJSON.get "features" Demo.three_features = None → members' = Demo.three_features)
    ∧ (is_Some (GeoJSON.get "features" Demo.three_features) →
       ∃ cleaned,
         GeoJSON.get "features" members' = Some (GeoJSON.JArr cleaned)
         ∧ Forall (λ f, GeoJSON.drawable f = true) cleaned
         ∧ ∀ items, GeoJSON.get "features" Demo.three_features = Some (GeoJSON.JArr items) →
             (length cleaned ≤ length items)%nat
             ∧ (Forall (λ f, GeoJSON.drawable f = true) items → cleaned = items))
    ∧ GeoJSON.clean_geojson_features Demo.loads_point (Some members') = inr (Some members').
Proof.
  apply (clean_geojson_features_keeps_the_drawable Demo.loads_point Demo.three_features).
  vm_compute. reflexivity.
Defined.

(** ** What an import adds *)

Lemma import_feature_adds (E : collaborators) (operator_id : option Z) (c : tally)
    (f : feature) (w : world) :
  ∃ c' w' added,
    import_feature E operator_id c f w = (inr c', w')
    ∧ electronic_fences (db w') = (electronic_fences (db w) ++ added)%list
    ∧ imported_count c' = (imported_count c + length added)%nat.
Proof.
  assert (∀ c' w', electronic_fences (db w') = electronic_fences (db w) →
                   imported_count c' = imported_count c →
                   ∃ c'' w'' added,
                     (inr c', w') = (inr c'' : exn + tally, w'')
                     ∧ electronic_fences (db w'')
                       = (electronic_fences (db w) ++ added)%list
                     ∧ imported_count c'' = (imported_count c + length added)%nat)
    as Hsame.
  { intros c' w' Hrows Hcount. exists c', w', []. split; [done|].
    rewrite app_nil_r. split; [done | simpl; lia]. }
  assert (∀ fence_name g t purpose description color opacity tags config w1,
            db w1 = db w →
            ∃ r w2 added,
              create_fence E fence_name g t purpose description color opacity None None
                operator_id tags config w1 = (inr r, w2)
              ∧ electronic_fences (db w2) = (electronic_fences (db w) ++ added)%list
              ∧ imported_count (recorded r c) = (imported_count c + length added)%nat)
    as Hcreate.
  { intros fence_name g t purpose description color opacity tags config w1 Hdb1.
    destruct (create_fence_cases E fence_name g t purpose description color opacity None
                None operator_id tags config w1) as (r & w2 & -> & Hfail & Hok).
    destruct (success r) eqn:Hr.
    - destruct (Hok eq_refl) as (fence_id & a & detected & n & row & -> & _ & Hrows & _).
      eexists _, w2, [row]. split; [done|].
      split; [by rewrite Hrows, Hdb1 | simpl; lia].
    - exists r, w2, []. split; [done|].
      rewrite app_nil_r, (Hfail eq_refl), Hdb1. split; [done|].
      unfold recorded. rewrite Hr. simpl. lia. }
  unfold import_feature. run.
  destruct f as [f_type geometry props|]; simpl; [|by apply Hsame].
  destruct (negb (bool_decide (f_type = Some "Feature"))); simpl; [by apply Hsame|].
  destruct geometry as [g|]; simpl; [|by apply Hsame].
  destruct (falsy g); simpl; [by apply Hsame|].
  destruct (validate_geometry_logs E g w) as (valid & w1 & -> & L1). simpl.
  assert (db w1 = db w) as Hdb1 by apply (logged_frame _ _ L1).
  destruct valid; simpl; [|apply Hsame; [simpl; congruence | done]].
  destruct props as [| |p]; simpl; [|apply Hsame; [simpl; congruence | done]|];
    match goal with
    | |- context [create_fence E ?a1 ?a2 ?a3 ?a4 ?a5 ?a6 ?a7 None None operator_id ?a11 ?a12 w1] =>
      destruct (Hcreate a1 a2 a3 a4 a5 a6 a7 a11 a12 w1 Hdb1)
        as (r & w2 & added & -> & Hrows & Hn)
    end;
    simpl; by exists (recorded r c), w2, added.
Qed.

Lemma import_loop_adds (E : collaborators) (operator_id : option Z) (fs : list feature)
    (c : tally) (w : world) :
  ∃ c' w' added,
    import_loop E operator_id fs c w = (inr c', w')
    ∧ electronic_fences (db w') = (electronic_fences (db w) ++ added)%list
    ∧ imported_count c' = (imported_count c + length added)%nat.
Proof.
  revert c w. induction fs as [|f fs IH]; intros c w; simpl.
  - exists c, w, []. rewrite app_nil_r. split; [done|]. split; [done | simpl; lia].
  - unfold bind.
    destruct (import_feature_adds E operator_id c f w) as (c1 & w1 & added1 & -> & H1 & N1).
    destruct (IH c1 w1) as (c2 & w2 & added2 & -> & H2 & N2).
    exists c2, w2, (added1 ++ added2)%list. split; [done|].
    rewrite H2, H1, <- app_assoc, length_app. split; [done | lia].
Qed.

(** X30. An import never raises, and what it reports as imported is what
    it has stored: the fence table after it is the table before it followed
    by as many new rows as [imported_count] says, and a refused import adds
    none. *)
Theorem import_adds_what_it_counts (E : collaborators) (geojson_data : feature_collection)
    (operator_id : option Z) (w : world) :
  ∃ r w' added,
    import_fences_geojson E geojson_data operator_id w = (inr r, w')
    ∧ electronic_fences (db w') = (electronic_fences (db w) ++ added)%list
    ∧ (success r = false → added = [])
    ∧ ∀ imported skipped errors total results message,
        r = Imported imported skipped errors total results message →
        imported = length added.
Proof.
  unfold import_fences_geojson. run.
  destruct (negb (bool_decide (fc_type geojson_data = Some "FeatureCollection"))); simpl.
  { exists (Failure "不是有效的GeoJSON FeatureCollection" "围栏导入失败"). eexists _, [].
    split; [reflexivity|]. simpl. rewrite app_nil_r. by repeat split. }
  destruct (default [] (features geojson_data)) as [|f rest]; simpl.
  { exists (Failure "没有找到要导入的围栏特征" "围栏导入失败"). eexists _, [].
    split; [reflexivity|]. simpl. rewrite app_nil_r. by repeat split. }
  destruct (import_loop_adds E operator_id (f :: rest)
              {| imported_count := 0; skipped_count := 0; error_count := 0; results := [] |} w)
    as (c & w1 & added & Hrun & Hrows & Hcount).
  simpl in Hrun. unfold bind in Hrun. rewrite Hrun. simpl in *.
  eexists _, _, added. split; [reflexivity|]. split; [done|]. split; [done|].
  by intros ? ? ? ? ? ? [= <- _ _ _ _ _].
Qed.
